(** * ZipRenderer: a shallow embedding of [archiveviewer/zip.py]

    The plugin is a set of callbacks registered with Trac.  The embedding
    keeps the callbacks as functions; every call into Trac or into
    Python's [zipfile] module goes through a [Host] record of oracles, and
    [re.match] is a small backtracking matcher with capture groups. *)

From Stdlib Require Import ZArith Ascii String List Bool Lia.
From stdpp Require Import base option list strings gmap.

(** ** Python strings *)

(** A Python 2 [str] is a sequence of characters; [u "..."] is a literal. *)
Definition str := list ascii.
Definition u (s : string) : str := list_ascii_of_string s.

Definition newline : ascii := ascii_of_nat 10.

Module PyStr.

(** [s.split(sep)] for a one-character separator: never returns []. *)
Fixpoint split (sep : ascii) (s : str) : list str :=
  match s with
  | [] => [[]]
  | c :: s' =>
      if bool_decide (c = sep) then [] :: split sep s'
      else match split sep s' with
           | h :: t => (c :: h) :: t
           | [] => [[c]]
           end
  end.

(** [s.split(sep, maxsplit)] *)
Fixpoint splitn (sep : ascii) (s : str) (maxsplit : nat) {struct s}
  : list str :=
  match s with
  | [] => [[]]
  | c :: s' =>
      match maxsplit with
      | O => [s]
      | S n' =>
          if bool_decide (c = sep) then [] :: splitn sep s' n'
          else match splitn sep s' maxsplit with
               | h :: t => (c :: h) :: t
               | [] => [[c]]
               end
      end
  end.

(** [s.lstrip(c)] for a one-character set. *)
Fixpoint lstrip (c : ascii) (s : str) : str :=
  match s with
  | c' :: s' => if bool_decide (c' = c) then lstrip c s' else s
  | [] => []
  end.

(** [s.endswith(t)]. *)
Definition endswith (s t : str) : bool :=
  bool_decide (drop (length s - length t) s = t).

(** [s.startswith(t)] *)
Fixpoint startswith (s t : str) : bool :=
  match t, s with
  | [], _ => true
  | c :: t', c' :: s' => bool_decide (c = c') && startswith s' t'
  | _ :: _, [] => false
  end.

(** [t in s] for strings: [t] occurs as a contiguous block of [s]. *)
Fixpoint contains (s t : str) : bool :=
  startswith s t ||
  match s with
  | [] => false
  | _ :: s' => contains s' t
  end.

(** [s.lower()] on the ASCII letters. *)
Definition lower_char (c : ascii) : ascii :=
  let n := nat_of_ascii c in
  if (65 <=? n)%nat && (n <=? 90)%nat then ascii_of_nat (n + 32) else c.

Definition lower (s : str) : str := map lower_char s.

End PyStr.

(** ** Regular expressions, as [re.match] runs them *)

Module Re.

Inductive regex : Type :=
| Eps                          (* the empty pattern *)
| Chr (c : ascii)              (* a literal character *)
| Dot                          (* [.]: any character but a newline *)
| NoneOf (cs : list ascii)     (* [[^...]] *)
| Seq (r1 r2 : regex)
| Alt (r1 r2 : regex)          (* [r1|r2], [r1] tried first *)
| Star (r : regex)             (* greedy [r*] *)
| Group (i : nat) (r : regex)  (* capturing group number [i+1] *)
| Eos.                         (* [$] *)

Infix "⋅" := Seq (at level 41, right associativity).

(** A literal run of characters. *)
Fixpoint lit_chars (s : str) : regex :=
  match s with
  | [] => Eps
  | c :: s' => Chr c ⋅ lit_chars s'
  end.
Definition lit (s : string) : regex := lit_chars (u s).

(** Greedy [r?] and [r+]. *)
Definition Opt (r : regex) : regex := Alt r Eps.
Definition Plus (r : regex) : regex := r ⋅ Star r.

(** [m.groups()]: one slot per capturing group, [None] when the group
    took no part in the match. *)
Definition captures := list (option str).

Definition cont := str -> captures -> option captures.

(** The loop of a greedy star: try one more iteration of [body], and
    only when everything after it fails go on with [k].  [n] bounds the
    number of iterations; each one has to consume a character. *)
Fixpoint star_loop (body : str -> captures -> cont -> option captures)
  (k : cont) (n : nat) (s : str) (caps : captures) {struct n}
  : option captures :=
  match n with
  | O => k s caps
  | S n' =>
      match body s caps
              (fun s' caps' =>
                 if (length s' <? length s)%nat
                 then star_loop body k n' s' caps' else None) with
      | Some res => Some res
      | None => k s caps
      end
  end.

(** Backtracking matcher in continuation-passing style: [exec r s caps k]
    matches [r] at the front of [s] and hands the rest to [k]; when [k]
    fails the next alternative of [r] is tried, longest repetition
    first.  An iteration of a star that consumes nothing is not
    repeated. *)
Fixpoint exec (r : regex) (s : str) (caps : captures) (k : cont)
  {struct r} : option captures :=
  match r with
  | Eps => k s caps
  | Chr c =>
      match s with
      | c' :: s' => if bool_decide (c' = c) then k s' caps else None
      | [] => None
      end
  | Dot =>
      match s with
      | c' :: s' => if bool_decide (c' = newline) then None else k s' caps
      | [] => None
      end
  | NoneOf cs =>
      match s with
      | c' :: s' => if bool_decide (c' ∈ cs) then None else k s' caps
      | [] => None
      end
  | Seq r1 r2 => exec r1 s caps (fun s' caps' => exec r2 s' caps' k)
  | Alt r1 r2 =>
      match exec r1 s caps k with
      | Some res => Some res
      | None => exec r2 s caps k
      end
  | Star r' => star_loop (exec r') k (length s) s caps
  | Group i r' =>
      exec r' s caps
        (fun s' caps' =>
           k s' (<[i := Some (take (length s - length s') s)]> caps'))
  | Eos =>
      if bool_decide (s = []) || bool_decide (s = [newline])
      then k s caps else None
  end.

(** [re.match(r, s)] for a pattern with [n] groups: anchored at the
    start, free at the end. *)
Definition re_match (n : nat) (r : regex) (s : str) : option captures :=
  exec r s (replicate n None) (fun _ caps => Some caps).

(** [m.group(i+1)] *)
Definition group (g : captures) (i : nat) : option str :=
  match g !! i with
  | Some (Some s) => Some s
  | _ => None
  end.

End Re.

Import Re.

(** The two patterns of [match_request], group by group.  In the source
    they are the raw strings (written here with blanks between the parts)

      /  (raw-)?  zip  (?:/zip)*  /attachment/  ([^/]+)  /  ([^!]* )  /
         ([^/!]+)  (!/.+)?  (@.+)?  $

      /  (raw-)?  zip  (?:/zip)*  /  (export|browser|file)  /  ([^!]+)
         (!/[^@]+)?  (@.+)?  $                                          *)

Definition re_attachment : regex :=
  lit "/" ⋅ Opt (Group 0 (lit "raw-")) ⋅ lit "zip" ⋅ Star (lit "/zip")
  ⋅ lit "/attachment/"
  ⋅ Group 1 (Plus (NoneOf (u "/"))) ⋅ lit "/"
  ⋅ Group 2 (Star (NoneOf (u "!"))) ⋅ lit "/"
  ⋅ Group 3 (Plus (NoneOf (u "/!")))
  ⋅ Opt (Group 4 (lit "!/" ⋅ Plus Dot))
  ⋅ Opt (Group 5 (lit "@" ⋅ Plus Dot))
  ⋅ Eos.

Definition re_browser : regex :=
  lit "/" ⋅ Opt (Group 0 (lit "raw-")) ⋅ lit "zip" ⋅ Star (lit "/zip")
  ⋅ lit "/"
  ⋅ Group 1 (Alt (lit "export") (Alt (lit "browser") (lit "file")))
  ⋅ lit "/"
  ⋅ Group 2 (Plus (NoneOf (u "!")))
  ⋅ Opt (Group 3 (lit "!/" ⋅ Plus (NoneOf (u "@"))))
  ⋅ Opt (Group 4 (lit "@" ⋅ Plus Dot))
  ⋅ Eos.

(** ** Values of the host framework *)

(** [trac.resource.Resource]: realm, id, version and parent. *)
#[warning="-register-all"]
Inductive Resource : Type :=
  mkResource (realm : str) (id version : option str)
             (parent : option Resource).

Definition realm (r : Resource) : str :=
  match r with mkResource x _ _ _ => x end.
Definition id (r : Resource) : option str :=
  match r with mkResource _ x _ _ => x end.
Definition version (r : Resource) : option str :=
  match r with mkResource _ _ x _ => x end.
Definition parent (r : Resource) : option Resource :=
  match r with mkResource _ _ _ x => x end.

(** [Resource(realm, id)] *)
Definition Resource_ (realm0 id0 : str) : Resource :=
  mkResource realm0 (Some id0) None None.

(** [self.child(realm, id, version=...)] *)
Definition child (self : Resource) (realm0 id0 : str)
  (version0 : option str) : Resource :=
  mkResource realm0 (Some id0) version0 (Some self).

(** [self(version=None)]: the same resource without its version. *)
Definition unversioned (self : Resource) : Resource :=
  mkResource (realm self) (id self) None (parent self).

(** What [req.args] and keyword arguments hold. *)
Inductive pyval : Type :=
| PNone
| PTrue
| PStr (s : str)
| PRes (r : Resource).

Definition truthy (v : pyval) : bool :=
  match v with
  | PNone => false
  | PTrue => true
  | PStr s => negb (bool_decide (s = []))
  | PRes _ => true
  end.

(** [a or b] *)
Definition py_or (a b : pyval) : pyval := if truthy a then a else b.

Definition of_opt (o : option str) : pyval :=
  match o with Some s => PStr s | None => PNone end.

(** [v == s] for a string literal [s]. *)
Definition py_eq_str (v : pyval) (s : str) : bool :=
  match v with
  | PStr s' => bool_decide (s' = s)
  | _ => false
  end.

(** Messages: plain text, or a call of the translation function
    [_(fmt, key=value, ...)]. *)
Inductive message : Type :=
| Plain (s : str)
| Translated (fmt : string) (kw : list (string * str)).

(** The exceptions that can leave a callback. *)
Inductive exn : Type :=
| ResourceNotFound (msg : message) (title : option message)
| TracError (msg : str)
| RequestDone
| NoSuchChangeset (msg : message)
| KeyError (key : str)
| AttributeError (attr : string)
| TypeError
| UnboundLocalError (var : string)
| HostError (name : string).   (* anything else the host raises *)

Inductive result (A : Type) : Type :=
| Ok (a : A)
| Raise (e : exn).
Arguments Ok {A} a.
Arguments Raise {A} e.

(** A file object, identified with the bytes it yields. *)
Definition fileobj := str.

(** [zipfile.ZipInfo], the fields the plugin reads. *)
Record ZipInfo : Type := mkZipInfo {
  filename : str;
  file_size : Z;
  date_time : Z * Z * Z * Z * Z * Z;
}.

(** An open [zipfile.ZipFile], as the object the plugin talks to. *)
Record ZipFile : Type := mkZipFile {
  infolist : list ZipInfo;
  getinfo : str -> result ZipInfo;     (* [KeyError] when absent *)
  open : str -> result fileobj;        (* [KeyError] when absent *)
}.

(** [trac.attachment.Attachment] *)
Record Attachment : Type := mkAttachment {
  parent_realm : str;
  parent_id : str;
  att_filename : str;
  description : str;
  size : Z;
  date : Z;
  author : str;
  ipnr : option str;
  (* the property [path]: it joins the parent realm, the parent id and
     the file name, and raises when the attachment was built without
     them *)
  path : result str;
}.

(** [attachment.resource] *)
Definition att_resource (a : Attachment) : Resource :=
  child (Resource_ (parent_realm a) (parent_id a)) (u "attachment")
        (att_filename a) None.

(** A repository and a node of it. *)
Record Repos : Type := mkRepos { repos_name : str }.

Record Node : Type := mkNode {
  kind : str;
  created_rev : str;
  content_length : option Z;
  get_content : fileobj;
}.

(** What has been written to the response. *)
Inductive hval : Type := HStr (s : str) | HInt (n : Z).

Inductive event : Type :=
| send_response (code : Z)
| send_header (name : string) (value : hval)
| end_headers.

(** Additions to the page chrome. *)
Inductive chrome_item : Type :=
| add_stylesheet (name : string)
| add_link (rel : string) (href : str) (title : message)
           (mimetype : option str)
| add_script (name : string).

(** [trac.web.api.Request], the parts the plugin reads and writes. *)
Record Request : Type := mkRequest {
  path_info : str;
  args : gmap string pyval;
  in_headers : gmap string str;
  sent : list event;                   (* oldest first *)
  _response : option (fileobj * Z);    (* wrapped file and block size *)
  chrome : list chrome_item;
}.

Definition get_header (req : Request) (name : string) : option str :=
  in_headers req !! name.

Definition set_args (req : Request) (a : gmap string pyval) : Request :=
  mkRequest (path_info req) a (in_headers req) (sent req) (_response req)
            (chrome req).

(** Rendering context, page fragments and links handed to templates. *)
Record Context : Type := mkContext { ctx_resource : option Resource }.

Definition web_context (req : Request) (resource : option Resource)
  : Context := mkContext resource.

(** [trac.web.href.Href(base)] *)
Inductive Href : Type := mkHref (base : str).

(** The wiki formatter handed to a link resolver. *)
Record Formatter : Type := mkFormatter {
  split_link : str -> str * str * str;
  fmt_href : Href;
}.

(** [trac.util.html] fragments. *)
Inductive Markup : Type :=
| Text (s : str)
| Anchor (label href : str).     (* [tag.a(label, href=href)] *)

Definition Preview := str.
Definition Changeset := str.
Record Link : Type := mkLink { link_name : str; link_href : str }.

(** ** The host framework *)

(** Every call that leaves the plugin.  A field stands for the call
    written next to it; [Raise] is an exception coming out of it. *)
Record Host : Type := mkHost {
  (* self.env.config.getint('mimeviewer', 'max_preview_size', default=262144) *)
  max_preview_size : result Z;
  (* self.env.config.getbool('attachment', 'render_unsafe_content') *)
  render_unsafe_content : bool;
  (* req.perm(resource).require(action) *)
  perm_require : Request -> pyval -> string -> result unit;
  (* Attachment(self.env, resource) *)
  Attachment_ : pyval -> result Attachment;
  (* attachment.open() *)
  attachment_open : Attachment -> result fileobj;
  (* os.path.exists(path) *)
  path_exists : str -> bool;
  (* RepositoryManager(self.env).get_repository_by_path(path) *)
  get_repository_by_path : option str -> str * option Repos * str;
  (* get_existing_node(req, repos, path, rev) *)
  get_existing_node : Request -> Repos -> str -> option str -> result Node;
  (* repos.get_changeset(rev) *)
  get_changeset : Repos -> str -> result Changeset;
  (* ZipFile(fileobj) *)
  ZipFile_ : fileobj -> result ZipFile;
  (* fileobj.peek(n) *)
  peek : fileobj -> nat -> result str;
  (* Mimeview(self.env).get_mimetype(name, data) *)
  get_mimetype : str -> str -> option str;
  (* Mimeview(self.env).get_charset(data, mimetype) *)
  get_charset : str -> str -> str;
  (* Mimeview(self.env).preview_data(context, fileobj, size, mimetype,
                                     name, url, annotations=['lineno']) *)
  preview_data :
    Context -> fileobj -> Z -> option str -> str -> str -> result Preview;
  (* http_date(to_datetime(datetime(y, m, d, hh, mm, ss))) *)
  http_date : Z * Z * Z * Z * Z * Z -> result str;
  (* get_resource_url(self.env, resource, href) *)
  trac_get_resource_url : pyval -> Href -> result str;
  (* unicode_unquote(s) *)
  unicode_unquote : str -> str;
  (* req.href(prefix, path, rev=rev) *)
  req_href : Request -> str -> str -> option str -> str;
  (* get_path_links(req.href, reponame, path, rev) *)
  get_path_links : Request -> str -> str -> option str -> list Link;
}.

(** ** Callbacks that read and write the request *)

Definition M (A : Type) : Type := Request -> result A * Request.

Definition ret {A} (a : A) : M A := fun req => (Ok a, req).
Definition raise {A} (e : exn) : M A := fun req => (Raise e, req).
Definition bind {A B} (m : M A) (f : A -> M B) : M B :=
  fun req =>
    match m req with
    | (Ok a, req') => f a req'
    | (Raise e, req') => (Raise e, req')
    end.
Definition lift {A} (r : result A) : M A := fun req => (r, req).
Definition ask : M Request := fun req => (Ok req, req).
Definition modify (f : Request -> Request) : M unit :=
  fun req => (Ok tt, f req).

Notation "'let!' x ':=' m 'in' k" := (bind m (fun x => k))
  (at level 10, x name, m at level 100, k at level 200).
Notation "'let!' ' p ':=' m 'in' k" :=
  (bind m (fun x => match x with p => k end))
  (at level 10, p pattern, m at level 100, k at level 200).

(** [req.args.get(key, None)] *)
Definition arg (req : Request) (key : string) : pyval :=
  default PNone (args req !! key).

Definition args_get (key : string) : M pyval :=
  fun req => (Ok (arg req key), req).

(** [req.args[key]] *)
Definition args_item (key : string) : M pyval :=
  fun req =>
    match args req !! key with
    | Some v => (Ok v, req)
    | None => (Raise (KeyError (u key)), req)
    end.

(** [req.args[key] = v] *)
Definition args_set (key : string) (v : pyval) : M unit :=
  modify (fun req => set_args req (<[key := v]> (args req))).

Definition emit (e : event) : M unit :=
  modify (fun req =>
    mkRequest (path_info req) (args req) (in_headers req) (sent req ++ [e])
              (_response req) (chrome req)).

Definition set_response (f : fileobj) (blocksize : Z) : M unit :=
  modify (fun req =>
    mkRequest (path_info req) (args req) (in_headers req) (sent req)
              (Some (f, blocksize)) (chrome req)).

Definition add_chrome (c : chrome_item) : M unit :=
  modify (fun req =>
    mkRequest (path_info req) (args req) (in_headers req) (sent req)
              (_response req) (chrome req ++ [c])).

(** Attribute access and slicing on values that may have the wrong type. *)

(** [v.id] *)
Definition getattr_id (v : pyval) : result pyval :=
  match v with
  | PRes r => Ok (of_opt (id r))
  | _ => Raise (AttributeError "id")
  end.

(** [v.child(realm, id, version=version)] *)
Definition py_child (v : pyval) (realm0 id0 : str) (version0 : option str)
  : result Resource :=
  match v with
  | PRes r => Ok (child r realm0 id0 version0)
  | _ => Raise (AttributeError "child")
  end.

(** [(v or '')[2:]] *)
Definition slice2 (v : pyval) : result str :=
  match py_or v (PStr []) with
  | PStr s => Ok (drop 2 s)
  | _ => Raise TypeError
  end.

(** [s + (v or '')] *)
Definition concat_or_empty (s : str) (v : pyval) : result str :=
  match py_or v (PStr []) with
  | PStr t => Ok (s ++ t)
  | _ => Raise TypeError
  end.

(** [if rev and rev.lower() in ('', 'head'): rev = None] *)
Definition normalize_rev (rev : pyval) : result (option str) :=
  match rev with
  | PNone => Ok None
  | PStr s =>
      if truthy (PStr s)
         && (bool_decide (PyStr.lower s = []) ||
             bool_decide (PyStr.lower s = u "head"))
      then Ok None else Ok (Some s)
  | _ => Raise (AttributeError "lower")
  end.

(** ** The component *)

Module ZipRenderer.

(** The extension points named in [implements(...)]. *)
Inductive interface : Type :=
| IResourceManager
| IHTMLPreviewRenderer
| IRequestHandler
| IWikiSyntaxProvider
| IRequestFilter
| ITemplateProvider.

Definition implements : list interface :=
  [IResourceManager; IHTMLPreviewRenderer; IRequestHandler;
   IWikiSyntaxProvider; IRequestFilter; ITemplateProvider].

(** *** IRequestHandler: [match_request] *)

(** A group that takes part in every match of its pattern. *)
Definition group_str (g : option str) : str := default [] g.

(** [if rev: req.args['rev'] = rev[1:]] *)
Definition store_rev (rev : option str) (a : gmap string pyval)
  : gmap string pyval :=
  match rev with
  | Some r => if truthy (PStr r) then <["rev" := PStr (drop 1 r)]> a else a
  | None => a
  end.

Definition match_request (req : Request) : pyval * Request :=
  match re_match 6 re_attachment (path_info req) with
  | Some g =>
      let a := <["format" := of_opt (group g 0)]> (args req) in
      let a := <["path" := of_opt (group g 4)]> a in
      let a := <["attachment" :=
                  PRes (child (Resource_ (group_str (group g 1))
                                         (group_str (group g 2)))
                              (u "attachment") (group_str (group g 3))
                              None)]> a in
      (PTrue, set_args req (store_rev (group g 5) a))
  | None =>
      match re_match 5 re_browser (path_info req) with
      | Some g =>
          let a := <["format" := of_opt (group g 0)]> (args req) in
          let a := <["path" := of_opt (group g 3)]> a in
          let a := <["browser" :=
                      PRes (Resource_ (group_str (group g 1))
                                      (group_str (group g 2)))]> a in
          (PTrue, set_args req (store_rev (group g 4) a))
      | None => (PNone, req)
      end
  end.

(** *** IWikiSyntaxProvider *)

Definition _format_link (h : Host) (formatter : Formatter)
  (ns target label : str) : result Markup :=
  let '(link, params, fragment) := split_link formatter target in
  match PyStr.splitn ":" link 2 with
  | [localid; parent_realm0; rest] =>
      let resource :=
        match PyStr.splitn ":" rest 2 with
        | [i0; i1; i2] =>
            PRes (child (child (Resource_ i1 i2) parent_realm0 i0 None)
                        (u "zip") localid None)
        | [i0] =>
            PRes (child (Resource_ parent_realm0 i0) (u "zip") localid None)
        | _ => PNone
        end in
      match trac_get_resource_url h resource (fmt_href formatter) with
      | Ok url => Ok (Anchor label (url ++ fragment))
      | Raise e => Raise e
      end
  | _ => Ok (Text label)
  end.

Definition get_wiki_syntax : list (str * str) := [].

Definition get_link_resolvers (h : Host)
  : list (str * (Formatter -> str -> str -> str -> result Markup)) :=
  [(u "raw-zip", _format_link h); (u "zip", _format_link h)].

(** *** IResourceManager *)

Definition get_resource_realms : list str := [u "zip"; u "raw-zip"].

(** [get_resource_url(self, resource, href, **kwargs)]; [href] is the
    callable the caller passes in. *)
Definition get_resource_url {A} (h : Host) (resource : Resource)
  (href : str -> str -> gmap string pyval -> A)
  (kwargs : gmap string pyval) : result (option A) :=
  match parent resource with
  | None => Ok None
  | Some parent0 =>
      let prefix := u "zip" in
      let format_ := default PNone (kwargs !! "format") in
      let '(kwargs, prefix) :=
        if py_eq_str format_ (u "raw")
        then (delete "format" kwargs, u "raw" ++ u "-zip")
        else (kwargs, prefix) in
      match trac_get_resource_url h (PRes (unversioned parent0))
              (mkHref []) with
      | Raise e => Raise e
      | Ok url =>
          let parent_href := unicode_unquote h url in
          Ok (Some (href prefix
                      (parent_href ++ u "!/"
                       ++ match py_or (of_opt (id resource)) (PStr []) with
                          | PStr s => s
                          | _ => []
                          end)
                      kwargs))
      end
  end.

(** [resource_exists(self, resource)] *)
Definition resource_exists (h : Host) (resource : Resource)
  : result bool :=
  match Attachment_ h (match parent resource with
                       | Some p => PRes p
                       | None => PNone
                       end) with
  | Ok attachment =>
      match path attachment with
      | Ok p => Ok (path_exists h p)
      | Raise (ResourceNotFound _ _) => Ok false
      | Raise e => Raise e
      end
  | Raise (ResourceNotFound _ _) => Ok false
  | Raise e => Raise e
  end.

(** *** IHTMLPreviewRenderer *)

Definition get_extra_mimetypes : list (str * list str) :=
  [(u "application/x-zip-compressed",
    map u ["egg"; "whl"; "jar"; "ear"; "war"; "bar"; "apk"; "epub"; "kmz";
           "xpi"; "ipa"]);
   (u "text/plain", map u ["MANIFEST.MF"; "PKG-INFO"])].

Definition get_quality_ratio (mimetype : str) : Z :=
  if bool_decide (mimetype ∈ [u "application/zip";
                              u "application/x-zip-compressed"])
  then 8 else 0.

(** *** IRequestHandler: [process_request] *)

Inductive module : Type := BrowserModule | AttachmentModule.

Record dir_entry : Type := mkDirEntry {
  de_name : str;
  de_kind : str;
  de_content_length : Z;
  de_path : str;
  de_raw_href : pyval;
  de_created_rev : str;
}.

(** The attachment shown for a member of an archive. *)
Record ZipAttachment : Type := mkZipAttachment {
  za_description : str;
  za_size : Z;
  za_date : Z;
  za_author : str;
  za_ipnr : option str;
  za_filename : option str;
  za_parent_realm : str;
  za_parent_id : option str;
  za_parent_resource : Resource;
}.

Inductive template_data : Type :=
| DirEntries (reponame stickyrev : str) (display_rev : str -> str)
             (entries : list dir_entry) (changes : list (str * pyval))
| AttachmentPage (preview : Preview) (attachment : ZipAttachment)
| BrowserPage (size0 : option Z) (repos : option Repos)
              (path_links : list Link) (changeset : Changeset)
              (preview : Preview) (display_rev : str -> str)
              (reponame : str) (stickyrev created_rev : option str)
              (created_path : str) (context : Context).

(** What [process_request] returns: the answer of the module it hands
    the request to, or a template with its data. *)
Inductive response : Type :=
| Delegated (to : module)
| Template (name : string) (data : template_data).

(** The locals bound in the repository branch only. *)
Record browser_locals : Type := mkBrowserLocals {
  reponame : str;
  repos : option Repos;
  path_ : str;
  node : Node;
}.

(** Lines 165-185: where the outer file comes from. *)
Definition open_source (h : Host) (attachment browser resource : pyval)
  (rev : option str)
  : M (option Attachment * option browser_locals * fileobj) :=
  if truthy attachment then
    let! req := ask in
    let! _ := lift (perm_require h req resource "ATTACHMENT_VIEW") in
    let! attachment := lift (Attachment_ h attachment) in
    let! fileobj := lift (attachment_open h attachment) in
    ret (Some attachment, None, fileobj)
  else if truthy browser then
    let! req := ask in
    let! _ := lift (perm_require h req resource "FILE_VIEW") in
    let! rid := lift (match resource with
                      | PRes r => Ok (id r)
                      | _ => Raise (AttributeError "id")
                      end) in
    let '(reponame, repos, path) := get_repository_by_path h rid in
    match repos with
    | None =>
        if truthy (PStr reponame) then
          raise (ResourceNotFound
                   (Translated "Repository '%(repo)s' not found"
                               [("repo", reponame)]) None)
        else raise (UnboundLocalError "node")
    | Some repos0 =>
        match get_existing_node h req repos0 path rev with
        | Raise (NoSuchChangeset msg) =>
            raise (ResourceNotFound msg
                     (Some (Translated "Invalid changeset number" [])))
        | Raise e => raise e
        | Ok node =>
            ret (None, Some (mkBrowserLocals reponame repos path node),
                 get_content node)
        end
    end
  else raise (TracError (u "Not Implemented")).

Definition not_in_zip (name : str) : exn :=
  ResourceNotFound
    (Translated "Attchment '%(title)s' does not exist." [("title", name)])
    (Some (Translated "Invalid filename in Zip" [])).

(** Lines 193-202: the loop over the elements of the inner path.  The
    state is the current file object and the [zipfile] and [element]
    of the last round. *)
Fixpoint for_elements (h : Host) (name : str) (elements : list str)
  (fileobj0 : fileobj) (last : option (ZipFile * str))
  : result (fileobj * option (ZipFile * str)) :=
  match elements with
  | [] => Ok (fileobj0, last)
  | element :: rest =>
      match ZipFile_ h fileobj0 with
      | Raise e => Raise e
      | Ok zipfile =>
          match open zipfile element with
          | Raise (KeyError _) => Raise (not_in_zip name)
          | Raise e => Raise e
          | Ok f => for_elements h name rest f (Some (zipfile, element))
          end
      end
  end.

(** [[e.lstrip('/') for e in name.split('!')]] *)
Definition elements_of (name : str) : list str :=
  map (PyStr.lstrip "/") (PyStr.split "!" name).

Fixpoint mapM {A B} (f : A -> result B) (l : list A) : result (list B) :=
  match l with
  | [] => Ok []
  | x :: l' =>
      match f x with
      | Raise e => Raise e
      | Ok y =>
          match mapM f l' with
          | Raise e => Raise e
          | Ok ys => Ok (y :: ys)
          end
      end
  end.

(** Lines 213-221: the entries of the listing. *)
Definition dir_entries (node0 : Node) (path0 : str) (argpath : pyval)
  (infos : list ZipInfo) : result (list dir_entry) :=
  mapM (fun info =>
          match concat_or_empty path0 argpath with
          | Raise e => Raise e
          | Ok p =>
              Ok (mkDirEntry (filename info) (kind node0) (file_size info)
                    (p ++ u "!/" ++ filename info) PNone
                    (created_rev node0))
          end)
       (filter (fun info => ¬ Is_true (PyStr.endswith (filename info) (u "/")))
               infos).

(** Lines 207-227. *)
Definition xhr_listing (h : Host) (blocals : option browser_locals)
  (fileobj0 : fileobj) : M response :=
  let! zipfile := lift (ZipFile_ h fileobj0) in
  match blocals with
  | None => raise (UnboundLocalError "reponame")
  | Some b =>
      let! argpath := args_item "path" in
      let! entries :=
        lift (dir_entries (node b) (path_ b) argpath (infolist zipfile)) in
      ret (Template "dir_entries.html"
             (DirEntries (reponame b) (created_rev (node b)) (fun x => x)
                entries [(created_rev (node b), PNone)]))
  end.

(** Lines 240-245: the sniffed mimetype. *)
Definition sniff (h : Host) (name str_data : str) : option str :=
  match get_mimetype h name str_data with
  | Some mime_type =>
      if truthy (PStr mime_type)
         && negb (PyStr.contains mime_type (u "charset="))
      then Some (mime_type ++ u "; charset="
                 ++ get_charset h str_data mime_type)
      else Some mime_type
  | None => None
  end.

(** Lines 321-340: the raw answer. *)
Definition raw_response (h : Host) (zipinfo : ZipInfo)
  (mime_type : option str) (fileobj0 : fileobj) : M response :=
  let! last_modified := lift (http_date h (date_time zipinfo)) in
  let! req := ask in
  let! _ :=
    if bool_decide (Some last_modified = get_header req "If-Modified-Since")
    then
      let! _ := emit (send_response 304) in
      let! _ := emit (send_header "Content-Length" (HInt 0)) in
      emit end_headers
    else
      let! _ := emit (send_response 200) in
      let! _ :=
        if negb (render_unsafe_content h)
        then emit (send_header "Content-Disposition" (HStr (u "attachment")))
        else ret tt in
      let! _ :=
        match mime_type with
        | Some m =>
            if truthy (PStr m)
            then emit (send_header "Content-Type" (HStr m))
            else ret tt
        | None => ret tt
        end in
      let! _ := emit (send_header "Content-Length"
                                  (HInt (file_size zipinfo))) in
      let! _ := emit (send_header "Last-Modified" (HStr last_modified)) in
      let! _ := emit end_headers in
      set_response fileobj0 4096 in
  raise RequestDone.

(** [_ZipAttachment(attachment, resource)] *)
Definition ZipAttachment_ (attachment : Attachment)
  (resource : option Resource) : result ZipAttachment :=
  match resource with
  | None => Raise (AttributeError "id")
  | Some r =>
      match parent r with
      | None => Raise (AttributeError "realm")
      | Some p =>
          Ok (mkZipAttachment (description attachment) (size attachment)
                (date attachment) (author attachment) (ipnr attachment)
                (id r) (realm p) (id p) p)
      end
  end.

(** Lines 250-317: the templated answers; [None] when neither applies
    and control falls through to the raw answer. *)
Definition templated (h : Host) (attachment : option Attachment)
  (blocals : option browser_locals) (browser resource : pyval)
  (rev : option str) (name : str) (context : Context)
  (zipinfo : ZipInfo) (mime_type : option str) (fileobj0 : fileobj)
  : M (option response) :=
  let! url := lift (trac_get_resource_url h resource (mkHref [])) in
  let href := unicode_unquote h url ++ u "!/" ++ name in
  let! req := ask in
  let rawurl := req_href h req (u "raw-zip") href rev in
  let! _ := add_chrome (add_stylesheet "common/css/code.css") in
  let! _ := add_chrome (add_link "alternate" rawurl
                          (Translated "Original Format" []) mime_type) in
  let! preview :=
    lift (preview_data h context fileobj0 (file_size zipinfo) mime_type
                       name rawurl) in
  match attachment with
  | Some a =>
      let! za := lift (ZipAttachment_ a (ctx_resource context)) in
      ret (Some (Template "attachment.html" (AttachmentPage preview za)))
  | None =>
      if truthy browser then
        match blocals with
        | None => raise (UnboundLocalError "reponame")
        | Some b =>
            let! req := ask in
            let path_links :=
              get_path_links h req (reponame b) (path_ b) rev
              ++ [mkLink (u "!" ++ name)
                         (req_href h req (u "zip") href rev)] in
            match repos b with
            | None => raise (AttributeError "get_changeset")
            | Some repos0 =>
                let! changeset :=
                  lift (get_changeset h repos0 (created_rev (node b))) in
                let! _ :=
                  add_chrome (add_stylesheet "common/css/browser.css") in
                ret (Some (Template "browser.html"
                             (BrowserPage (content_length (node b))
                                (repos b) path_links changeset preview
                                (fun x => x) (reponame b) rev rev
                                (path_ b) context)))
            end
        end
      else ret None
  end.

(** Lines 207-340: the answer, once the inner entry is the current
    file object. *)
Definition answer (h : Host) (xhr : bool)
  (attachment : option Attachment) (blocals : option browser_locals)
  (browser resource : pyval) (rev : option str) (name : str)
  (fileobj0 : fileobj) (last : option (ZipFile * str)) (context : Context)
  : M response :=
  if xhr then xhr_listing h blocals fileobj0
  else
    match last with
    | None => raise (UnboundLocalError "element")
    | Some (zipfile, element) =>
        let! zipinfo :=
          lift (match getinfo zipfile element with
                | Raise (KeyError _) => Raise (not_in_zip name)
                | other => other
                end) in
        let! str_data := lift (peek h fileobj0 512) in
        let mime_type := sniff h name str_data in
        let! format := args_item "format" in
        let! page :=
          if negb (py_eq_str format (u "raw-")) then
            templated h attachment blocals browser resource rev name
                      context zipinfo mime_type fileobj0
          else ret None in
        match page with
        | Some r => ret r
        | None => raw_response h zipinfo mime_type fileobj0
        end
    end.

(** Lines 187-205: from the outer file to the inner entry. *)
Definition serve_entry (h : Host) (xhr : bool)
  (attachment : option Attachment) (blocals : option browser_locals)
  (browser resource : pyval) (rev : option str) (fileobj0 : fileobj)
  : M response :=
  let! path1 := args_item "path" in
  let! name := lift (slice2 path1) in
  (* self.log.info('ZIP: %s' % attachment.resource.id) *)
  let! _ := match attachment with
            | Some _ => ret tt
            | None => raise (AttributeError "resource")
            end in
  let! '(fileobj0, last, context) :=
    if truthy (PStr name) then
      let! '(f, last) :=
        lift (for_elements h name (elements_of name) fileobj0 None) in
      let! r := lift (py_child resource (u "zip") name rev) in
      let! req := ask in
      ret (f, last, web_context req (Some r))
    else
      let! req := ask in
      ret (fileobj0, None, web_context req None) in
  answer h xhr attachment blocals browser resource rev name fileobj0 last
         context.

Definition is_xhr (req : Request) : bool :=
  bool_decide (get_header req "X-Requested-With"
               = Some (u "XMLHttpRequest")).

Definition process_request (h : Host) : M response :=
  let! max_size := lift (max_preview_size h) in
  let! attachment := args_get "attachment" in
  let! browser := args_get "browser" in
  let resource := py_or attachment browser in
  let! req := ask in
  let xhr := is_xhr req in
  let! path0 := args_item "path" in
  if negb (truthy path0) && negb xhr then
    let! rid := lift (getattr_id resource) in
    let! _ := args_set "path" rid in
    ret (Delegated (if truthy browser then BrowserModule
                    else AttachmentModule))
  else
    let! rev := args_get "rev" in
    let! rev := lift (normalize_rev rev) in
    let! '(attachment, blocals, fileobj0) :=
      open_source h attachment browser resource rev in
    serve_entry h xhr attachment blocals browser resource rev fileobj0.

(** *** IRequestFilter *)

Definition pre_process_request {H} (handler : H) : M H := ret handler.

Definition post_process_request {D C} (template : string) (data : D)
  (content_type : C) : M (string * D * C) :=
  let! _ :=
    if bool_decide (template ∈ ["browser.html"; "dir_entries.html"]%string)
    then add_chrome (add_script "archiveviewer/js/add_expander_for_zip.js")
    else ret tt in
  ret (template, data, content_type).

End ZipRenderer.

(** ** Vocabulary of the statements *)

(** How a greedy repetition of a one-character pattern behaves. *)
Module ReSpec.

(** One-character patterns and the predicate they test. *)
Definition is_class (r : regex) (p : ascii -> bool) : Prop :=
  forall s caps k,
    exec r s caps k =
    match s with
    | c :: s' => if p c then k s' caps else None
    | [] => None
    end.

Definition not_in (cs : list ascii) (c : ascii) : bool :=
  negb (bool_decide (c ∈ cs)).
Definition not_newline (c : ascii) : bool :=
  negb (bool_decide (c = newline)).

(** What a greedy star over a class does: go as far as the class
    allows, then come back one character at a time. *)
Fixpoint greedy (p : ascii -> bool) (k : cont) (s : str)
  (caps : captures) : option captures :=
  match s with
  | c :: s' =>
      if p c then
        match greedy p k s' caps with
        | Some res => Some res
        | None => k s caps
        end
      else k s caps
  | [] => k [] caps
  end.

(** Giving back the characters of [a], one at a time. *)
Fixpoint backtrack (k : cont) (a s : str) (caps : captures)
  : option captures :=
  match a with
  | [] => None
  | c :: a' =>
      match backtrack k a' s caps with
      | Some res => Some res
      | None => k (c :: a' ++ s) caps
      end
  end.

Definition all_in (p : ascii -> bool) (a : str) : Prop :=
  Forall (fun c => p c = true) a.

(** [s] does not go on with a character of the class. *)
Definition stops (p : ascii -> bool) (s : str) : Prop :=
  match s with
  | [] => True
  | c :: _ => p c = false
  end.

End ReSpec.

(** The shapes of path the two patterns are written for. *)

Definition zip_prefix (raw : bool) (j : nat) : str :=
  u "/" ++ (if raw then u "raw-" else []) ++ u "zip"
  ++ mjoin (replicate j (u "/zip")).

Definition raw_flag (raw : bool) : option str :=
  if raw then Some (u "raw-") else None.

Definition inner_suffix (inner : option str) : str :=
  match inner with
  | Some x => u "!/" ++ x
  | None => []
  end.

Definition browser_suffix (inner : option (str * option str)) : str :=
  match inner with
  | None => []
  | Some (x, None) => u "!/" ++ x
  | Some (x, Some r) => u "!/" ++ x ++ u "@" ++ r
  end.

Definition browser_realms : list str := [u "export"; u "browser"; u "file"].

Definition with_raw (raw : bool) (caps : captures) : captures :=
  if raw then <[0%nat := Some (u "raw-")]> caps else caps.

(** The end of the attachment pattern, after the archive name. *)
Definition attachment_tail : regex :=
  Opt (Group 4 (lit "!/" ⋅ Plus Dot)) ⋅ Opt (Group 5 (lit "@" ⋅ Plus Dot))
  ⋅ Eos.

Definition browser_tail : regex :=
  Opt (Group 3 (lit "!/" ⋅ Plus (NoneOf (u "@"))))
  ⋅ Opt (Group 4 (lit "@" ⋅ Plus Dot)) ⋅ Eos.

Definition browser_inner_ok (inner : option (str * option str)) : Prop :=
  match inner with
  | None => True
  | Some (x, r) =>
      x <> [] /\ ("@"%char ∉ x) /\
      match r with
      | None => True
      | Some r => r <> [] /\ newline ∉ r
      end
  end.

Definition request_for (p : string) : Request :=
  mkRequest (u p) ∅ ∅ [] None [].

(** The inner path made of [segments], as it stands in a URL:
    [!/s1!/s2...]. *)
Definition inner_path (segments : list str) : str :=
  mjoin (map (fun s => u "!/" ++ s) segments).

(** A segment that survives splitting at [!] and stripping [/]. *)
Definition plain_segment (s : str) : Prop :=
  ("!"%char ∉ s) /\ head s <> Some "/"%char.

(** Going down one archive per segment, in the words of the spec: the
    entry named by the first segment is opened from the current file, and
    the remaining segments are looked up inside that entry. *)
Fixpoint nested_entry (h : Host) (f : fileobj) (segments : list str)
  : option fileobj :=
  match segments with
  | [] => Some f
  | segment :: rest =>
      match ZipFile_ h f with
      | Ok z =>
          match open z segment with
          | Ok f' => nested_entry h f' rest
          | Raise _ => None
          end
      | Raise _ => None
      end
  end.

(** An attachment request that gets as far as the outer file [f0]:
    [res] is the 'attachment' argument, [a] the attachment built from it,
    [name] the inner path without its first two characters, [rev] the
    revision after line 163. *)
Definition attachment_opened (h : Host) (req : Request) (res : Resource)
  (a : Attachment) (name : str) (rev : option str) (f0 : fileobj) : Prop :=
  (exists n, max_preview_size h = Ok n) /\
  arg req "attachment" = PRes res /\
  (exists p, args req !! "path" = Some p /\ slice2 p = Ok name /\
             (truthy p = true \/ ZipRenderer.is_xhr req = true)) /\
  normalize_rev (arg req "rev") = Ok rev /\
  perm_require h req (PRes res) "ATTACHMENT_VIEW" = Ok tt /\
  Attachment_ h (PRes res) = Ok a /\ attachment_open h a = Ok f0.

(** The request after [events] have been sent and the response body has
    become [response]. *)
Definition replied (req : Request) (events : list event)
  (response : option (fileobj * Z)) : Request :=
  mkRequest (path_info req) (args req) (in_headers req)
            (sent req ++ events) response (chrome req).

(** The two raw answers, in the words of the spec. *)
Definition not_modified : list event :=
  [send_response 304; send_header "Content-Length" (HInt 0); end_headers].

Definition full_reply (h : Host) (zipinfo : ZipInfo)
  (mime_type : option str) (last_modified : str) : list event :=
  [send_response 200]
  ++ (if render_unsafe_content h then []
      else [send_header "Content-Disposition" (HStr (u "attachment"))])
  ++ match mime_type with
     | Some m => if bool_decide (m = []) then []
                 else [send_header "Content-Type" (HStr m)]
     | None => []
     end
  ++ [send_header "Content-Length" (HInt (file_size zipinfo));
      send_header "Last-Modified" (HStr last_modified);
      end_headers].

(** ** A small host to run the callbacks on *)

Module Demo.

(** A [ZipFile] over a list of members; of two members with one name the
    later one is found. *)
Definition find_member (members : list (ZipInfo * fileobj)) (name : str)
  : option (ZipInfo * fileobj) :=
  head (filter (fun m => filename m.1 = name) (reverse members)).

Definition archive (members : list (ZipInfo * fileobj)) : ZipFile :=
  mkZipFile (map fst members)
    (fun name => match find_member members name with
                 | Some m => Ok m.1
                 | None => Raise (KeyError name)
                 end)
    (fun name => match find_member members name with
                 | Some m => Ok m.2
                 | None => Raise (KeyError name)
                 end).

Definition member (name : string) (content : fileobj)
  : ZipInfo * fileobj :=
  (mkZipInfo (u name) (Z.of_nat (length content))
             (2019, 7, 1, 12, 30, 0)%Z, content).

Definition inner_zip : fileobj := u "<inner.zip>".
Definition outer_zip : fileobj := u "<a.zip>".

Definition unzip (f : fileobj) : result ZipFile :=
  if bool_decide (f = outer_zip) then
    Ok (archive [member "docs/" []; member "inner.zip" inner_zip;
                 member "readme.txt" (u "hello")])
  else if bool_decide (f = inner_zip) then
    Ok (archive [member "a.txt" (u "abc")])
  else Raise (HostError "BadZipFile").

Definition the_attachment : Attachment :=
  mkAttachment (u "ticket") (u "1") (u "a.zip") (u "an archive") 11 0
               (u "joe") None (Ok (u "/files/ticket/1/a.zip")).

(** [Attachment(env, None)]: without a file name nothing is fetched, so
    the attachment is built; it has no parent realm, and [path]
    raises. *)
Definition unparented_attachment : Attachment :=
  mkAttachment [] (u "None") [] [] 0 0 [] None (Raise TypeError).

Definition the_node : Node :=
  mkNode (u "file") (u "7") (Some 11%Z) outer_zip.

Definition host : Host := {|
  max_preview_size := Ok 262144%Z;
  render_unsafe_content := false;
  perm_require := fun _ _ _ => Ok tt;
  Attachment_ := fun v =>
    match v with
    | PRes r =>
        if bool_decide (id r = Some (u "a.zip")) then Ok the_attachment
        else Raise (ResourceNotFound (Plain (u "no such attachment")) None)
    | PNone => Ok unparented_attachment
    | _ => Raise (ResourceNotFound (Plain (u "no such attachment")) None)
    end;
  attachment_open := fun _ => Ok outer_zip;
  path_exists := fun p => bool_decide (p = u "/files/ticket/1/a.zip");
  get_repository_by_path := fun p =>
    match p with
    | Some q =>
        if PyStr.startswith q (u "gone/") then (u "gone", None, drop 5 q)
        else (u "", Some (mkRepos (u "")), q)
    | None => (u "", Some (mkRepos (u "")), [])
    end;
  get_existing_node := fun _ _ _ rev =>
    if bool_decide (rev = Some (u "999"))
    then Raise (NoSuchChangeset (Plain (u "No changeset 999")))
    else Ok the_node;
  get_changeset := fun _ rev => Ok rev;
  ZipFile_ := unzip;
  peek := fun f n => Ok (take n f);
  get_mimetype := fun name _ =>
    if PyStr.endswith name (u ".txt") then Some (u "text/plain") else None;
  get_charset := fun _ _ => u "utf-8";
  preview_data := fun _ f _ _ _ _ => Ok f;
  http_date := fun _ => Ok (u "Mon, 01 Jul 2019 12:30:00 GMT");
  trac_get_resource_url := fun _ _ => Ok (u "/attachment/ticket/1/a.zip");
  unicode_unquote := fun s => s;
  req_href := fun _ prefix p _ => u "/" ++ prefix ++ p;
  get_path_links := fun _ _ _ _ => [];
|}.

(** The request for a path, after [match_request], with the headers
    given. *)
Definition request (p : string) (headers : list (string * string))
  : Request :=
  let req := (ZipRenderer.match_request (request_for p)).2 in
  mkRequest (path_info req) (args req)
            (list_to_map (map (fun kv => (kv.1, u kv.2)) headers))
            (sent req) (_response req) (chrome req).

(** The attachment [a.zip] of ticket 1. *)
Definition the_resource : Resource :=
  child (Resource_ (u "ticket") (u "1")) (u "attachment") (u "a.zip") None.

Definition raw_request : Request :=
  request "/raw-zip/attachment/ticket/1/a.zip!/inner.zip!/a.txt" [].

Definition missing_request : Request :=
  request "/raw-zip/attachment/ticket/1/a.zip!/inner.zip!/b.txt" [].

Definition xhr : list (string * string) :=
  [("X-Requested-With", "XMLHttpRequest")].

End Demo.

(** ** What a match is *)

(** The matches of a pattern, apart from the order in which [exec] looks
    for them: [matches r s caps s' caps'] when [r] can take the front of
    [s], leave [s'] and turn the groups [caps] into [caps']. *)
Module ReSem.

Inductive matches : regex -> str -> captures -> str -> captures -> Prop :=
| m_eps s caps : matches Eps s caps s caps
| m_chr c s caps : matches (Chr c) (c :: s) caps s caps
| m_dot c s caps : c <> newline -> matches Dot (c :: s) caps s caps
| m_none_of cs c s caps : c ∉ cs -> matches (NoneOf cs) (c :: s) caps s caps
| m_seq r1 r2 s caps s1 caps1 s2 caps2 :
    matches r1 s caps s1 caps1 -> matches r2 s1 caps1 s2 caps2 ->
    matches (r1 ⋅ r2) s caps s2 caps2
| m_alt_l r1 r2 s caps s' caps' :
    matches r1 s caps s' caps' -> matches (Alt r1 r2) s caps s' caps'
| m_alt_r r1 r2 s caps s' caps' :
    matches r2 s caps s' caps' -> matches (Alt r1 r2) s caps s' caps'
| m_star_end r s caps : matches (Star r) s caps s caps
| m_star_more r s caps s1 caps1 s2 caps2 :
    matches r s caps s1 caps1 -> (length s1 < length s)%nat ->
    matches (Star r) s1 caps1 s2 caps2 ->
    matches (Star r) s caps s2 caps2
| m_group i r s caps s' caps' :
    matches r s caps s' caps' ->
    matches (Group i r) s caps s'
            (<[i := Some (take (length s - length s') s)]> caps')
| m_eos s caps :
    s = [] \/ s = [newline] -> matches Eos s caps s caps.

End ReSem.

(** The text of a group that may be absent. *)
Definition opt_text (o : option str) : str := default [] o.

(** What the groups of the attachment pattern can hold. *)
Definition attachment_groups_ok (realm0 rid archive : str)
  (inner rev : option str) : Prop :=
  realm0 <> [] /\ ("/"%char ∉ realm0) /\ ("!"%char ∉ rid) /\
  archive <> [] /\ ("/"%char ∉ archive) /\ ("!"%char ∉ archive) /\
  (forall x, inner = Some x ->
             exists y, x = u "!/" ++ y /\ y <> [] /\ newline ∉ y) /\
  (forall x, rev = Some x ->
             exists y, x = u "@" ++ y /\ y <> [] /\ newline ∉ y).

(** What the groups of the repository pattern can hold. *)
Definition browser_groups_ok (realm0 p : str) (inner rev : option str)
  : Prop :=
  realm0 ∈ browser_realms /\ p <> [] /\ ("!"%char ∉ p) /\
  (forall x, inner = Some x ->
             exists y, x = u "!/" ++ y /\ y <> [] /\ "@"%char ∉ y) /\
  (forall x, rev = Some x ->
             exists y, x = u "@" ++ y /\ y <> [] /\ newline ∉ y).

(** What [get_resource_url] hands to [href] besides the path: the
    prefix, and the keyword arguments without a 'format' that was
    'raw'. *)
Definition url_prefix (raw : bool) : str :=
  if raw then u "raw-zip" else u "zip".

Definition url_kwargs (raw : bool) (kwargs : gmap string pyval)
  : gmap string pyval :=
  if raw then delete "format" kwargs else kwargs.

(** The URL of an attachment under [Href('')]. *)
Definition attachment_url (realm0 rid archive : str) : str :=
  u "/attachment/" ++ realm0 ++ u "/" ++ rid ++ u "/" ++ archive.

(** ** IHTMLPreviewRenderer: [render] *)

(** The [content] handed to [render]: nothing, a string, or a [Content]
    object whose [input] is a stream that may lack [seek]. *)
Record Input : Type := mkInput { in_data : fileobj; has_seek : bool }.

Inductive Content : Type :=
| CNone
| CText (s : str)
| CObject (input : option Input).

(** The rendering context: its resource and its [href]. *)
Record RenderingContext : Type := mkRenderingContext {
  rc_resource : Resource;
  rc_href : Href;
}.

(** One [tag.li] of the listing: the link to the member, the raw link
    and the size in brackets. *)
Record ListItem : Type := mkListItem {
  li_view : Markup;
  li_raw : Markup;
  li_size : str;
}.

Module Render.

(** [f.read(n)]: everything when [n] is negative. *)
Definition read (data : fileobj) (n : Z) : fileobj :=
  if (n <? 0)%Z then data else take (Z.to_nat n) data.

(** The zero-width space that labels the raw link. *)
Definition zwsp : str := [ascii_of_nat 226; ascii_of_nat 128;
                          ascii_of_nat 139].

(** [render(self, context, mimetype, content, filename, url)].  The two
    extra arguments stand for [get_resource_url(self.env, resource,
    href, **kwargs)] and [pretty_size] of the host. *)
Definition render (h : Host)
  (url_of : Resource -> Href -> gmap string pyval -> result str)
  (pretty_size : Z -> str)
  (context : RenderingContext) (mimetype : str) (content : Content)
  : result (option (list ListItem)) :=
  match content with
  | CNone => Ok None
  | CText s =>
      if truthy (PStr s) then Raise (AttributeError "input") else Ok None
  | CObject None => Ok None
  | CObject (Some f) =>
      match (if has_seek f then Ok (in_data f)
             else match max_preview_size h with
                  | Ok max_size => Ok (read (in_data f) max_size)
                  | Raise e => Raise e
                  end) with
      | Raise e => Raise e
      | Ok f =>
          match ZipFile_ h f with
          | Raise e => Raise e
          | Ok zipfile =>
              match
                ZipRenderer.mapM
                  (fun info =>
                     let resource :=
                       child (rc_resource context) (u "zip")
                             (filename info) None in
                     match url_of resource (rc_href context)
                             {["rev" := of_opt (version
                                                  (rc_resource context))]}
                     with
                     | Raise e => Raise e
                     | Ok href =>
                         match url_of resource (rc_href context)
                                 {["format" := PStr (u "raw")]} with
                         | Raise e => Raise e
                         | Ok raw_href =>
                             Ok (mkListItem
                                   (Anchor (filename info) href)
                                   (Anchor zwsp raw_href)
                                   (u " (" ++ pretty_size (file_size info)
                                    ++ u ")"))
                         end
                     end)
                  (infolist zipfile)
              with
              | Raise e => Raise e
              | Ok listitems => Ok (Some listitems)
              end
          end
      end
  end.

End Render.

(** ** More vocabulary of the statements *)

(** Same request line, same arguments. *)
Definition untouched (req req' : Request) : Prop :=
  path_info req' = path_info req /\ in_headers req' = in_headers req /\
  args req' = args req.

(** What a run of the handler can be seen to have done. *)
Definition outcome_ok (req : Request) (r : result ZipRenderer.response)
  (req' : Request) : Prop :=
  untouched req req' /\
  (r <> Raise RequestDone ->
   sent req' = sent req /\ _response req' = _response req) /\
  (forall t, r = Ok t ->
             exists pv za, t = ZipRenderer.Template "attachment.html"
                                        (ZipRenderer.AttachmentPage pv za)).

(** The name shown by an item of the listing. *)
Definition li_name (i : ListItem) : str :=
  match li_view i with
  | Anchor label _ => label
  | Text s => s
  end.

(** The small host with every permission refused. *)
Definition closed_host : Host := {|
  max_preview_size := max_preview_size Demo.host;
  render_unsafe_content := render_unsafe_content Demo.host;
  perm_require := fun _ _ _ => Raise (HostError "PermissionError");
  Attachment_ := Attachment_ Demo.host;
  attachment_open := attachment_open Demo.host;
  path_exists := path_exists Demo.host;
  get_repository_by_path := get_repository_by_path Demo.host;
  get_existing_node := get_existing_node Demo.host;
  get_changeset := get_changeset Demo.host;
  ZipFile_ := ZipFile_ Demo.host;
  peek := peek Demo.host;
  get_mimetype := get_mimetype Demo.host;
  get_charset := get_charset Demo.host;
  preview_data := preview_data Demo.host;
  http_date := http_date Demo.host;
  trac_get_resource_url := trac_get_resource_url Demo.host;
  unicode_unquote := unicode_unquote Demo.host;
  req_href := req_href Demo.host;
  get_path_links := get_path_links Demo.host;
|}.

(** ** How an inner path is written *)

(** [sep.join(parts)] for a one-character separator. *)
Fixpoint join (sep : ascii) (parts : list str) : str :=
  match parts with
  | [] => []
  | [p] => p
  | p :: rest => p ++ sep :: join sep rest
  end.

(** A segment as it stands between two [!] of an inner path: some
    slashes, then the name of the entry. *)
Definition padded (ks : nat * str) : str := replicate ks.1 "/"%char ++ ks.2.

(** * Facts about the matcher *)

Module ReFacts.
Import ReSpec.

(** The matched text of a group is recovered from the two lengths. *)
Lemma take_consumed (a s : str) :
  take (length (a ++ s) - length s) (a ++ s) = a.
Proof.
  rewrite length_app.
  replace (length a + length s - length s)%nat with (length a) by lia.
  apply take_app_length.
Qed.

Lemma exec_lit_chars (l s : str) caps k :
  exec (lit_chars l) (l ++ s) caps k = k s caps.
Proof.
  induction l as [|c l IH]; simpl; [done|].
  rewrite bool_decide_true by done. apply IH.
Qed.

Lemma exec_lit_chars_fail (l s : str) caps k :
  ¬ l `prefix_of` s -> exec (lit_chars l) s caps k = None.
Proof.
  revert s. induction l as [|c l IH]; intros s Hn; simpl.
  - destruct Hn. apply prefix_nil.
  - destruct s as [|c' s]; [done|].
    case_bool_decide as Hc; [|done]. subst c'.
    apply IH. intros Hp. apply Hn. by apply prefix_cons.
Qed.

Lemma is_class_NoneOf cs : is_class (NoneOf cs) (not_in cs).
Proof.
  intros [|c s] caps k; simpl; [done|].
  unfold not_in. by destruct (bool_decide (c ∈ cs)).
Qed.

Lemma is_class_Dot : is_class Dot not_newline.
Proof.
  intros [|c s] caps k; simpl; [done|].
  unfold not_newline. by destruct (bool_decide (c = newline)).
Qed.

Lemma star_loop_class r p k n s caps :
  is_class r p -> (length s <= n)%nat ->
  star_loop (exec r) k n s caps = greedy p k s caps.
Proof.
  intros Hr. revert s. induction n as [|n IH]; intros s Hn.
  - destruct s; [done|simpl in Hn; lia].
  - simpl. rewrite Hr. destruct s as [|c s]; [done|].
    simpl. destruct (p c); [|done].
    assert ((length s <? S (length s))%nat = true) as ->
      by (apply Nat.ltb_lt; lia).
    rewrite IH by (simpl in Hn; lia). done.
Qed.

Lemma exec_star_class r p s caps k :
  is_class r p -> exec (Star r) s caps k = greedy p k s caps.
Proof. intros Hr. simpl. by apply star_loop_class. Qed.

Lemma greedy_stops p k s caps :
  stops p s -> greedy p k s caps = k s caps.
Proof. destruct s as [|c s]; simpl; [done|]. by intros ->. Qed.

Lemma greedy_app p k a s caps :
  all_in p a ->
  greedy p k (a ++ s) caps =
  match greedy p k s caps with
  | Some res => Some res
  | None => backtrack k a s caps
  end.
Proof.
  induction 1 as [|c a Hc _ IH]; simpl.
  - by destruct (greedy p k s caps).
  - rewrite Hc, IH. by destruct (greedy p k s caps).
Qed.

Lemma backtrack_app k a b s caps :
  backtrack k (a ++ b) s caps =
  match backtrack k b s caps with
  | Some res => Some res
  | None => backtrack (fun s' => k s') a (b ++ s) caps
  end.
Proof.
  induction a as [|c a IH]; simpl.
  - by destruct (backtrack k b s caps).
  - rewrite IH, <- (assoc_L (++)).
    by destruct (backtrack k b s caps).
Qed.

Lemma backtrack_none k a s caps :
  (forall a1 c a2, a = a1 ++ c :: a2 -> k (c :: a2 ++ s) caps = None) ->
  backtrack k a s caps = None.
Proof.
  induction a as [|c a IH]; intros Hk; simpl; [done|].
  rewrite IH.
  - apply (Hk [] c a). done.
  - intros a1 c' a2 ->. apply (Hk (c :: a1) c' a2). done.
Qed.

(** The longest repetition wins when the rest of the pattern accepts
    what is left. *)
Lemma greedy_longest p k a s caps res :
  all_in p a -> stops p s -> k s caps = Some res ->
  greedy p k (a ++ s) caps = Some res.
Proof.
  intros Ha Hs Hk. rewrite greedy_app by done.
  by rewrite greedy_stops, Hk.
Qed.

(** Otherwise the repetition settles on the longest prefix after which
    the rest of the pattern succeeds. *)
Lemma greedy_settles p k a b s caps res :
  all_in p (a ++ b) -> stops p s ->
  k s caps = None ->
  (forall b1 c b2, b = b1 ++ c :: b2 -> b1 <> [] ->
                   k (c :: b2 ++ s) caps = None) ->
  k (b ++ s) caps = Some res -> b <> [] ->
  greedy p k (a ++ b ++ s) caps = Some res.
Proof.
  intros Hab Hs Hend Hlater Hhere Hb.
  rewrite (assoc_L (++)), greedy_app, greedy_stops, Hend by done.
  rewrite backtrack_app.
  destruct b as [|c b]; [done|]. simpl.
  rewrite backtrack_none.
  - simpl in Hhere. by rewrite Hhere.
  - intros b1 c' b2 ->. apply (Hlater (c :: b1) c' b2); done.
Qed.

(** Stages of a pattern, each followed by the rest [R] of it. *)

Lemma exec_seq r R s caps k :
  exec (r ⋅ R) s caps k = exec r s caps (fun s' caps' => exec R s' caps' k).
Proof. done. Qed.

Lemma exec_group i r R s caps k :
  exec (Group i r ⋅ R) s caps k =
  exec r s caps
    (fun s' caps' =>
       exec R s' (<[i := Some (take (length s - length s') s)]> caps') k).
Proof. done. Qed.

Lemma lit_then l R s caps k :
  exec (lit_chars l ⋅ R) (l ++ s) caps k = exec R s caps k.
Proof. rewrite exec_seq. apply exec_lit_chars. Qed.

Lemma lit_then_fail l R s caps k :
  ¬ l `prefix_of` s -> exec (lit_chars l ⋅ R) s caps k = None.
Proof. intros. rewrite exec_seq. by apply exec_lit_chars_fail. Qed.

Lemma opt_taken r R s caps k res :
  exec (r ⋅ R) s caps k = Some res ->
  exec (Opt r ⋅ R) s caps k = Some res.
Proof. unfold Opt. simpl. by intros ->. Qed.

Lemma opt_skipped r R s caps k :
  exec (r ⋅ R) s caps k = None ->
  exec (Opt r ⋅ R) s caps k = exec R s caps k.
Proof. unfold Opt. simpl. by intros ->. Qed.

Lemma plus_longest r p a s caps k res :
  is_class r p -> a <> [] -> all_in p a -> stops p s ->
  k s caps = Some res ->
  exec (Plus r) (a ++ s) caps k = Some res.
Proof.
  intros Hr Ha Hp Hs Hk. destruct a as [|c a]; [done|].
  unfold Plus. rewrite exec_seq, Hr. cbn [app].
  inversion Hp as [|? ? Hc Hp']; subst. rewrite Hc.
  rewrite (exec_star_class _ p) by done.
  by apply greedy_longest.
Qed.

Lemma group_lit_plus_longest i l r p R a s caps k res :
  is_class r p -> a <> [] -> all_in p a -> stops p s ->
  exec R s (<[i := Some (l ++ a)]> caps) k = Some res ->
  exec (Group i (lit_chars l ⋅ Plus r) ⋅ R) (l ++ a ++ s) caps k = Some res.
Proof.
  intros Hr Ha Hp Hs Hk.
  rewrite exec_group, lit_then.
  apply (plus_longest r p); [done..|].
  by rewrite (assoc_L (++)), take_consumed.
Qed.

Lemma group_plus_longest i r p R a s caps k res :
  is_class r p -> a <> [] -> all_in p a -> stops p s ->
  exec R s (<[i := Some a]> caps) k = Some res ->
  exec (Group i (Plus r) ⋅ R) (a ++ s) caps k = Some res.
Proof.
  intros Hr Ha Hp Hs Hk.
  rewrite exec_group.
  apply (plus_longest r p); [done..|].
  by rewrite take_consumed.
Qed.

Lemma group_star_settles i r p R a b s caps k res :
  is_class r p -> all_in p (a ++ b) -> stops p s -> b <> [] ->
  (forall caps', exec R s caps' k = None) ->
  (forall b1 c b2 caps', b = b1 ++ c :: b2 -> b1 <> [] ->
                         exec R (c :: b2 ++ s) caps' k = None) ->
  exec R (b ++ s) (<[i := Some a]> caps) k = Some res ->
  exec (Group i (Star r) ⋅ R) (a ++ b ++ s) caps k = Some res.
Proof.
  intros Hr Hp Hs Hb Hend Hlater Hhere.
  rewrite exec_group, (exec_star_class _ p) by done.
  apply greedy_settles; [done..| | |done].
  - intros b1 c b2 Hb12 Hb1. by apply (Hlater b1).
  - by rewrite take_consumed.
Qed.

Lemma star_lit_longest l j R s caps k res :
  l <> [] -> ¬ l `prefix_of` s ->
  exec R s caps k = Some res ->
  exec (Star (lit_chars l) ⋅ R) (mjoin (replicate j l) ++ s) caps k
  = Some res.
Proof.
  intros Hl Hs Hk. rewrite exec_seq. cbn [exec].
  assert (forall n, (length (mjoin (replicate j l) ++ s) <= n)%nat ->
            star_loop (exec (lit_chars l))
              (fun s' caps' => exec R s' caps' k) n
              (mjoin (replicate j l) ++ s) caps = Some res) as H;
    [|by apply H].
  induction j as [|j IH]; intros n Hn.
  - cbn [replicate mjoin list_join app].
    destruct n as [|n]; simpl; [done|].
    by rewrite exec_lit_chars_fail.
  - change (mjoin (replicate (S j) l)) with (l ++ mjoin (replicate j l))
      in *.
    rewrite <- (assoc_L (++)) in *. rewrite length_app in Hn.
    destruct l as [|c l]; [done|].
    change (length (c :: l)) with (S (length l)) in Hn.
    destruct n as [|n]; [lia|].
    cbn [star_loop]. rewrite exec_lit_chars.
    match goal with
    | |- context [Nat.ltb ?x ?y] =>
        replace (Nat.ltb x y) with true
          by (symmetry; apply Nat.ltb_lt; rewrite (length_app (c :: l));
              change (length (c :: l)) with (S (length l)); lia)
    end.
    rewrite IH; [done|]. lia.
Qed.

Lemma star_lit_none l j R s caps k :
  l <> [] -> ¬ l `prefix_of` s ->
  (forall i, exec R (mjoin (replicate i l) ++ s) caps k = None) ->
  exec (Star (lit_chars l) ⋅ R) (mjoin (replicate j l) ++ s) caps k = None.
Proof.
  intros Hl Hs HR. rewrite exec_seq. cbn [exec].
  assert (forall n,
            star_loop (exec (lit_chars l))
              (fun s' caps' => exec R s' caps' k) n
              (mjoin (replicate j l) ++ s) caps = None) as H;
    [|by apply H].
  induction j as [|j IH]; intros n.
  - destruct n as [|n]; cbn [star_loop]; [apply (HR 0%nat)|].
    rewrite exec_lit_chars_fail by done. apply (HR 0%nat).
  - destruct n as [|n]; cbn [star_loop]; [apply (HR (S j))|].
    change (mjoin (replicate (S j) l)) with (l ++ mjoin (replicate j l)).
    rewrite <- (assoc_L (++)), exec_lit_chars.
    rewrite IH. destruct (_ <? _)%nat.
    + rewrite (assoc_L (++)). apply (HR (S j)).
    + rewrite (assoc_L (++)). apply (HR (S j)).
Qed.

End ReFacts.

Module MatchFacts.
Import ReSpec ReFacts.

Lemma all_in_not_in cs (a : str) :
  (forall c, c ∈ cs -> c ∉ a) -> all_in (not_in cs) a.
Proof.
  intros H. apply Forall_forall. intros c Hc. unfold not_in.
  rewrite bool_decide_false; [done|]. intros Hcs. by apply (H c).
Qed.

Lemma all_in_not_newline (a : str) :
  newline ∉ a -> all_in not_newline a.
Proof.
  intros H. apply Forall_forall. intros c Hc. unfold not_newline.
  rewrite bool_decide_false; [done|]. by intros ->.
Qed.

Ltac not_prefix :=
  let x := fresh in let Hx := fresh in
  intros [x Hx]; simpl in Hx; discriminate.

Lemma zip_prefix_then raw j R s caps k res :
  ¬ u "/zip" `prefix_of` s ->
  exec R s (with_raw raw caps) k = Some res ->
  exec (lit "/" ⋅ Opt (Group 0 (lit "raw-")) ⋅ lit "zip"
        ⋅ Star (lit "/zip") ⋅ R) (zip_prefix raw j ++ s) caps k = Some res.
Proof.
  intros Hs HR. unfold zip_prefix, lit.
  rewrite <- !(assoc_L (++)), lit_then.
  destruct raw; simpl with_raw in HR.
  - apply opt_taken. rewrite exec_group, exec_lit_chars, take_consumed.
    rewrite lit_then. by apply star_lit_longest.
  - rewrite opt_skipped.
    + cbn [app]. rewrite lit_then. by apply star_lit_longest.
    + rewrite exec_group. apply exec_lit_chars_fail. not_prefix.
Qed.

Lemma attachment_tail_inner inner caps :
  (forall x, inner = Some x -> x <> [] /\ newline ∉ x) ->
  exec attachment_tail (inner_suffix inner) caps (fun _ c => Some c)
  = Some (match inner with
          | Some x => <[4%nat := Some (u "!/" ++ x)]> caps
          | None => caps
          end).
Proof.
  intros Hin. unfold attachment_tail. destruct inner as [x|]; unfold inner_suffix.
  - destruct (Hin x eq_refl) as [Hx Hnl].
    apply opt_taken. unfold lit.
    rewrite <- (app_nil_r x) at 1.
    apply (group_lit_plus_longest _ _ _ not_newline);
      [apply is_class_Dot|done|by apply all_in_not_newline|done|].
    done.
  - done.
Qed.

Lemma stops_inner_suffix inner cs :
  "!"%char ∈ cs -> stops (not_in cs) (inner_suffix inner).
Proof.
  intros H. destruct inner; simpl; [|done].
  unfold not_in. by rewrite bool_decide_true.
Qed.

Theorem attachment_groups raw j realm0 rid archive inner :
  realm0 <> [] -> "/"%char ∉ realm0 ->
  "!"%char ∉ rid ->
  archive <> [] -> "/"%char ∉ archive -> "!"%char ∉ archive ->
  (forall x, inner = Some x -> x <> [] /\ newline ∉ x) ->
  re_match 6 re_attachment
    (zip_prefix raw j ++ u "/attachment/" ++ realm0 ++ u "/" ++ rid
     ++ u "/" ++ archive ++ inner_suffix inner)
  = Some [raw_flag raw; Some realm0; Some rid; Some archive;
          (fun x => u "!/" ++ x) <$> inner; None].
Proof.
  intros Hr0 Hr1 Hi Ha0 Ha1 Ha2 Hin.
  unfold re_match, re_attachment.
  apply zip_prefix_then; [not_prefix|].
  unfold lit. rewrite lit_then.
  apply (group_plus_longest _ _ (not_in (u "/")));
    [apply is_class_NoneOf|done| |done|].
  { apply all_in_not_in. intros c ->%list_elem_of_singleton. done. }
  rewrite lit_then.
  change (u "/" ++ archive ++ inner_suffix inner)
    with ((u "/" ++ archive) ++ inner_suffix inner).
  apply (group_star_settles _ _ (not_in (u "!")));
    [apply is_class_NoneOf| | |done| | |].
  - apply all_in_not_in. intros c ->%list_elem_of_singleton.
    rewrite !elem_of_app. intros [?|[H|?]]; try done.
    by apply list_elem_of_singleton in H.
  - apply stops_inner_suffix. by apply list_elem_of_singleton.
  - intros caps'. apply lit_then_fail.
    destruct inner; not_prefix.
  - intros b1 c b2 caps' Hb Hb1. apply lit_then_fail.
    destruct b1 as [|c1 b1]; [done|]. simplify_eq/=.
    intros [x Hx]. simplify_eq/=.
    apply Ha1. rewrite elem_of_app. right. left.
  - rewrite <- (assoc_L (++)), lit_then.
    apply (group_plus_longest _ _ (not_in (u "/!")));
      [apply is_class_NoneOf|done| | |].
    + apply all_in_not_in. intros c Hc.
      apply elem_of_cons in Hc as [->|Hc]; [done|].
      by apply list_elem_of_singleton in Hc as ->.
    + apply stops_inner_suffix. right. left.
    + change (exec attachment_tail (inner_suffix inner)
                (<[3%nat := Some archive]>
                   (<[2%nat := Some rid]>
                      (<[1%nat := Some realm0]>
                         (with_raw raw (replicate 6 None)))))
                (fun _ c => Some c) = Some
                  [raw_flag raw; Some realm0; Some rid; Some archive;
                   (fun x => u "!/" ++ x) <$> inner; None]).
      rewrite attachment_tail_inner by done.
      by destruct raw, inner.
Qed.

Lemma browser_tail_inner inner caps :
  browser_inner_ok inner ->
  exec browser_tail (browser_suffix inner) caps (fun _ c => Some c)
  = Some (match inner with
          | None => caps
          | Some (x, None) => <[3%nat := Some (u "!/" ++ x)]> caps
          | Some (x, Some r) =>
              <[4%nat := Some (u "@" ++ r)]>
                (<[3%nat := Some (u "!/" ++ x)]> caps)
          end).
Proof.
  unfold browser_tail, browser_inner_ok, browser_suffix, lit.
  destruct inner as [[x [r|]]|].
  - intros (Hx & Hat & Hr & Hnl).
    apply opt_taken.
    apply (group_lit_plus_longest _ _ _ (not_in (u "@")));
      [apply is_class_NoneOf|done| |by compute|].
    { apply all_in_not_in. by intros c ->%list_elem_of_singleton. }
    apply opt_taken.
    rewrite <- (app_nil_r r) at 1.
    apply (group_lit_plus_longest _ _ _ not_newline);
      [apply is_class_Dot|done|by apply all_in_not_newline|done|].
    done.
  - intros (Hx & Hat & _).
    apply opt_taken.
    rewrite <- (app_nil_r x) at 1.
    apply (group_lit_plus_longest _ _ _ (not_in (u "@")));
      [apply is_class_NoneOf|done| |done|].
    { apply all_in_not_in. by intros c ->%list_elem_of_singleton. }
    done.
  - done.
Qed.

Lemma stops_browser_suffix inner :
  stops (not_in (u "!")) (browser_suffix inner).
Proof. by destruct inner as [[x [r|]]|]. Qed.

Lemma browser_realm_then realm0 R s caps k res :
  realm0 ∈ browser_realms ->
  exec R s (<[1%nat := Some realm0]> caps) k = Some res ->
  exec (Group 1 (Alt (lit "export") (Alt (lit "browser") (lit "file")))
        ⋅ R) (realm0 ++ s) caps k = Some res.
Proof.
  intros Hrealm HR. rewrite exec_group. cbn [exec]. unfold lit.
  unfold browser_realms in Hrealm.
  rewrite !elem_of_cons, elem_of_nil in Hrealm.
  destruct Hrealm as [->|[->|[->|[]]]].
  - by rewrite exec_lit_chars, take_consumed, HR.
  - rewrite exec_lit_chars_fail by not_prefix.
    by rewrite exec_lit_chars, take_consumed, HR.
  - rewrite !exec_lit_chars_fail by not_prefix.
    by rewrite exec_lit_chars, take_consumed, HR.
Qed.

Theorem browser_groups raw j realm0 p inner :
  realm0 ∈ browser_realms ->
  p <> [] -> "!"%char ∉ p ->
  browser_inner_ok inner ->
  re_match 5 re_browser
    (zip_prefix raw j ++ u "/" ++ realm0 ++ u "/" ++ p
     ++ browser_suffix inner)
  = Some [raw_flag raw; Some realm0; Some p;
          match inner with
          | Some (x, _) => Some (u "!/" ++ x)
          | None => None
          end;
          match inner with
          | Some (_, Some r) => Some (u "@" ++ r)
          | _ => None
          end].
Proof.
  intros Hrealm Hp0 Hp1 Hin.
  unfold re_match, re_browser.
  apply zip_prefix_then.
  { unfold browser_realms in Hrealm.
    rewrite !elem_of_cons, elem_of_nil in Hrealm.
    destruct Hrealm as [->|[->|[->|[]]]]; not_prefix. }
  unfold lit at 1. rewrite lit_then.
  apply browser_realm_then; [done|].
  unfold lit at 1. rewrite lit_then.
  apply (group_plus_longest _ _ (not_in (u "!")));
    [apply is_class_NoneOf|done| |apply stops_browser_suffix|].
  { apply all_in_not_in. by intros c ->%list_elem_of_singleton. }
  change (exec browser_tail (browser_suffix inner)
            (<[2%nat := Some p]>
               (<[1%nat := Some realm0]>
                  (with_raw raw (replicate 5 None))))
            (fun _ c => Some c) = Some
              [raw_flag raw; Some realm0; Some p;
               match inner with
               | Some (x, _) => Some (u "!/" ++ x)
               | None => None
               end;
               match inner with
               | Some (_, Some r) => Some (u "@" ++ r)
               | _ => None
               end]).
  rewrite browser_tail_inner by done.
  by destruct raw, inner as [[x [r|]]|].
Qed.

(** The matcher on paths whose groups were read off Python's [re]. *)
Example attachment_groups_nested :
  re_match 6 re_attachment (u "/raw-zip/zip/attachment/ticket/1/2/a.zip")
  = Some [Some (u "raw-"); Some (u "ticket"); Some (u "1/2");
          Some (u "a.zip"); None; None].
Proof. reflexivity. Qed.

Example attachment_groups_at :
  re_match 6 re_attachment (u "/zip/attachment/t/1/a@b")
  = Some [None; Some (u "t"); Some (u "1"); Some (u "a@b"); None; None].
Proof. reflexivity. Qed.

Example attachment_groups_backtrack :
  re_match 6 re_attachment (u "/zip/attachment/t/1/a@b!x")
  = Some [None; Some (u "t"); Some (u "1"); Some (u "a"); None;
          Some (u "@b!x")].
Proof. reflexivity. Qed.

Example attachment_groups_newline :
  re_match 6 re_attachment (u "/zip/attachment/t/1/a!/b" ++ [newline])
  = Some [None; Some (u "t"); Some (u "1"); Some (u "a");
          Some (u "!/b"); None].
Proof. reflexivity. Qed.

Example browser_groups_rev :
  re_match 5 re_browser (u "/zip/browser/trunk/a.zip!/foo@3")
  = Some [None; Some (u "browser"); Some (u "trunk/a.zip");
          Some (u "!/foo"); Some (u "@3")].
Proof. reflexivity. Qed.

(** Without an inner path the text after [@] stays in the path. *)
Example browser_groups_rev_in_path :
  re_match 5 re_browser (u "/zip/browser/trunk/a.zip@3")
  = Some [None; Some (u "browser"); Some (u "trunk/a.zip@3"); None; None].
Proof. reflexivity. Qed.

Example browser_groups_other_realm :
  re_match 5 re_browser (u "/zip/files/a.zip") = None.
Proof. reflexivity. Qed.

(** A repository path is never taken for an attachment path. *)
Lemma attachment_not_browser raw j realm0 rest :
  realm0 ∈ browser_realms ->
  re_match 6 re_attachment (zip_prefix raw j ++ u "/" ++ realm0 ++ rest)
  = None.
Proof.
  intros Hrealm. unfold re_match, re_attachment, zip_prefix, lit.
  rewrite <- !(assoc_L (++)), lit_then.
  assert (forall s caps,
            s = u "zip" ++ mjoin (replicate j (u "/zip")) ++ u "/"
                ++ realm0 ++ rest ->
            exec (lit_chars (u "zip") ⋅ Star (lit_chars (u "/zip"))
                  ⋅ lit_chars (u "/attachment/")
                  ⋅ Group 1 (Plus (NoneOf (u "/"))) ⋅ lit_chars (u "/")
                  ⋅ Group 2 (Star (NoneOf (u "!"))) ⋅ lit_chars (u "/")
                  ⋅ Group 3 (Plus (NoneOf (u "/!")))
                  ⋅ Opt (Group 4 (lit_chars (u "!/") ⋅ Plus Dot))
                  ⋅ Opt (Group 5 (lit_chars (u "@") ⋅ Plus Dot)) ⋅ Eos)
                 s caps (fun _ c => Some c) = None) as Hzip.
  { intros s caps ->. rewrite lit_then.
    unfold browser_realms in Hrealm.
    rewrite !elem_of_cons, elem_of_nil in Hrealm.
    apply star_lit_none; [done| |].
    - destruct Hrealm as [->|[->|[->|[]]]]; not_prefix.
    - intros i. apply lit_then_fail. destruct i as [|i].
      + destruct Hrealm as [->|[->|[->|[]]]]; not_prefix.
      + not_prefix. }
  destruct raw.
  - rewrite opt_skipped.
    + apply lit_then_fail. not_prefix.
    + rewrite exec_group, exec_lit_chars. by apply Hzip.
  - rewrite opt_skipped.
    + by apply Hzip.
    + rewrite exec_group. apply exec_lit_chars_fail. not_prefix.
Qed.

End MatchFacts.

Import ZipRenderer.

Lemma store_rev_at (r : str) (a : gmap string pyval) :
  store_rev (Some (u "@" ++ r)) a = <["rev" := PStr r]> a.
Proof. done. Qed.

(** C1 (amended).  [match_request] decodes composite paths.  For a path
    [/(raw-)?zip(/zip)*/attachment/<realm>/<id>/<archive>], optionally
    followed by [!/<inner-path>], it returns True and stores the [raw-]
    flag under 'format', the whole [!/<inner-path>] suffix up to the end of
    the path (or None) under 'path' and
    [Resource(realm, id).child('attachment', archive)] under 'attachment';
    text after an [@] belongs to the inner path (or to the archive name)
    and 'rev' is left alone.  For a path
    [/(raw-)?zip(/zip)*/(export|browser|file)/<path>], optionally followed
    by [!/<inner-path>] and then [@<rev>], it returns True and stores
    [Resource(realm, path)] under 'browser', the [!/<inner-path>] part
    under 'path' and the revision without its [@] under 'rev'.  Every
    matching path gives True, and a path matching neither pattern gives
    None and leaves the request as it was. *)
Theorem C1_match_request_decodes :
  (forall req raw j realm0 rid archive inner,
      realm0 <> [] -> "/"%char ∉ realm0 -> "!"%char ∉ rid ->
      archive <> [] -> "/"%char ∉ archive -> "!"%char ∉ archive ->
      (forall x, inner = Some x -> x <> [] /\ newline ∉ x) ->
      path_info req
      = zip_prefix raw j ++ u "/attachment/" ++ realm0 ++ u "/" ++ rid
        ++ u "/" ++ archive ++ inner_suffix inner ->
      match_request req
      = (PTrue,
         set_args req
           (<["attachment" :=
               PRes (child (Resource_ realm0 rid) (u "attachment")
                           archive None)]>
              (<["path" := of_opt ((fun x => u "!/" ++ x) <$> inner)]>
                 (<["format" := of_opt (raw_flag raw)]> (args req))))))
  /\
  (forall req raw j realm0 p inner,
      realm0 ∈ browser_realms -> p <> [] -> "!"%char ∉ p ->
      browser_inner_ok inner ->
      path_info req
      = zip_prefix raw j ++ u "/" ++ realm0 ++ u "/" ++ p
        ++ browser_suffix inner ->
      match_request req
      = (PTrue,
         set_args req
           (let a :=
              <["browser" := PRes (Resource_ realm0 p)]>
                (<["path" := of_opt (match inner with
                                     | Some (x, _) => Some (u "!/" ++ x)
                                     | None => None
                                     end)]>
                   (<["format" := of_opt (raw_flag raw)]> (args req))) in
            match inner with
            | Some (_, Some r) => <["rev" := PStr r]> a
            | _ => a
            end)))
  /\
  (forall req,
      is_Some (re_match 6 re_attachment (path_info req)) \/
      is_Some (re_match 5 re_browser (path_info req)) ->
      (match_request req).1 = PTrue)
  /\
  (forall req,
      re_match 6 re_attachment (path_info req) = None ->
      re_match 5 re_browser (path_info req) = None ->
      match_request req = (PNone, req) /\ truthy PNone = false).
Proof.
  split; [|split; [|split]].
  - intros req raw j realm0 rid archive inner ? ? ? ? ? ? ? Hpath.
    unfold match_request.
    rewrite Hpath, MatchFacts.attachment_groups by done.
    by destruct raw, inner.
  - intros req raw j realm0 p inner Hrealm ? ? Hin Hpath.
    unfold match_request. rewrite Hpath.
    rewrite MatchFacts.attachment_not_browser by done.
    rewrite MatchFacts.browser_groups by done.
    destruct inner as [[x [r|]]|]; cbn [Re.group lookup list_lookup];
      by destruct raw.
  - intros req [[g Hg]|[g Hg]]; unfold match_request.
    + by rewrite Hg.
    + rewrite Hg. by destruct (re_match 6 re_attachment (path_info req)).
  - intros req H1 H2. unfold match_request. by rewrite H1, H2.
Qed.

(** C1 as stated fails: the path below is an attachment path followed by
    [!/foo] and [@3], yet 'path' receives [!/foo@3] and no 'rev' is
    stored. *)
Lemma C1_rev_not_decoded :
  let req := request_for "/zip/attachment/ticket/1/a.zip!/foo@3" in
  path_info req
  = u "/zip/attachment/" ++ u "ticket" ++ u "/" ++ u "1" ++ u "/"
    ++ u "a.zip" ++ u "!/" ++ u "foo" ++ u "@" ++ u "3"
  /\ (match_request req).1 = PTrue
  /\ args (match_request req).2 !! "path" = Some (PStr (u "!/foo@3"))
  /\ args (match_request req).2 !! "path" <> Some (PStr (u "!/foo"))
  /\ args (match_request req).2 !! "rev" = None
  /\ args (match_request req).2 !! "rev" <> Some (PStr (u "3")).
Proof. vm_compute. repeat split; congruence. Qed.

Lemma C1_witness :
  match_request
    (request_for "/raw-zip/zip/attachment/wiki/Start/page/a.zip!/dir/b@1")
  = (PTrue,
     set_args
       (request_for "/raw-zip/zip/attachment/wiki/Start/page/a.zip!/dir/b@1")
       (<["attachment" :=
           PRes (child (Resource_ (u "wiki") (u "Start/page"))
                       (u "attachment") (u "a.zip") None)]>
          (<["path" := PStr (u "!/dir/b@1")]>
             (<["format" := PStr (u "raw-")]> ∅))))
  /\ match_request (request_for "/zip/browser/trunk/a.zip!/foo@3")
     = (PTrue,
        set_args (request_for "/zip/browser/trunk/a.zip!/foo@3")
          (<["rev" := PStr (u "3")]>
             (<["browser" := PRes (Resource_ (u "browser") (u "trunk/a.zip"))]>
                (<["path" := PStr (u "!/foo")]>
                   (<["format" := PNone]> ∅)))))
  /\ (match_request (request_for "/zip/attachment/t/1/a")).1 = PTrue
  /\ match_request (request_for "/timeline")
     = (PNone, request_for "/timeline").
Proof.
  destruct C1_match_request_decodes as (Hatt & Hbrowser & Htrue & Hnone).
  split; [|split; [|split]].
  - rewrite (Hatt _ true 1%nat (u "wiki") (u "Start/page") (u "a.zip")
               (Some (u "dir/b@1"))); try reflexivity; try compute_done.
    intros x [= <-]. split; compute_done.
  - rewrite (Hbrowser _ false 0%nat (u "browser") (u "trunk/a.zip")
               (Some (u "foo", Some (u "3")))); try reflexivity;
      compute_done.
  - apply Htrue. left. vm_compute. eauto.
  - apply Hnone; reflexivity.
Defined.

(** * [process_request] *)

Module ProcessFacts.

(** The first lines, up to the choice of the source. *)
Lemma process_request_proceeds h req n p rev :
  max_preview_size h = Ok n ->
  args req !! "path" = Some p ->
  truthy p = true \/ is_xhr req = true ->
  normalize_rev (arg req "rev") = Ok rev ->
  process_request h req
  = bind (open_source h (arg req "attachment") (arg req "browser")
            (py_or (arg req "attachment") (arg req "browser")) rev)
         (fun '(attachment, blocals, fileobj0) =>
            serve_entry h (is_xhr req) attachment blocals
              (arg req "browser")
              (py_or (arg req "attachment") (arg req "browser"))
              rev fileobj0)
         req.
Proof.
  intros Hn Hp Hgo Hrev.
  unfold process_request, bind at 1 2 3 4 5, lift at 1, args_get at 1 2,
    ask at 1, args_item at 1.
  rewrite Hn, Hp.
  assert (negb (truthy p) && negb (is_xhr req) = false) as ->.
  { destruct Hgo as [-> | ->]; [done|]. apply andb_false_r. }
  unfold bind at 1 2, args_get, lift. by rewrite Hrev.
Qed.

(** An attachment request, up to the loop over the inner path. *)
Lemma process_request_attachment h req res a name rev f0 :
  attachment_opened h req res a name rev f0 ->
  name <> [] ->
  process_request h req
  = match for_elements h name (elements_of name) f0 None with
    | Raise e => (Raise e, req)
    | Ok (f, last) =>
        answer h (is_xhr req) (Some a) None (arg req "browser")
          (PRes res) rev name f last
          (web_context req (Some (child res (u "zip") name rev))) req
    end.
Proof.
  intros ([n Hn] & Hres & (p & Hp & Hname & Hgo) & Hrev & Hperm & Ha & Hf)
         Hne.
  rewrite (process_request_proceeds h req n p rev) by done.
  rewrite Hres. change (py_or (PRes res) (arg req "browser")) with (PRes res).
  unfold bind at 1, open_source. cbn [truthy].
  unfold bind at 1 2 3, ask at 1, lift at 1 2 3, ret at 1.
  rewrite Hperm, Ha, Hf.
  unfold serve_entry, bind at 1 2 3, args_item at 1, lift at 1, ret at 1.
  rewrite Hp, Hname.
  assert (truthy (PStr name) = true) as ->
    by (unfold truthy; by rewrite bool_decide_false).
  unfold bind at 1 2, lift at 1.
  by destruct (for_elements h name (elements_of name) f0 None)
    as [[f last]|e].
Qed.

Lemma for_elements_app h name pre post f last :
  for_elements h name (pre ++ post) f last
  = match for_elements h name pre f last with
    | Ok (f', last') => for_elements h name post f' last'
    | Raise e => Raise e
    end.
Proof.
  revert f last. induction pre as [|seg pre IH]; intros f last.
  - simpl. by destruct (for_elements h name post f last) as [[]|].
  - simpl. destruct (ZipFile_ h f) as [z|e]; [|done].
    by destruct (open z seg) as [f'|[]].
Qed.

(** The loop follows [nested_entry]. *)
Lemma for_elements_nested h name segs f last g :
  nested_entry h f segs = Some g ->
  exists last', for_elements h name segs f last = Ok (g, last').
Proof.
  revert f last. induction segs as [|seg segs IH]; intros f last; simpl.
  - intros [= ->]. eauto.
  - destruct (ZipFile_ h f) as [z|e]; [|done].
    destruct (open z seg) as [f'|e]; [|done]. apply IH.
Qed.

Lemma nested_entry_app h f pre post :
  nested_entry h f (pre ++ post)
  = nested_entry h f pre ≫= fun f' => nested_entry h f' post.
Proof.
  revert f. induction pre as [|seg pre IH]; intros f; [done|].
  simpl. destruct (ZipFile_ h f) as [z|e]; [|done].
  destruct (open z seg) as [f'|e]; [|done]. apply IH.
Qed.

Lemma split_plain s rest :
  "!"%char ∉ s ->
  PyStr.split "!" (s ++ "!"%char :: rest) = s :: PyStr.split "!" rest.
Proof.
  induction s as [|c s IH]; intros Hs; simpl.
  - done.
  - apply not_elem_of_cons in Hs as [Hc Hs].
    rewrite bool_decide_false by done. by rewrite IH.
Qed.

Lemma split_plain_end s :
  "!"%char ∉ s -> PyStr.split "!" s = [s].
Proof.
  induction s as [|c s IH]; intros Hs; simpl; [done|].
  apply not_elem_of_cons in Hs as [Hc Hs].
  rewrite bool_decide_false by done. by rewrite IH.
Qed.

Lemma lstrip_plain s :
  head s <> Some "/"%char -> PyStr.lstrip "/" s = s.
Proof.
  destruct s as [|c s]; [done|]. intros Hs. simpl.
  rewrite bool_decide_false; [done|]. intros ->. by apply Hs.
Qed.

Lemma split_inner_path s segments :
  "!"%char ∉ s -> Forall (fun t => "!"%char ∉ t) segments ->
  PyStr.split "!" (s ++ inner_path segments)
  = s :: map (fun t => "/"%char :: t) segments.
Proof.
  intros Hs Hall. revert s Hs.
  induction Hall as [|t segments Ht Hall IH]; intros s Hs.
  - unfold inner_path. simpl. rewrite app_nil_r. by apply split_plain_end.
  - change (inner_path (t :: segments))
      with ("!"%char :: ("/"%char :: t) ++ inner_path segments).
    rewrite split_plain by done. rewrite IH; [done|].
    by apply not_elem_of_cons.
Qed.

(** At any depth, the elements of an inner path are its segments. *)
Lemma elements_of_inner_path segments :
  segments <> [] -> Forall plain_segment segments ->
  elements_of (drop 2 (inner_path segments)) = segments.
Proof.
  intros Hne Hall. destruct segments as [|s segments]; [done|].
  apply Forall_cons in Hall as [[Hs Hh] Hall].
  change (drop 2 (inner_path (s :: segments)))
    with (s ++ inner_path segments).
  unfold elements_of. rewrite split_inner_path.
  - cbn [map]. rewrite lstrip_plain by done. f_equal.
    rewrite map_map. clear Hs Hh Hne.
    induction Hall as [|t segments [_ Ht] _ IH]; [done|].
    cbn [map]. rewrite IH. f_equal. simpl. by apply lstrip_plain.
  - done.
  - eapply Forall_impl; [done|]. by intros t [? _].
Qed.

(** The loop on a well-formed inner path of any depth. *)
Lemma for_elements_inner_path h segments f0 g :
  segments <> [] -> Forall plain_segment segments ->
  nested_entry h f0 segments = Some g ->
  exists last,
    for_elements h (drop 2 (inner_path segments))
      (elements_of (drop 2 (inner_path segments))) f0 None = Ok (g, last).
Proof.
  intros Hne Hall Hg. rewrite elements_of_inner_path by done.
  by apply for_elements_nested.
Qed.

Lemma for_elements_last h name pre e f0 fp z g :
  nested_entry h f0 pre = Some fp ->
  ZipFile_ h fp = Ok z -> open z e = Ok g ->
  for_elements h name (pre ++ [e]) f0 None = Ok (g, Some (z, e)).
Proof.
  intros Hpre Hz Hg. rewrite for_elements_app.
  destruct (for_elements_nested h name pre f0 None fp Hpre) as [l ->].
  simpl. by rewrite Hz, Hg.
Qed.


Lemma replied_nil req : replied req [] (_response req) = req.
Proof. destruct req. unfold replied. simpl. by rewrite app_nil_r. Qed.

Lemma emit_replied e req evs resp :
  emit e (replied req evs resp) = (Ok tt, replied req (evs ++ [e]) resp).
Proof. unfold emit, modify, replied. simpl. by rewrite (assoc_L (++)). Qed.

(** The raw answer, from the entry to [RequestDone]. *)
Lemma raw_response_replied h req zi mime g lm :
  http_date h (date_time zi) = Ok lm ->
  raw_response h zi mime g req
  = (Raise RequestDone,
     if bool_decide (get_header req "If-Modified-Since" = Some lm)
     then replied req not_modified (_response req)
     else replied req (full_reply h zi mime lm) (Some (g, 4096%Z))).
Proof.
  intros Hlm.
  unfold raw_response, bind, lift, ask, emit, set_response, modify, raise,
    ret, replied, not_modified, full_reply, truthy.
  rewrite Hlm. cbn beta iota.
  case_bool_decide as Hc.
  - rewrite bool_decide_true by done. simpl.
    by rewrite <- !(assoc_L (++)).
  - rewrite bool_decide_false by (intros ?; by apply Hc).
    destruct (render_unsafe_content h), mime as [m|]; simpl;
      try destruct (bool_decide (m = [])); simpl;
      by rewrite <- ?(assoc_L (++)).
Qed.

Lemma answer_raw h req att blocals browser res rev name g z e ctx zi data :
  getinfo z e = Ok zi -> peek h g 512 = Ok data ->
  args req !! "format" = Some (PStr (u "raw-")) ->
  answer h false att blocals browser res rev name g (Some (z, e)) ctx req
  = raw_response h zi (sniff h name data) g req.
Proof.
  intros Hzi Hdata Hformat.
  unfold answer, bind at 1 2 3 4, lift at 1 2, args_item at 1, ret at 1.
  by rewrite Hzi, Hdata, Hformat.
Qed.


Lemma elements_of_nonempty name : elements_of name <> [].
Proof.
  unfold elements_of. destruct name as [|c name]; [done|]. simpl.
  case_bool_decide; [done|]. by destruct (PyStr.split "!" name).
Qed.

End ProcessFacts.

(** C2 fails on the code for an archive in the repository.  The inner
    path [!/inner.zip!/a.txt] is not empty and names an entry two levels
    down in the content of the node, yet [process_request] never reaches
    the loop: after the repository branch has bound [fileobj], the log
    line 190 reads [attachment.resource] while [attachment] is None, and
    the [AttributeError] ends the request, raw or not.  The same path on
    the attachment [a.zip] is walked and streamed. *)
Theorem C2_repository_traversal_raises :
  let req := Demo.request "/zip/browser/trunk/a.zip!/inner.zip!/a.txt" [] in
  let raw := Demo.request "/raw-zip/browser/trunk/a.zip!/inner.zip!/a.txt"
                          [] in
  args req !! "path" = Some (PStr (u "!/inner.zip!/a.txt"))
  /\ elements_of (u "inner.zip!/a.txt") = [u "inner.zip"; u "a.txt"]
  /\ nested_entry Demo.host (get_content Demo.the_node)
                  [u "inner.zip"; u "a.txt"] = Some (u "abc")
  /\ process_request Demo.host req = (Raise (AttributeError "resource"), req)
  /\ process_request Demo.host raw = (Raise (AttributeError "resource"), raw)
  /\ exists req',
       process_request Demo.host Demo.raw_request = (Raise RequestDone, req')
       /\ _response req' = Some (u "abc", 4096%Z).
Proof.
  intros req raw. repeat split; try (vm_compute; reflexivity).
  eexists. split; vm_compute; reflexivity.
Qed.


(** C7.  The raw answer.  With 'format' equal to [raw-], once the entry
    and its [ZipInfo] are at hand: when [If-Modified-Since] equals the
    HTTP date of the entry's [date_time] the handler sends 304 with
    [Content-Length: 0]; otherwise it sends 200 with
    [Content-Disposition: attachment] exactly when 'render_unsafe_content'
    is off, the sniffed [Content-Type] when there is one, [Content-Length]
    equal to the entry's [file_size] and [Last-Modified] equal to that
    date, and hands the entry to the file wrapper; in both cases it ends
    by raising [RequestDone]. *)
Theorem C7_raw_response h req res a name rev f0 g z e zi data lm :
  attachment_opened h req res a name rev f0 ->
  name <> [] ->
  is_xhr req = false ->
  for_elements h name (elements_of name) f0 None = Ok (g, Some (z, e)) ->
  getinfo z e = Ok zi -> peek h g 512 = Ok data ->
  args req !! "format" = Some (PStr (u "raw-")) ->
  http_date h (date_time zi) = Ok lm ->
  process_request h req
  = (Raise RequestDone,
     if bool_decide (get_header req "If-Modified-Since" = Some lm)
     then replied req not_modified (_response req)
     else replied req (full_reply h zi (sniff h name data) lm)
                  (Some (g, 4096%Z))).
Proof.
  intros Hopen Hname Hxhr Hloop Hzi Hdata Hformat Hlm.
  rewrite (ProcessFacts.process_request_attachment h req res a name rev f0)
    by done.
  rewrite Hloop, Hxhr.
  rewrite (ProcessFacts.answer_raw _ _ _ _ _ _ _ _ _ _ _ _ zi data) by done.
  by apply ProcessFacts.raw_response_replied.
Qed.


(** C4.  A request that reaches [process_request] with neither an
    'attachment' nor a 'browser' resource in [req.args], and with a
    non-empty path or as an XHR request, is answered by
    [TracError('Not Implemented')]. *)
Theorem C4_not_implemented h req n p rev :
  max_preview_size h = Ok n ->
  truthy (arg req "attachment") = false ->
  truthy (arg req "browser") = false ->
  args req !! "path" = Some p ->
  truthy p = true \/ is_xhr req = true ->
  normalize_rev (arg req "rev") = Ok rev ->
  process_request h req = (Raise (TracError (u "Not Implemented")), req).
Proof.
  intros Hn Ha Hb Hp Hgo Hrev.
  rewrite (ProcessFacts.process_request_proceeds h req n p rev) by done.
  unfold bind, open_source. by rewrite Ha, Hb.
Qed.

(** C5.  For a repository request, a path whose repository cannot be
    loaded (a name was resolved but no repository object) and a revision
    that is no changeset ([get_existing_node] raises [NoSuchChangeset])
    both end in [ResourceNotFound]. *)
Theorem C5_repository_errors h req n p rev res :
  max_preview_size h = Ok n ->
  truthy (arg req "attachment") = false ->
  arg req "browser" = PRes res ->
  args req !! "path" = Some p ->
  truthy p = true \/ is_xhr req = true ->
  normalize_rev (arg req "rev") = Ok rev ->
  perm_require h req (PRes res) "FILE_VIEW" = Ok tt ->
  (forall reponame0 path0,
      get_repository_by_path h (id res) = (reponame0, None, path0) ->
      reponame0 <> [] ->
      process_request h req
      = (Raise (ResourceNotFound
                  (Translated "Repository '%(repo)s' not found"
                              [("repo", reponame0)]) None), req))
  /\
  (forall reponame0 repos0 path0 msg,
      get_repository_by_path h (id res) = (reponame0, Some repos0, path0) ->
      get_existing_node h req repos0 path0 rev = Raise (NoSuchChangeset msg) ->
      process_request h req
      = (Raise (ResourceNotFound msg
                  (Some (Translated "Invalid changeset number" []))), req)).
Proof.
  intros Hn Ha Hb Hp Hgo Hrev Hperm.
  rewrite (ProcessFacts.process_request_proceeds h req n p rev) by done.
  rewrite Hb.
  assert (py_or (arg req "attachment") (PRes res) = PRes res) as ->
    by (unfold py_or; by rewrite Ha).
  unfold bind at 1, open_source. rewrite Ha. cbn [truthy].
  unfold bind, ask, lift, raise. rewrite Hperm.
  split.
  - intros reponame0 path0 -> Hname.
    unfold truthy. by rewrite bool_decide_false.
  - intros reponame0 repos0 path0 msg -> Hnode. by rewrite Hnode.
Qed.

Module ListingFacts.

(** What [open_source] can hand on: an attachment without the locals of
    the repository branch, or those locals without an attachment. *)
Lemma open_source_shape h att br res rev req :
  match open_source h att br res rev req with
  | (Ok (Some _, None, _), req') => req' = req
  | (Ok (None, Some _, _), req') => req' = req
  | (Ok _, _) => False
  | (Raise _, _) => True
  end.
Proof.
  unfold open_source, bind, lift, ask, ret, raise.
  destruct (truthy att).
  - destruct (perm_require h req res "ATTACHMENT_VIEW") as [[]|]; [|done].
    destruct (Attachment_ h att) as [a|]; [|done].
    by destruct (attachment_open h a).
  - destruct (truthy br); [|done].
    destruct (perm_require h req res "FILE_VIEW") as [[]|]; [|done].
    destruct res as [| | |r]; try done.
    destruct (get_repository_by_path h (id r)) as [[reponame0 [repos0|]] p].
    + by destruct (get_existing_node h req repos0 p rev) as [|[]].
    + by destruct (truthy (PStr reponame0)).
Qed.

(** With the locals of the repository branch missing, the listing stops
    at its first line or at [reponame]. *)
Lemma xhr_listing_unbound h f req :
  exists e, xhr_listing h None f req = (Raise e, req).
Proof.
  unfold xhr_listing, bind, lift, raise.
  destruct (ZipFile_ h f); eauto.
Qed.

Lemma serve_entry_xhr h att bl br res rev f req :
  att = None \/ bl = None ->
  exists e, serve_entry h true att bl br res rev f req = (Raise e, req).
Proof.
  intros Hshape.
  unfold serve_entry, bind at 1 2 3, args_item at 1, lift at 1.
  destruct (args req !! "path") as [p|]; [|by eauto].
  destruct (slice2 p) as [name|]; [|by eauto].
  destruct att as [a|]; [|unfold raise; by eauto].
  destruct Hshape as [?| ->]; [done|].
  unfold ret at 1, bind at 1.
  destruct (truthy (PStr name)).
  - unfold bind at 1 2, lift at 1.
    destruct (for_elements h name (elements_of name) f None)
      as [[f' last]|]; [|by eauto].
    unfold bind, lift, ask, ret.
    destruct (py_child res (u "zip") name rev); [|by eauto].
    apply xhr_listing_unbound.
  - unfold bind, ask, ret. apply xhr_listing_unbound.
Qed.

(** No XHR request is answered with a listing: [process_request] raises
    on every one of them. *)
Lemma xhr_never_returns h req :
  is_xhr req = true ->
  exists e req', process_request h req = (Raise e, req').
Proof.
  intros Hxhr.
  unfold process_request, bind at 1 2 3 4 5, lift at 1, args_get at 1 2,
    ask at 1, args_item at 1.
  destruct (max_preview_size h) as [n|]; [|by eauto].
  destruct (args req !! "path") as [p|]; [|by eauto].
  rewrite Hxhr, andb_false_r.
  unfold bind at 1 2, args_get, lift.
  destruct (normalize_rev (arg req "rev")) as [rev|]; [|by eauto].
  unfold bind at 1.
  pose proof (open_source_shape h (arg req "attachment")
                (arg req "browser")
                (py_or (arg req "attachment") (arg req "browser")) rev req)
    as Hshape.
  destruct (open_source h (arg req "attachment") (arg req "browser")
              (py_or (arg req "attachment") (arg req "browser")) rev req)
    as [[[[[a|] [b|]] f]|e] req']; try done; [subst req'..|by eauto].
  - destruct (serve_entry_xhr h (Some a) None (arg req "browser")
                (py_or (arg req "attachment") (arg req "browser")) rev f req)
      as [e He]; [by right|]. eauto.
  - destruct (serve_entry_xhr h None (Some b) (arg req "browser")
                (py_or (arg req "attachment") (arg req "browser")) rev f req)
      as [e He]; [by left|]. eauto.
Qed.

Lemma open_source_repository h att br res rev req :
  truthy att = false ->
  match open_source h att br res rev req with
  | (Ok (Some _, _, _), _) => False
  | _ => True
  end.
Proof.
  intros Hatt. unfold open_source, bind, lift, ask, ret, raise.
  rewrite Hatt. destruct (truthy br); [|done].
  destruct (perm_require h req res "FILE_VIEW") as [[]|]; [|done].
  destruct res as [| | |r]; try done.
  destruct (get_repository_by_path h (id r)) as [[reponame0 [repos0|]] p].
  - by destruct (get_existing_node h req repos0 p rev) as [|[]].
  - by destruct (truthy (PStr reponame0)).
Qed.

(** Nor is any repository request with an inner path: the log line
    after the branch reads [attachment.resource]. *)
Lemma repository_request_raises h req p :
  truthy (arg req "attachment") = false ->
  args req !! "path" = Some p ->
  truthy p = true \/ is_xhr req = true ->
  exists e req', process_request h req = (Raise e, req').
Proof.
  intros Hatt Hp Hgo.
  destruct (max_preview_size h) as [n|e] eqn:Hn;
    [|unfold process_request, bind, lift; rewrite Hn; by eauto].
  destruct (normalize_rev (arg req "rev")) as [rev|e] eqn:Hrev.
  - rewrite (ProcessFacts.process_request_proceeds h req n p rev) by done.
    unfold bind at 1.
    pose proof (open_source_repository h (arg req "attachment")
                  (arg req "browser")
                  (py_or (arg req "attachment") (arg req "browser")) rev req
                  Hatt) as Hrepo.
    pose proof (open_source_shape h (arg req "attachment")
                  (arg req "browser")
                  (py_or (arg req "attachment") (arg req "browser")) rev req)
      as Hshape.
    destruct (open_source h (arg req "attachment") (arg req "browser")
                (py_or (arg req "attachment") (arg req "browser")) rev req)
      as [[[[[a|] [b|]] f]|e] req']; try done; [subst req'|by eauto].
    unfold serve_entry, bind at 1 2 3, args_item at 1, lift at 1.
    rewrite Hp. destruct (slice2 p) as [name|]; [|by eauto].
    unfold raise. by eauto.
  - unfold process_request, bind at 1 2 3 4 5, lift at 1, args_get at 1 2,
      ask at 1, args_item at 1.
    rewrite Hn, Hp.
    assert (negb (truthy p) && negb (is_xhr req) = false) as ->.
    { destruct Hgo as [-> | ->]; [done|]. apply andb_false_r. }
    unfold bind, args_get, lift. rewrite Hrev. by eauto.
Qed.

(** The comprehension itself keeps the members whose name does not end
    in [/], once each and in order, with their sizes. *)
Lemma dir_entries_members node0 path0 argpath infos p :
  concat_or_empty path0 argpath = Ok p ->
  dir_entries node0 path0 argpath infos
  = Ok (map (fun info =>
               mkDirEntry (filename info) (kind node0) (file_size info)
                 (p ++ u "!/" ++ filename info) PNone (created_rev node0))
            (filter (fun info =>
                       ¬ Is_true (PyStr.endswith (filename info) (u "/")))
                    infos)).
Proof.
  intros Hp. unfold dir_entries. rewrite Hp.
  induction (filter _ infos) as [|info l IH]; [done|].
  cbn [mapM map]. by rewrite IH.
Qed.

End ListingFacts.

(** C10 fails on the code.  An XHR request never gets its listing: for a
    repository path [process_request] stops at the log line that reads
    [attachment.resource] ([attachment] is None there), and for an
    attachment path the listing stops at [reponame], which only the
    repository branch binds. *)
Theorem C10_xhr_listing_raises :
  (process_request Demo.host
     (Demo.request "/zip/browser/trunk/a.zip"
                   [("X-Requested-With", "XMLHttpRequest")])).1
  = Raise (AttributeError "resource")
  /\ (process_request Demo.host
        (Demo.request "/zip/attachment/ticket/1/a.zip"
                      [("X-Requested-With", "XMLHttpRequest")])).1
     = Raise (UnboundLocalError "reponame").
Proof. split; vm_compute; reflexivity. Qed.

(** * The other callbacks *)

(** C6.  The component registers in the four advertised roles: it
    implements the resource-manager, previewer, request-handler and
    wiki-syntax interfaces; its realms are exactly 'zip' and 'raw-zip';
    its quality ratio is 8 for 'application/zip' and
    'application/x-zip-compressed' and 0 for any other mimetype; its link
    resolvers are exactly 'raw-zip' and 'zip', both bound to
    [_format_link]. *)
Theorem C6_registration h :
  (forall i, i ∈ [IResourceManager; IHTMLPreviewRenderer; IRequestHandler;
                   IWikiSyntaxProvider] -> i ∈ implements)
  /\ get_resource_realms = [u "zip"; u "raw-zip"]
  /\ (forall m, m ∈ [u "application/zip"; u "application/x-zip-compressed"] ->
                get_quality_ratio m = 8%Z /\ (0 < get_quality_ratio m)%Z)
  /\ (forall m, m ∉ [u "application/zip"; u "application/x-zip-compressed"] ->
                get_quality_ratio m = 0%Z)
  /\ get_link_resolvers h
     = [(u "raw-zip", _format_link h); (u "zip", _format_link h)].
Proof.
  repeat split.
  - intros i Hi. unfold implements.
    rewrite !elem_of_cons, elem_of_nil in Hi.
    destruct Hi as [->|[->|[->|[->|[]]]]]; repeat constructor.
  - unfold get_quality_ratio. by rewrite bool_decide_true.
  - unfold get_quality_ratio. by rewrite bool_decide_true.
  - intros m Hm. unfold get_quality_ratio. by rewrite bool_decide_false.
Qed.

Lemma C6_witness :
  IRequestHandler ∈ implements
  /\ get_quality_ratio (u "application/zip") = 8%Z
  /\ get_quality_ratio (u "application/x-zip-compressed") = 8%Z
  /\ get_quality_ratio (u "text/plain") = 0%Z.
Proof.
  destruct (C6_registration Demo.host) as (Hi & _ & Hzip & Hother & _).
  split; [|split; [|split]].
  - apply Hi. repeat constructor.
  - apply Hzip. compute_done.
  - apply Hzip. compute_done.
  - apply Hother. compute_done.
Defined.

(** C8.  [get_resource_url] returns None for a resource without a
    parent; for a resource with a parent it builds the URL under the
    prefix 'zip', except that with the keyword argument [format='raw'] the
    prefix is 'raw-zip' and 'format' is taken out of the keyword
    arguments handed to [href]. *)
Theorem C8_resource_url {A} h resource
  (href : str -> str -> gmap string pyval -> A) (kwargs : gmap string pyval) :
  (parent resource = None ->
   get_resource_url h resource href kwargs = Ok None)
  /\
  (forall p url,
      parent resource = Some p ->
      trac_get_resource_url h (PRes (unversioned p)) (mkHref []) = Ok url ->
      let target :=
        unicode_unquote h url ++ u "!/" ++ default [] (id resource) in
      (kwargs !! "format" = Some (PStr (u "raw")) ->
       get_resource_url h resource href kwargs
       = Ok (Some (href (u "raw-zip") target (delete "format" kwargs))))
      /\
      (kwargs !! "format" <> Some (PStr (u "raw")) ->
       get_resource_url h resource href kwargs
       = Ok (Some (href (u "zip") target kwargs)))).
Proof.
  split.
  - intros Hp. unfold get_resource_url. by rewrite Hp.
  - intros p url Hp Hurl target.
    assert (match py_or (of_opt (id resource)) (PStr []) with
            | PStr s => s
            | _ => []
            end = default [] (id resource)) as Hid.
    { destruct (id resource) as [s|]; [|done].
      unfold py_or. simpl. by case_bool_decide; subst. }
    split.
    + intros Hf. unfold get_resource_url. rewrite Hp, Hf. simpl.
      by rewrite Hurl, Hid.
    + intros Hf. unfold get_resource_url. rewrite Hp.
      assert (py_eq_str (default PNone (kwargs !! "format")) (u "raw")
              = false) as ->.
      { destruct (kwargs !! "format") as [[| |s|]|]; try done.
        simpl. apply bool_decide_false. intros ->. by apply Hf. }
      by rewrite Hurl, Hid.
Qed.

(** C9 fails on the code for a resource without parent.
    [Attachment(env, None)] raises nothing, since without a file name it
    fetches nothing; the [path] of the attachment it builds raises
    [TypeError], which is no [ResourceNotFound] and escapes from
    [resource_exists].  [get_resource_url] tests [resource.parent] first
    and answers None for the same resource. *)
Theorem C9_unparented_raises :
  let resource := Resource_ (u "zip") (u "a.txt") in
  parent resource = None
  /\ Attachment_ Demo.host PNone = Ok Demo.unparented_attachment
  /\ path Demo.unparented_attachment = Raise TypeError
  /\ resource_exists Demo.host resource = Raise TypeError
  /\ get_resource_url Demo.host resource
                      (fun prefix p kw => (prefix, p, kw)) ∅ = Ok None.
Proof. repeat split. Qed.

(** * The theorems at work on the small host *)

Ltac by_computation := vm_compute; first [reflexivity | done | eauto].

Lemma demo_opened (p : string) name :
  let req := Demo.request p [] in
  arg req "attachment" = PRes Demo.the_resource ->
  args req !! "path" = Some (PStr (u "!/" ++ name)) ->
  name <> [] ->
  arg req "rev" = PNone ->
  attachment_opened Demo.host req Demo.the_resource Demo.the_attachment
                    name None Demo.outer_zip.
Proof.
  intros req Ha Hp Hn Hr. unfold attachment_opened.
  split; [by eexists|]. split; [done|].
  split.
  { eexists. split; [done|]. split; [done|]. left. done. }
  rewrite Hr. done.
Qed.


Lemma C4_witness :
  let req := mkRequest (u "/zip") {["path" := PStr (u "!/x")]} ∅ [] None [] in
  truthy (arg req "attachment") = false
  /\ truthy (arg req "browser") = false
  /\ process_request Demo.host req
     = (Raise (TracError (u "Not Implemented")), req).
Proof.
  intros req. split; [done|]. split; [done|].
  apply (C4_not_implemented Demo.host req 262144%Z (PStr (u "!/x")) None);
    try done.
  by left.
Defined.

Lemma C5_witness :
  process_request Demo.host (Demo.request "/zip/browser/gone/a.zip!/x" [])
  = (Raise (ResourceNotFound
              (Translated "Repository '%(repo)s' not found"
                          [("repo", u "gone")]) None),
     Demo.request "/zip/browser/gone/a.zip!/x" [])
  /\ process_request Demo.host
       (Demo.request "/zip/browser/trunk/a.zip!/x@999" [])
     = (Raise (ResourceNotFound (Plain (u "No changeset 999"))
                 (Some (Translated "Invalid changeset number" []))),
        Demo.request "/zip/browser/trunk/a.zip!/x@999" []).
Proof.
  split.
  - apply (proj1 (C5_repository_errors Demo.host
                    (Demo.request "/zip/browser/gone/a.zip!/x" [])
                    262144%Z (PStr (u "!/x")) None
                    (Resource_ (u "browser") (u "gone/a.zip"))
                    eq_refl eq_refl eq_refl eq_refl
                    (or_introl eq_refl) eq_refl eq_refl)
             (u "gone") (u "a.zip")); by_computation.
  - apply (proj2 (C5_repository_errors Demo.host
                    (Demo.request "/zip/browser/trunk/a.zip!/x@999" [])
                    262144%Z (PStr (u "!/x")) (Some (u "999"))
                    (Resource_ (u "browser") (u "trunk/a.zip"))
                    eq_refl eq_refl eq_refl eq_refl
                    (or_introl eq_refl) eq_refl eq_refl)
             (u "") (mkRepos (u "")) (u "trunk/a.zip")
             (Plain (u "No changeset 999"))); by_computation.
Defined.

Lemma C7_witness :
  attachment_opened Demo.host Demo.raw_request Demo.the_resource
                    Demo.the_attachment (u "inner.zip!/a.txt") None
                    Demo.outer_zip
  /\ is_xhr Demo.raw_request = false
  /\ args Demo.raw_request !! "format" = Some (PStr (u "raw-"))
  /\ process_request Demo.host Demo.raw_request
     = (Raise RequestDone,
        replied Demo.raw_request
          [send_response 200;
           send_header "Content-Disposition" (HStr (u "attachment"));
           send_header "Content-Type" (HStr (u "text/plain; charset=utf-8"));
           send_header "Content-Length" (HInt 3);
           send_header "Last-Modified"
                       (HStr (u "Mon, 01 Jul 2019 12:30:00 GMT"));
           end_headers]
          (Some (u "abc", 4096%Z))).
Proof.
  assert (attachment_opened Demo.host Demo.raw_request Demo.the_resource
            Demo.the_attachment (u "inner.zip!/a.txt") None Demo.outer_zip)
    as Hopen by (apply (demo_opened _ (u "inner.zip!/a.txt")); by_computation).
  split; [done|]. split; [by_computation|]. split; [by_computation|].
  rewrite (C7_raw_response Demo.host Demo.raw_request Demo.the_resource
             Demo.the_attachment (u "inner.zip!/a.txt") None Demo.outer_zip
             (u "abc") (Demo.archive [Demo.member "a.txt" (u "abc")])
             (u "a.txt") (Demo.member "a.txt" (u "abc")).1 (u "abc")
             (u "Mon, 01 Jul 2019 12:30:00 GMT") Hopen);
    by_computation.
Defined.

Lemma C8_witness :
  get_resource_url Demo.host (Resource_ (u "zip") (u "x"))
                   (fun prefix p kw => (prefix, p, kw)) ∅ = Ok None
  /\ get_resource_url Demo.host
       (child Demo.the_resource (u "zip") (u "a.txt") None)
       (fun prefix p kw => (prefix, p, kw))
       (<["format" := PStr (u "raw")]> {["rev" := PNone]})
     = Ok (Some (u "raw-zip", u "/attachment/ticket/1/a.zip!/a.txt",
                 {["rev" := PNone]}))
  /\ get_resource_url Demo.host
       (child Demo.the_resource (u "zip") (u "a.txt") None)
       (fun prefix p kw => (prefix, p, kw)) {["rev" := PNone]}
     = Ok (Some (u "zip", u "/attachment/ticket/1/a.zip!/a.txt",
                 {["rev" := PNone]})).
Proof.
  split; [|split].
  - by apply (proj1 (C8_resource_url Demo.host _ _ _)).
  - rewrite (proj1 (proj2 (C8_resource_url Demo.host
                             (child Demo.the_resource (u "zip") (u "a.txt")
                                    None)
                             (fun prefix p kw => (prefix, p, kw))
                             (<["format" := PStr (u "raw")]>
                                {["rev" := PNone]}))
                      Demo.the_resource (u "/attachment/ticket/1/a.zip")
                      eq_refl eq_refl)); [|by_computation].
    by rewrite delete_insert_eq, delete_singleton_ne.
  - by rewrite (proj2 (proj2 (C8_resource_url Demo.host
                                (child Demo.the_resource (u "zip") (u "a.txt")
                                       None)
                                (fun prefix p kw => (prefix, p, kw))
                                {["rev" := PNone]})
                         Demo.the_resource (u "/attachment/ticket/1/a.zip")
                         eq_refl eq_refl)).
Defined.

(** * Every answer of the matcher is a match *)

Module ReSound.
Import ReSem.

Lemma star_loop_sound r k n s caps res :
  (forall s caps k res,
      exec r s caps k = Some res ->
      exists s' caps', matches r s caps s' caps' /\ k s' caps' = Some res) ->
  star_loop (exec r) k n s caps = Some res ->
  exists s' caps', matches (Star r) s caps s' caps' /\ k s' caps' = Some res.
Proof.
  intros IHr. revert s caps. induction n as [|n IH]; intros s caps; simpl.
  - intros Hk. exists s, caps. split; [constructor|done].
  - destruct (exec r s caps _) as [res'|] eqn:Hbody.
    + intros [= ->]. apply IHr in Hbody as (s1 & caps1 & Hm & Hk).
      destruct (length s1 <? length s)%nat eqn:Hlt; [|done].
      apply Nat.ltb_lt in Hlt.
      apply IH in Hk as (s2 & caps2 & Hstar & Hk).
      exists s2, caps2. split; [|done]. by eapply m_star_more.
    + intros Hk. exists s, caps. split; [constructor|done].
Qed.

Lemma exec_sound r s caps k res :
  exec r s caps k = Some res ->
  exists s' caps', matches r s caps s' caps' /\ k s' caps' = Some res.
Proof.
  revert s caps k res.
  induction r as [|c| |cs|r1 IH1 r2 IH2|r1 IH1 r2 IH2|r IH|i r IH|];
    intros s caps k res; simpl.
  - intros Hk. exists s, caps. split; [constructor|done].
  - destruct s as [|c' s]; [done|]. case_bool_decide; [subst|done].
    intros Hk. exists s, caps. split; [constructor|done].
  - destruct s as [|c' s]; [done|]. case_bool_decide; [done|].
    intros Hk. exists s, caps. split; [by constructor|done].
  - destruct s as [|c' s]; [done|]. case_bool_decide; [done|].
    intros Hk. exists s, caps. split; [by constructor|done].
  - intros H. apply IH1 in H as (s1 & caps1 & Hm1 & H).
    apply IH2 in H as (s2 & caps2 & Hm2 & H).
    exists s2, caps2. split; [by eapply m_seq|done].
  - destruct (exec r1 s caps k) as [res'|] eqn:H1.
    + intros [= ->]. apply IH1 in H1 as (s' & caps' & Hm & H).
      exists s', caps'. split; [by apply m_alt_l|done].
    + intros H. apply IH2 in H as (s' & caps' & Hm & H).
      exists s', caps'. split; [by apply m_alt_r|done].
  - by apply star_loop_sound.
  - intros H. apply IH in H as (s' & caps' & Hm & H).
    eexists s', _. split; [by apply m_group|done].
  - destruct (bool_decide (s = []) || bool_decide (s = [newline])) eqn:He;
      [|done].
    intros Hk. exists s, caps. split; [|done]. constructor.
    apply orb_true_iff in He as [He|He]; apply bool_decide_eq_true in He;
      auto.
Qed.

Lemma re_match_sound n r s g :
  re_match n r s = Some g ->
  exists s', matches r s (replicate n None) s' g.
Proof.
  intros H. apply exec_sound in H as (s' & caps' & Hm & [= <-]). eauto.
Qed.

(** Reading a match back, piece by piece. *)

Lemma inv_seq r1 r2 s caps s2 caps2 :
  matches (r1 ⋅ r2) s caps s2 caps2 ->
  exists s1 caps1,
    matches r1 s caps s1 caps1 /\ matches r2 s1 caps1 s2 caps2.
Proof. inversion 1; subst. eauto. Qed.

Lemma inv_lit l s caps s' caps' :
  matches (lit_chars l) s caps s' caps' -> s = l ++ s' /\ caps' = caps.
Proof.
  revert s. induction l as [|c l IH]; intros s; simpl.
  - by inversion 1; subst.
  - intros (s1 & caps1 & H1 & H2)%inv_seq.
    inversion H1; subst. apply IH in H2 as [-> ->]. done.
Qed.

Lemma inv_opt r s caps s' caps' :
  matches (Opt r) s caps s' caps' ->
  matches r s caps s' caps' \/ (s' = s /\ caps' = caps).
Proof.
  unfold Opt. inversion 1 as [| | | | |? ? ? ? ? ? Hl|? ? ? ? ? ? Hr| | | |];
    subst; [by left|].
  right. by inversion Hr; subst.
Qed.

Lemma inv_group i r s caps s' caps' :
  matches (Group i r) s caps s' caps' ->
  exists caps1,
    matches r s caps s' caps1 /\
    caps' = <[i := Some (take (length s - length s') s)]> caps1.
Proof. inversion 1; subst. eauto. Qed.

Lemma inv_eos s caps s' caps' :
  matches Eos s caps s' caps' ->
  s' = s /\ caps' = caps /\ (s = [] \/ s = [newline]).
Proof. by inversion 1; subst. Qed.

Lemma inv_none_of cs s caps s' caps' :
  matches (NoneOf cs) s caps s' caps' ->
  exists c, s = c :: s' /\ (c ∉ cs) /\ caps' = caps.
Proof. inversion 1; subst. eauto. Qed.

Lemma inv_dot s caps s' caps' :
  matches Dot s caps s' caps' ->
  exists c, s = c :: s' /\ c <> newline /\ caps' = caps.
Proof. inversion 1; subst. eauto. Qed.

(** A star over one-character steps takes a run of such characters. *)
Lemma inv_star_chars r (P : ascii -> Prop) s caps s' caps' :
  (forall s caps s' caps',
      matches r s caps s' caps' ->
      exists c, s = c :: s' /\ P c /\ caps' = caps) ->
  matches (Star r) s caps s' caps' ->
  exists a, s = a ++ s' /\ Forall P a /\ caps' = caps.
Proof.
  intros Hr H. remember (Star r) as r0 eqn:Hr0.
  induction H; try discriminate; injection Hr0 as ->.
  - by exists [].
  - apply Hr in H as (c & -> & Hc & ->).
    destruct (IHmatches2 eq_refl) as (a & -> & Ha & ->).
    exists (c :: a). split; [done|]. split; [|done]. by constructor.
Qed.

Lemma inv_plus_chars r (P : ascii -> Prop) s caps s' caps' :
  (forall s caps s' caps',
      matches r s caps s' caps' ->
      exists c, s = c :: s' /\ P c /\ caps' = caps) ->
  matches (Plus r) s caps s' caps' ->
  exists a, s = a ++ s' /\ a <> [] /\ Forall P a /\ caps' = caps.
Proof.
  intros Hr (s1 & caps1 & H1 & H2)%inv_seq.
  apply Hr in H1 as (c & -> & Hc & ->).
  apply (inv_star_chars r P) in H2 as (a & -> & Ha & ->); [|done].
  exists (c :: a). repeat split; try done. by constructor.
Qed.

Lemma inv_star_lit l s caps s' caps' :
  matches (Star (lit_chars l)) s caps s' caps' ->
  exists j, s = mjoin (replicate j l) ++ s' /\ caps' = caps.
Proof.
  intros H. remember (Star (lit_chars l)) as r0 eqn:Hr0.
  induction H; try discriminate; injection Hr0 as ->.
  - by exists 0%nat.
  - apply inv_lit in H as [-> ->].
    destruct (IHmatches2 eq_refl) as (j & -> & ->).
    exists (S j). split; [|done].
    change (mjoin (replicate (S j) l)) with (l ++ mjoin (replicate j l)).
    by rewrite (assoc_L (++)).
Qed.

End ReSound.

Module MatchInv.
Import ReSem ReSound ReFacts.

Lemma inv_group_lit i l s caps s' caps' :
  matches (Group i (lit_chars l)) s caps s' caps' ->
  s = l ++ s' /\ caps' = <[i := Some l]> caps.
Proof.
  intros (caps1 & [-> ->]%inv_lit & ->)%inv_group.
  by rewrite take_consumed.
Qed.

Lemma inv_group_plus_none_of i cs s caps s' caps' :
  matches (Group i (Plus (NoneOf cs))) s caps s' caps' ->
  exists a, s = a ++ s' /\ a <> [] /\ Forall (fun c => c ∉ cs) a /\
            caps' = <[i := Some a]> caps.
Proof.
  intros (caps1 & H & ->)%inv_group.
  apply (inv_plus_chars _ (fun c => c ∉ cs)) in H
    as (a & -> & Ha & Hcs & ->); [|apply inv_none_of].
  exists a. by rewrite take_consumed.
Qed.

Lemma inv_group_star_none_of i cs s caps s' caps' :
  matches (Group i (Star (NoneOf cs))) s caps s' caps' ->
  exists a, s = a ++ s' /\ Forall (fun c => c ∉ cs) a /\
            caps' = <[i := Some a]> caps.
Proof.
  intros (caps1 & H & ->)%inv_group.
  apply (inv_star_chars _ (fun c => c ∉ cs)) in H
    as (a & -> & Hcs & ->); [|apply inv_none_of].
  exists a. by rewrite take_consumed.
Qed.

(** An optional group made of a literal and a non-empty run. *)
Lemma inv_opt_group_lit_plus i l r (P : ascii -> Prop) s caps s' caps' :
  (forall s caps s' caps',
      matches r s caps s' caps' ->
      exists c, s = c :: s' /\ P c /\ caps' = caps) ->
  matches (Opt (Group i (lit_chars l ⋅ Plus r))) s caps s' caps' ->
  (s' = s /\ caps' = caps) \/
  exists a, s = l ++ a ++ s' /\ a <> [] /\ Forall P a /\
            caps' = <[i := Some (l ++ a)]> caps.
Proof.
  intros Hr [H|H]%inv_opt; [|by left]. right.
  apply inv_group in H as (caps1 & H & ->).
  apply inv_seq in H as (s1 & caps2 & [-> ->]%inv_lit & H).
  apply (inv_plus_chars _ P) in H as (a & -> & Ha & HP & ->); [|done].
  exists a. repeat split; try done.
  by rewrite (assoc_L (++)), take_consumed.
Qed.

Lemma inv_zip_prefix R s caps s' caps' :
  matches (lit "/" ⋅ Opt (Group 0 (lit "raw-")) ⋅ lit "zip"
           ⋅ Star (lit "/zip") ⋅ R) s caps s' caps' ->
  exists raw j s1,
    s = zip_prefix raw j ++ s1 /\
    matches R s1 (with_raw raw caps) s' caps'.
Proof.
  unfold lit.
  intros (s1 & c1 & [-> ->]%inv_lit & H)%inv_seq.
  apply inv_seq in H as (s2 & c2 & Hraw & H).
  apply inv_seq in H as (s3 & c3 & [-> ->]%inv_lit & H).
  apply inv_seq in H as (s4 & c4 & (j & -> & ->)%inv_star_lit & H).
  apply inv_opt in Hraw as [[-> ->]%inv_group_lit|[<- ->]].
  - exists true, j, s4. split; [|done].
    unfold zip_prefix. by rewrite <- !(assoc_L (++)).
  - exists false, j, s4. split; [|done].
    unfold zip_prefix. by rewrite <- !(assoc_L (++)).
Qed.

Lemma not_in_of_Forall (cs : list ascii) (a : str) c :
  c ∈ cs -> Forall (fun x => x ∉ cs) a -> c ∉ a.
Proof.
  intros Hc Ha Hin. rewrite Forall_forall in Ha. by apply (Ha c).
Qed.

Lemma not_newline_of_Forall (a : str) :
  Forall (fun x => x <> newline) a -> newline ∉ a.
Proof. intros Ha Hin. rewrite Forall_forall in Ha. by apply (Ha newline). Qed.

(** Every match of the attachment pattern is a path of the shape the
    pattern is written for, and its groups are the parts of that path. *)
Theorem re_attachment_inv s g :
  re_match 6 re_attachment s = Some g ->
  exists raw j realm0 rid archive inner rev nl,
    s = zip_prefix raw j ++ u "/attachment/" ++ realm0 ++ u "/" ++ rid
        ++ u "/" ++ archive ++ opt_text inner ++ opt_text rev ++ nl
    /\ g = [raw_flag raw; Some realm0; Some rid; Some archive; inner; rev]
    /\ (nl = [] \/ nl = [newline])
    /\ attachment_groups_ok realm0 rid archive inner rev.
Proof.
  intros (s' & H)%re_match_sound. unfold re_attachment in H.
  apply inv_zip_prefix in H as (raw & j & s1 & -> & H). unfold lit in H.
  apply inv_seq in H as (s2 & c2 & [-> ->]%inv_lit & H).
  apply inv_seq in H as (s3 & c3 & Hrealm & H).
  apply inv_group_plus_none_of in Hrealm as (realm0 & -> & Hr0 & Hr1 & ->).
  apply inv_seq in H as (s4 & c4 & [-> ->]%inv_lit & H).
  apply inv_seq in H as (s5 & c5 & Hid & H).
  apply inv_group_star_none_of in Hid as (rid & -> & Hi & ->).
  apply inv_seq in H as (s6 & c6 & [-> ->]%inv_lit & H).
  apply inv_seq in H as (s7 & c7 & Harch & H).
  apply inv_group_plus_none_of in Harch as (archive & -> & Ha0 & Ha1 & ->).
  apply inv_seq in H as (s8 & c8 & Hinner & H).
  apply inv_seq in H as (s9 & c9 & Hrev & H).
  apply inv_eos in H as (-> & -> & Hnl).
  apply (inv_opt_group_lit_plus _ _ _ (fun c => c <> newline)) in Hinner;
    [|apply inv_dot].
  apply (inv_opt_group_lit_plus _ _ _ (fun c => c <> newline)) in Hrev;
    [|apply inv_dot].
  assert ("/"%char ∉ realm0) by
    (eapply not_in_of_Forall; [|done]; compute_done).
  assert ("!"%char ∉ rid) by
    (eapply not_in_of_Forall; [|done]; compute_done).
  assert ("/"%char ∉ archive) by
    (eapply not_in_of_Forall; [|done]; compute_done).
  assert ("!"%char ∉ archive) by
    (eapply not_in_of_Forall; [|done]; compute_done).
  destruct Hinner as [[-> ->]|(x & -> & Hx0 & Hx1 & ->)];
    destruct Hrev as [[-> ->]|(y & -> & Hy0 & Hy1 & ->)].
  - eexists raw, j, realm0, rid, archive, None, None, _.
    split; [done|]. split; [by destruct raw|]. split; [done|].
    unfold attachment_groups_ok. naive_solver.
  - eexists raw, j, realm0, rid, archive, None, (Some (u "@" ++ y)), _.
    split; [done|]. split; [by destruct raw|]. split; [done|].
    unfold attachment_groups_ok. repeat split; try done.
    intros ? [= <-]. exists y. eauto using not_newline_of_Forall.
  - eexists raw, j, realm0, rid, archive, (Some (u "!/" ++ x)), None, _.
    split; [done|]. split; [by destruct raw|]. split; [done|].
    unfold attachment_groups_ok. repeat split; try done.
    intros ? [= <-]. exists x. eauto using not_newline_of_Forall.
  - eexists raw, j, realm0, rid, archive, (Some (u "!/" ++ x)),
      (Some (u "@" ++ y)), _.
    split; [done|].
    split; [by destruct raw|]. split; [done|].
    unfold attachment_groups_ok. repeat split; try done.
    + intros ? [= <-]. exists x. eauto using not_newline_of_Forall.
    + intros ? [= <-]. exists y. eauto using not_newline_of_Forall.
Qed.

Lemma inv_alt r1 r2 s caps s' caps' :
  matches (Alt r1 r2) s caps s' caps' ->
  matches r1 s caps s' caps' \/ matches r2 s caps s' caps'.
Proof. inversion 1; subst; auto. Qed.

Lemma inv_browser_realm s caps s' caps' :
  matches (Group 1 (Alt (lit "export") (Alt (lit "browser") (lit "file"))))
          s caps s' caps' ->
  exists realm0, realm0 ∈ browser_realms /\ s = realm0 ++ s' /\
                 caps' = <[1%nat := Some realm0]> caps.
Proof.
  unfold lit. intros (caps1 & H & ->)%inv_group.
  apply inv_alt in H as [H|H]; [|apply inv_alt in H as [H|H]];
    apply inv_lit in H as [-> ->]; rewrite take_consumed;
    eexists; (split; [|done]); unfold browser_realms; set_solver.
Qed.

(** The same for the repository pattern. *)
Theorem re_browser_inv s g :
  re_match 5 re_browser s = Some g ->
  exists raw j realm0 p inner rev nl,
    s = zip_prefix raw j ++ u "/" ++ realm0 ++ u "/" ++ p
        ++ opt_text inner ++ opt_text rev ++ nl
    /\ g = [raw_flag raw; Some realm0; Some p; inner; rev]
    /\ (nl = [] \/ nl = [newline])
    /\ browser_groups_ok realm0 p inner rev.
Proof.
  intros (s' & H)%re_match_sound. unfold re_browser in H.
  apply inv_zip_prefix in H as (raw & j & s1 & -> & H).
  apply inv_seq in H as (s2 & c2 & [-> ->]%inv_lit & H).
  apply inv_seq in H as (s3 & c3 & Hrealm & H).
  apply inv_browser_realm in Hrealm as (realm0 & Hrealm & -> & ->).
  apply inv_seq in H as (s4 & c4 & [-> ->]%inv_lit & H).
  apply inv_seq in H as (s5 & c5 & Hp & H).
  apply inv_group_plus_none_of in Hp as (p & -> & Hp0 & Hp1 & ->).
  apply inv_seq in H as (s8 & c8 & Hinner & H).
  apply inv_seq in H as (s9 & c9 & Hrev & H).
  apply inv_eos in H as (-> & -> & Hnl).
  apply (inv_opt_group_lit_plus _ _ _ (fun c => c ∉ u "@")) in Hinner;
    [|apply inv_none_of].
  apply (inv_opt_group_lit_plus _ _ _ (fun c => c <> newline)) in Hrev;
    [|apply inv_dot].
  assert ("!"%char ∉ p) by
    (eapply not_in_of_Forall; [|done]; compute_done).
  destruct Hinner as [[-> ->]|(x & -> & Hx0 & Hx1 & ->)];
    destruct Hrev as [[-> ->]|(y & -> & Hy0 & Hy1 & ->)].
  - eexists raw, j, realm0, p, None, None, _.
    split; [done|]. split; [by destruct raw|]. split; [done|].
    unfold browser_groups_ok. naive_solver.
  - eexists raw, j, realm0, p, None, (Some (u "@" ++ y)), _.
    split; [done|]. split; [by destruct raw|]. split; [done|].
    unfold browser_groups_ok. repeat split; try done.
    intros ? [= <-]. exists y. eauto using not_newline_of_Forall.
  - eexists raw, j, realm0, p, (Some (u "!/" ++ x)), None, _.
    split; [done|]. split; [by destruct raw|]. split; [done|].
    unfold browser_groups_ok. repeat split; try done.
    intros ? [= <-]. exists x. repeat split; try done.
    eapply not_in_of_Forall; [|done]. compute_done.
  - eexists raw, j, realm0, p, (Some (u "!/" ++ x)), (Some (u "@" ++ y)), _.
    split; [done|]. split; [by destruct raw|]. split; [done|].
    unfold browser_groups_ok. repeat split; try done.
    + intros ? [= <-]. exists x. repeat split; try done.
      eapply not_in_of_Forall; [|done]. compute_done.
    + intros ? [= <-]. exists y. eauto using not_newline_of_Forall.
Qed.

(** No path matches both patterns. *)
Theorem patterns_disjoint s :
  is_Some (re_match 5 re_browser s) -> re_match 6 re_attachment s = None.
Proof.
  intros [g Hg].
  apply re_browser_inv in Hg
    as (raw & j & realm0 & p & inner & rev & nl & -> & _ & _ & Hok).
  apply MatchFacts.attachment_not_browser. apply Hok.
Qed.

End MatchInv.

(** * What [match_request] leaves in the request *)

Module MatchRequestFacts.
Import MatchInv.

Lemma lookup_store_rev rev (a : gmap string pyval) k :
  k <> "rev" -> store_rev rev a !! k = a !! k.
Proof.
  intros Hk. unfold store_rev. destruct rev as [r|]; [|done].
  destruct (truthy (PStr r)); [|done]. by rewrite lookup_insert_ne.
Qed.

(** The two outcomes of a successful [match_request], with the groups
    named. *)
Lemma match_request_cases req req' :
  match_request req = (PTrue, req') ->
  (exists g,
      re_match 6 re_attachment (path_info req) = Some g /\
      req' = set_args req
               (store_rev (group g 5)
                  (<["attachment" :=
                      PRes (child (Resource_ (group_str (group g 1))
                                             (group_str (group g 2)))
                                  (u "attachment") (group_str (group g 3))
                                  None)]>
                     (<["path" := of_opt (group g 4)]>
                        (<["format" := of_opt (group g 0)]> (args req))))))
  \/
  (exists g,
      re_match 6 re_attachment (path_info req) = None /\
      re_match 5 re_browser (path_info req) = Some g /\
      req' = set_args req
               (store_rev (group g 4)
                  (<["browser" :=
                      PRes (Resource_ (group_str (group g 1))
                                      (group_str (group g 2)))]>
                     (<["path" := of_opt (group g 3)]>
                        (<["format" := of_opt (group g 0)]> (args req)))))).
Proof.
  unfold match_request.
  destruct (re_match 6 re_attachment (path_info req)) as [g|] eqn:Ha.
  - intros [= <-]. left. eauto.
  - destruct (re_match 5 re_browser (path_info req)) as [g|] eqn:Hb; [|done].
    intros [= <-]. right. eauto.
Qed.

End MatchRequestFacts.

Module MatchRequestFacts2.

Lemma match_request_stores req req' :
  match_request req = (PTrue, req') ->
  (args req' !! "format" = Some PNone \/
   args req' !! "format" = Some (PStr (u "raw-")))
  /\ (args req' !! "path" = Some PNone \/
      exists y, y <> [] /\ args req' !! "path" = Some (PStr (u "!/" ++ y)))
  /\ ((exists realm0 rid archive,
          args req' !! "attachment"
          = Some (PRes (child (Resource_ realm0 rid) (u "attachment")
                              archive None))
          /\ realm0 <> [] /\ archive <> [])
      \/ (exists realm0 p,
             args req' !! "browser" = Some (PRes (Resource_ realm0 p))
             /\ realm0 ∈ browser_realms /\ p <> [])).
Proof.
  intros [(g & Hg & ->)|(g & _ & Hg & ->)]%MatchRequestFacts.match_request_cases.
  - apply MatchInv.re_attachment_inv in Hg
      as (raw & j & realm0 & rid & archive & inner & rev & nl & _ & -> & _
          & Hok).
    destruct Hok as (Hr & _ & _ & Ha & _ & _ & Hinner & _).
    cbn [args set_args].
    rewrite !MatchRequestFacts.lookup_store_rev by done.
    rewrite !lookup_insert_ne, !lookup_insert_eq by done.
    rewrite lookup_insert_ne, lookup_insert_eq by done.
    split; [destruct raw; auto|]. split.
    + destruct inner as [x|]; [|by left]. right.
      destruct (Hinner x eq_refl) as (y & -> & Hy & _). eauto.
    + left. exists realm0, rid, archive. done.
  - apply MatchInv.re_browser_inv in Hg
      as (raw & j & realm0 & p & inner & rev & nl & _ & -> & _ & Hok).
    destruct Hok as (Hr & Hp & _ & Hinner & _).
    cbn [args set_args].
    rewrite !MatchRequestFacts.lookup_store_rev by done.
    rewrite !lookup_insert_ne, !lookup_insert_eq by done.
    rewrite lookup_insert_ne, lookup_insert_eq by done.
    split; [destruct raw; auto|]. split.
    + destruct inner as [x|]; [|by left]. right.
      destruct (Hinner x eq_refl) as (y & -> & Hy & _). eauto.
    + right. exists realm0, p. done.
Qed.

(** Keys other than the five of [match_request] are not touched. *)
Lemma match_request_frame req :
  let req' := (match_request req).2 in
  path_info req' = path_info req /\ in_headers req' = in_headers req /\
  sent req' = sent req /\ _response req' = _response req /\
  chrome req' = chrome req /\
  forall k, k ∉ ["format"; "path"; "attachment"; "browser"; "rev"]%string ->
            args req' !! k = args req !! k.
Proof.
  unfold match_request.
  destruct (re_match 6 re_attachment (path_info req)) as [g|];
    [|destruct (re_match 5 re_browser (path_info req)) as [g|]];
    cbn; repeat split; try done; intros k Hk;
    rewrite !not_elem_of_cons in Hk; destruct Hk as (?&?&?&?&?&_).
  - rewrite MatchRequestFacts.lookup_store_rev by done.
    by rewrite !lookup_insert_ne.
  - rewrite MatchRequestFacts.lookup_store_rev by done.
    by rewrite !lookup_insert_ne.
Qed.

(** Line 188 takes exactly the [!/] off the inner path. *)
Lemma match_request_name req req' :
  match_request req = (PTrue, req') ->
  exists p name,
    args req' !! "path" = Some p /\ slice2 p = Ok name /\
    (p = PNone /\ name = [] \/
     p = PStr (u "!/" ++ name) /\ name <> []).
Proof.
  intros (_ & [Hp|(y & Hy & Hp)] & _)%match_request_stores.
  - exists PNone, []. eauto.
  - exists (PStr (u "!/" ++ y)), y. split; [done|]. split; [done|]. eauto.
Qed.

End MatchRequestFacts2.

Module UrlFacts.

(** The URL that [get_resource_url] builds for a member of an
    attachment. *)
Lemma get_resource_url_member {A} h
      (href : str -> str -> gmap string pyval -> A)
      realm0 rid archive pv name v kwargs raw :
  let att := mkResource (u "attachment") (Some archive) pv
                        (Some (Resource_ realm0 rid)) in
  trac_get_resource_url h (PRes (unversioned att)) (mkHref [])
  = Ok (attachment_url realm0 rid archive) ->
  unicode_unquote h (attachment_url realm0 rid archive)
  = attachment_url realm0 rid archive ->
  py_eq_str (default PNone (kwargs !! "format")) (u "raw") = raw ->
  get_resource_url h (child att (u "zip") name v) href kwargs
  = Ok (Some (href (url_prefix raw)
                   (attachment_url realm0 rid archive ++ u "!/" ++ name)
                   (url_kwargs raw kwargs))).
Proof.
  intros att Hurl Hunq Hraw. unfold get_resource_url.
  cbn [parent child]. rewrite Hraw. fold att.
  destruct raw; cbn beta iota; rewrite Hurl, Hunq; cbn [id child].
  - assert (py_or (of_opt (Some name)) (PStr []) = PStr name) as ->.
    { unfold py_or. simpl. by case_bool_decide; subst. }
    reflexivity.
  - assert (py_or (of_opt (Some name)) (PStr []) = PStr name) as ->.
    { unfold py_or. simpl. by case_bool_decide; subst. }
    reflexivity.
Qed.

Lemma match_request_member req raw realm0 rid archive name :
  realm0 <> [] -> "/"%char ∉ realm0 -> "!"%char ∉ rid ->
  archive <> [] -> "/"%char ∉ archive -> "!"%char ∉ archive ->
  name <> [] -> newline ∉ name ->
  path_info req
  = zip_prefix raw 0 ++ attachment_url realm0 rid archive ++ u "!/" ++ name ->
  match_request req
  = (PTrue,
     set_args req
       (<["attachment" :=
           PRes (child (Resource_ realm0 rid) (u "attachment") archive
                       None)]>
          (<["path" := PStr (u "!/" ++ name)]>
             (<["format" := of_opt (raw_flag raw)]> (args req))))).
Proof.
  intros ? ? ? ? ? ? Hn Hnl Hpath. unfold match_request.
  rewrite Hpath. unfold attachment_url.
  rewrite <- !(assoc_L (++)).
  change (u "!/" ++ name) with (inner_suffix (Some name)).
  rewrite MatchFacts.attachment_groups; try done.
  - by destruct raw.
  - by intros x [= <-].
Qed.

End UrlFacts.

(** * What [process_request] does to the request *)

Module EffectFacts.

Ltac crush :=
  repeat first
    [ progress simplify_eq/=
    | case_match
    | progress (unfold bind, lift, ret, raise, ask, args_item, args_get,
                emit, set_response, add_chrome, modify in * ) ].

Lemma raw_response_outcome h zi mime g req r req' :
  raw_response h zi mime g req = (r, req') ->
  untouched req req' /\ chrome req' = chrome req /\
  (r = Raise RequestDone \/
   (exists e, r = Raise e) /\ sent req' = sent req /\
   _response req' = _response req).
Proof.
  unfold raw_response, untouched. intros H. crush; naive_solver.
Qed.

Lemma templated_outcome h att br res rev name ctx zi mime f req r req' :
  templated h att None br res rev name ctx zi mime f req = (r, req') ->
  untouched req req' /\ sent req' = sent req /\
  _response req' = _response req /\
  (forall t, r = Ok (Some t) ->
             exists pv za, t = Template "attachment.html"
                                        (AttachmentPage pv za)).
Proof.
  unfold templated, untouched. intros H. crush; naive_solver.
Qed.

Lemma outcome_raise req e : e <> RequestDone -> outcome_ok req (Raise e) req.
Proof. unfold outcome_ok, untouched. naive_solver. Qed.

Lemma outcome_raise_any req e : outcome_ok req (Raise e) req.
Proof. unfold outcome_ok, untouched. naive_solver. Qed.

Lemma answer_outcome h xhr att br res rev name f last ctx req r req' :
  answer h xhr att None br res rev name f last ctx req = (r, req') ->
  outcome_ok req r req'.
Proof.
  unfold answer. destruct xhr.
  { unfold xhr_listing. intros H. crush; apply outcome_raise_any. }
  destruct last as [[z e]|]; [|intros H; crush; apply outcome_raise_any].
  unfold bind at 1, lift at 1.
  destruct (match getinfo z e with
            | Raise (KeyError _) => Raise (not_in_zip name)
            | other => other
            end) as [zi|e1]; [|intros [= <- <-]; apply outcome_raise_any].
  unfold bind at 1, lift at 1.
  destruct (peek h f 512) as [data|e1];
    [|intros [= <- <-]; apply outcome_raise_any].
  unfold bind at 1, args_item at 1.
  destruct (args req !! "format") as [format|];
    [|intros [= <- <-]; apply outcome_raise_any].
  unfold bind at 1.
  destruct (negb (py_eq_str format (u "raw-"))).
  - destruct (templated h att None br res rev name ctx zi
                (sniff h name data) f req) as [[[t|]|e1] req1] eqn:Ht;
      apply templated_outcome in Ht as ((Hp & Hh & Ha) & Hs & Hr & Ht).
    + intros [= <- <-]. unfold outcome_ok, untouched.
      destruct (Ht t eq_refl) as (pv & za & ->). naive_solver.
    + intros Hraw. apply raw_response_outcome in Hraw
        as ((Hp' & Hh' & Ha') & _ & Hraw).
      unfold outcome_ok, untouched. split; [split; [|split]; congruence|].
      split; [|naive_solver].
      intros Hne. destruct Hraw as [->|(_ & ? & ?)]; [done|].
      split; congruence.
    + intros [= <- <-]. unfold outcome_ok, untouched. naive_solver.
  - unfold ret at 1. intros Hraw. apply raw_response_outcome in Hraw
      as (Hu & _ & Hraw).
    unfold outcome_ok. split; [done|]. naive_solver.
Qed.

Lemma serve_entry_outcome h xhr att bl br res rev f req r req' :
  att = None \/ bl = None ->
  serve_entry h xhr att bl br res rev f req = (r, req') ->
  outcome_ok req r req'.
Proof.
  intros Hshape. unfold serve_entry, bind at 1 2 3, args_item at 1, lift at 1.
  destruct (args req !! "path") as [p|];
    [|intros [= <- <-]; apply outcome_raise_any].
  destruct (slice2 p) as [name|];
    [|intros [= <- <-]; apply outcome_raise_any].
  destruct att as [a|];
    [|unfold raise; intros [= <- <-]; apply outcome_raise_any].
  destruct Hshape as [?| ->]; [done|].
  unfold ret at 1, bind at 1.
  destruct (truthy (PStr name)).
  - unfold bind at 1 2, lift at 1.
    destruct (for_elements h name (elements_of name) f None)
      as [[f' last]|]; [|intros [= <- <-]; apply outcome_raise_any].
    unfold bind, lift, ask, ret.
    destruct (py_child res (u "zip") name rev);
      [|intros [= <- <-]; apply outcome_raise_any].
    apply answer_outcome.
  - unfold bind, ask, ret. apply answer_outcome.
Qed.

Lemma open_source_req h att br res rev req :
  (open_source h att br res rev req).2 = req.
Proof.
  unfold open_source, bind, lift, ask, ret, raise.
  destruct (truthy att).
  - destruct (perm_require h req res "ATTACHMENT_VIEW") as [[]|]; [|done].
    destruct (Attachment_ h att) as [a|]; [|done].
    by destruct (attachment_open h a).
  - destruct (truthy br); [|done].
    destruct (perm_require h req res "FILE_VIEW") as [[]|]; [|done].
    destruct res as [| | |r]; try done.
    destruct (get_repository_by_path h (id r)) as [[reponame0 [repos0|]] p].
    + by destruct (get_existing_node h req repos0 p rev) as [|[]].
    + by destruct (truthy (PStr reponame0)).
Qed.

(** A run either hands the request on, with 'path' set anew and
    nothing else changed, or it is as [outcome_ok] says. *)
Lemma process_request_outcome h req r req' :
  process_request h req = (r, req') ->
  (exists m v, r = Ok (Delegated m) /\
               req' = set_args req (<["path" := v]> (args req)))
  \/ outcome_ok req r req'.
Proof.
  unfold process_request, bind at 1 2 3 4 5, lift at 1, args_get at 1 2,
    ask at 1, args_item at 1.
  destruct (max_preview_size h) as [n|];
    [|intros [= <- <-]; right; apply outcome_raise_any].
  destruct (args req !! "path") as [p|];
    [|intros [= <- <-]; right; apply outcome_raise_any].
  destruct (negb (truthy p) && negb (is_xhr req)).
  - unfold bind, lift, args_set, modify, ret.
    destruct (getattr_id (py_or (arg req "attachment") (arg req "browser")))
      as [v|]; [|intros [= <- <-]; right; apply outcome_raise_any].
    intros [= <- <-]. left. eauto.
  - unfold bind at 1 2, args_get, lift.
    destruct (normalize_rev (arg req "rev")) as [rev|];
      [|intros [= <- <-]; right; apply outcome_raise_any].
    unfold bind at 1.
    pose proof (ListingFacts.open_source_shape h (arg req "attachment")
                  (arg req "browser")
                  (py_or (arg req "attachment") (arg req "browser")) rev req)
      as Hshape.
    pose proof (open_source_req h (arg req "attachment")
                  (arg req "browser")
                  (py_or (arg req "attachment") (arg req "browser")) rev req)
      as Hreq.
    destruct (open_source h (arg req "attachment") (arg req "browser")
                (py_or (arg req "attachment") (arg req "browser")) rev req)
      as [[[[[a|] [b|]] f]|e] req1]; try done; simpl in Hreq; subst req1.
    + intros H. right. eapply serve_entry_outcome; [|done]. by right.
    + intros H. right. eapply serve_entry_outcome; [|done]. by left.
    + intros [= <- <-]. right. apply outcome_raise_any.
Qed.

End EffectFacts.

Module ServeFacts.

(** An exception of [ZipFile] itself, at any level, is not caught. *)
Lemma for_elements_not_a_zip h name pre seg post f0 fp e :
  nested_entry h f0 pre = Some fp ->
  ZipFile_ h fp = Raise e ->
  for_elements h name (pre ++ seg :: post) f0 None = Raise e.
Proof.
  intros Hpre Hz. rewrite ProcessFacts.for_elements_app.
  destruct (ProcessFacts.for_elements_nested h name pre f0 None fp Hpre)
    as [l ->].
  simpl. by rewrite Hz.
Qed.

(** Nor is any exception of [ZipFile.open] other than [KeyError]. *)
Lemma for_elements_open_error h name pre seg post f0 fp z e :
  nested_entry h f0 pre = Some fp ->
  ZipFile_ h fp = Ok z -> open z seg = Raise e ->
  (forall k, e <> KeyError k) ->
  for_elements h name (pre ++ seg :: post) f0 None = Raise e.
Proof.
  intros Hpre Hz He Hk. rewrite ProcessFacts.for_elements_app.
  destruct (ProcessFacts.for_elements_nested h name pre f0 None fp Hpre)
    as [l ->].
  simpl. rewrite Hz, He. destruct e; try done. by destruct (Hk key).
Qed.

(** The templated answer for an attachment. *)
Lemma answer_attachment_page h req a br res rev name g z e zi data fmt url
      pv :
  getinfo z e = Ok zi -> peek h g 512 = Ok data ->
  args req !! "format" = Some fmt -> py_eq_str fmt (u "raw-") = false ->
  trac_get_resource_url h (PRes res) (mkHref []) = Ok url ->
  let rawurl := req_href h req (u "raw-zip")
                  (unicode_unquote h url ++ u "!/" ++ name) rev in
  let ctx := web_context req (Some (child res (u "zip") name rev)) in
  preview_data h ctx g (file_size zi) (sniff h name data) name rawurl
  = Ok pv ->
  answer h false (Some a) None br (PRes res) rev name g (Some (z, e)) ctx req
  = (Ok (Template "attachment.html"
           (AttachmentPage pv
              (mkZipAttachment (description a) (size a) (date a) (author a)
                 (ipnr a) (Some name) (realm res) (id res) res))),
     mkRequest (path_info req) (args req) (in_headers req) (sent req)
       (_response req)
       (chrome req
        ++ [add_stylesheet "common/css/code.css";
            add_link "alternate" rawurl (Translated "Original Format" [])
                     (sniff h name data)])).
Proof.
  intros Hzi Hdata Hfmt Hraw Hurl rawurl ctx Hpv.
  unfold answer, bind at 1 2 3 4, lift at 1 2, args_item at 1.
  rewrite Hzi, Hdata, Hfmt, Hraw. cbn [negb].
  unfold templated, bind, lift, ask, add_chrome, modify, ret.
  rewrite Hurl. cbn beta iota. subst rawurl ctx.
  rewrite Hpv. cbn.
  by rewrite <- (assoc_L (++)).
Qed.

End ServeFacts.

Module RenderFacts.
Import Render.

Lemma mapM_names {A B} (f : A -> result B) (na : A -> str) (nb : B -> str)
      l l' :
  (forall x y, f x = Ok y -> nb y = na x) ->
  mapM f l = Ok l' -> map nb l' = map na l.
Proof.
  intros Hf. revert l'. induction l as [|x l IH]; intros l'; simpl.
  - by intros [= <-].
  - destruct (f x) as [y|] eqn:Hy; [|done].
    destruct (mapM f l) as [ys|]; [|done].
    intros [= <-]. simpl. by rewrite (Hf x y), (IH ys).
Qed.

(** [mapM] pairs every element with its result, in order. *)
Lemma mapM_Forall2 {A B} (f : A -> result B) l l' :
mapM f l = Ok l' -> Forall2 (fun x y => f x = Ok y) l l'.
Proof.
revert l'. induction l as [|x l IH]; intros l'; simpl.
- intros [= <-]. constructor.
- destruct (f x) as [y|] eqn:Hy; [|done].
  destruct (mapM f l) as [ys|]; [|done].
  intros [= <-]. constructor; [done|by apply IH].
Qed.

End RenderFacts.

Module LinkFacts.

Lemma splitn_plain sep s n : sep ∉ s -> PyStr.splitn sep s n = [s].
Proof.
  revert n. induction s as [|c s IH]; intros n Hs; [done|].
  apply not_elem_of_cons in Hs as [Hc Hs]. simpl.
  destruct n as [|n]; [done|].
  rewrite bool_decide_false by done. by rewrite IH.
Qed.

Lemma splitn_cut sep a rest n :
  sep ∉ a ->
  PyStr.splitn sep (a ++ sep :: rest) (S n) = a :: PyStr.splitn sep rest n.
Proof.
  induction a as [|c a IH]; intros Ha.
  - simpl. by rewrite bool_decide_true.
  - apply not_elem_of_cons in Ha as [Hc Ha]. simpl.
    rewrite bool_decide_false by done. by rewrite IH.
Qed.

Lemma splitn_zero sep s : PyStr.splitn sep s 0 = [s].
Proof. by destruct s. Qed.

(** The three parts of a link, when it has them. *)
Lemma splitn_three a b rest :
  ":"%char ∉ a -> ":"%char ∉ b ->
  PyStr.splitn ":" (a ++ u ":" ++ b ++ u ":" ++ rest) 2 = [a; b; rest].
Proof.
  intros Ha Hb. change (u ":" ++ b ++ u ":" ++ rest)
    with (":"%char :: b ++ ":"%char :: rest).
  rewrite splitn_cut, splitn_cut, splitn_zero; done.
Qed.

Lemma splitn_two a b :
  ":"%char ∉ a -> ":"%char ∉ b ->
  PyStr.splitn ":" (a ++ u ":" ++ b) 2 = [a; b].
Proof.
  intros Ha Hb. change (u ":" ++ b) with (":"%char :: b).
  rewrite splitn_cut, splitn_plain; done.
Qed.

Lemma format_link_with h formatter ns target label link params fragment
      localid prealm rest resource :
  split_link formatter target = (link, params, fragment) ->
  PyStr.splitn ":" link 2 = [localid; prealm; rest] ->
  match PyStr.splitn ":" rest 2 with
  | [i0; i1; i2] =>
      PRes (child (child (Resource_ i1 i2) prealm i0 None)
                  (u "zip") localid None)
  | [i0] => PRes (child (Resource_ prealm i0) (u "zip") localid None)
  | _ => PNone
  end = resource ->
  _format_link h formatter ns target label
  = match trac_get_resource_url h resource (fmt_href formatter) with
    | Ok url => Ok (Anchor label (url ++ fragment))
    | Raise e => Raise e
    end.
Proof.
  intros Hsplit Hlink Hres. unfold _format_link.
  by rewrite Hsplit, Hlink, Hres.
Qed.

End LinkFacts.

(** * The elements of an inner path *)

Module ElementFacts.

Lemma split_cons sep s : exists e l, PyStr.split sep s = e :: l.
Proof.
induction s as [|c s (e & l & IH)]; simpl; [eauto|].
case_bool_decide; [eauto|]. rewrite IH. eauto.
Qed.

Lemma split_no_sep sep s : Forall (fun e => sep ∉ e) (PyStr.split sep s).
Proof.
induction s as [|c s IH]; simpl.
- repeat constructor. by intros ?%elem_of_nil.
- case_bool_decide as Hc.
  + constructor; [by intros ?%elem_of_nil|done].
  + destruct (PyStr.split sep s) as [|e l].
    * repeat constructor. by intros [->|?%elem_of_nil]%elem_of_cons.
    * apply Forall_cons in IH as [He Hl]. constructor; [|done].
      by intros [->|?]%elem_of_cons.
Qed.

Lemma lstrip_suffix c s : exists k, PyStr.lstrip c s = drop k s.
Proof.
induction s as [|c' s [k IH]]; simpl; [by exists 0%nat|].
case_bool_decide; [by exists (S k)|by exists 0%nat].
Qed.

Lemma lstrip_head c s : head (PyStr.lstrip c s) <> Some c.
Proof.
induction s as [|c' s IH]; simpl; [done|].
case_bool_decide; [done|]. simpl. congruence.
Qed.

Lemma lstrip_keeps c x s : x ∉ s -> x ∉ PyStr.lstrip c s.
Proof.
intros Hs. destruct (lstrip_suffix c s) as [k ->].
intros Hx. apply Hs. by apply (subseteq_drop k s).
Qed.

(** Every element asked of an archive is a plain segment. *)
Lemma elements_plain name : Forall plain_segment (elements_of name).
Proof.
unfold elements_of. apply Forall_map.
eapply Forall_impl; [apply split_no_sep|].
intros e He. split; [by apply lstrip_keeps|apply lstrip_head].
Qed.

End ElementFacts.

(** * The sniffed mimetype and the permission check *)

Module SniffFacts.

Lemma startswith_app t b : PyStr.startswith (t ++ b) t = true.
Proof.
induction t as [|c t IH]; simpl; [by destruct b|].
by rewrite bool_decide_true, IH.
Qed.

Lemma contains_eq s t :
PyStr.contains s t
= PyStr.startswith s t
  || match s with [] => false | _ :: s' => PyStr.contains s' t end.
Proof. by destruct s. Qed.

Lemma contains_app a t b : PyStr.contains (a ++ t ++ b) t = true.
Proof.
induction a as [|c a IH].
- cbn [app]. by rewrite contains_eq, startswith_app.
- rewrite contains_eq. cbn [app]. rewrite IH. apply orb_true_r.
Qed.

End SniffFacts.

(** * Inner paths and their segments *)

Module TraversalFacts.

Lemma padded_no_bang ks : "!"%char ∉ ks.2 -> "!"%char ∉ padded ks.
Proof.
intros Hs. unfold padded. destruct ks as [k s]. cbn [fst snd] in *.
induction k as [|k IH]; [done|].
cbn [replicate app]. by apply not_elem_of_cons.
Qed.

Lemma lstrip_padded ks :
head ks.2 <> Some "/"%char -> PyStr.lstrip "/" (padded ks) = ks.2.
Proof.
intros Hs. unfold padded. destruct ks as [k s]. cbn [fst snd] in *.
induction k as [|k IH]; [by apply ProcessFacts.lstrip_plain|].
cbn [replicate app PyStr.lstrip]. by rewrite bool_decide_true.
Qed.

Lemma split_join ps :
ps <> [] -> Forall (fun p => "!"%char ∉ p) ps ->
PyStr.split "!" (join "!" ps) = ps.
Proof.
intros Hne Hall. induction Hall as [|p ps Hp Hall IH]; [done|].
destruct ps as [|q ps].
- by apply ProcessFacts.split_plain_end.
- change (join "!" (p :: q :: ps)) with (p ++ "!"%char :: join "!" (q :: ps)).
  rewrite ProcessFacts.split_plain by done. by rewrite IH.
Qed.

(** The elements that the loop goes through are the names between the
  [!], without their slashes. *)
Lemma elements_of_join segs :
segs <> [] -> Forall (fun ks => plain_segment ks.2) segs ->
elements_of (join "!" (map padded segs)) = map snd segs.
Proof.
intros Hne Hall. unfold elements_of. rewrite split_join.
- clear Hne. induction Hall as [|ks segs [_ Hhead] _ IH]; [done|].
  cbn [map]. by rewrite lstrip_padded, IH.
- by destruct segs.
- clear Hne. induction Hall as [|ks segs [Hbang _] _ IH]; [done|].
  cbn [map]. constructor; [by apply padded_no_bang|done].
Qed.

Lemma join_split name : join "!" (PyStr.split "!" name) = name.
Proof.
induction name as [|c name IH]; [done|]. cbn [PyStr.split].
destruct (ElementFacts.split_cons "!" name) as (e & l & Hsplit).
rewrite Hsplit in IH. rewrite Hsplit. case_bool_decide as Hc.
- subst c.
  change (join "!" ([] :: e :: l)) with ("!"%char :: join "!" (e :: l)).
  by rewrite IH.
- destruct l as [|e' l].
  + change (join "!" [c :: e]) with (c :: join "!" [e]). by rewrite IH.
  + change (join "!" ((c :: e) :: e' :: l))
      with (c :: join "!" (e :: e' :: l)).
    by rewrite IH.
Qed.

Lemma padded_lstrip p :
exists k, p = padded (k, PyStr.lstrip "/" p).
Proof.
induction p as [|c p [k IH]]; [by exists 0%nat|]. cbn [PyStr.lstrip].
case_bool_decide as Hc; [|by exists 0%nat].
subst c. exists (S k). unfold padded in *. cbn [fst snd replicate app] in *.
by rewrite <- IH.
Qed.

Lemma padded_all ps :
Forall (fun p => "!"%char ∉ p) ps ->
exists segs,
  map padded segs = ps /\ Forall (fun ks => plain_segment ks.2) segs.
Proof.
induction 1 as [|p ps Hp _ (segs & Hsegs & Hall)]; [by exists []|].
destruct (padded_lstrip p) as [k Hk].
exists ((k, PyStr.lstrip "/" p) :: segs). split.
- cbn [map]. by rewrite <- Hk, Hsegs.
- constructor; [|done]. split.
  + by apply ElementFacts.lstrip_keeps.
  + apply ElementFacts.lstrip_head.
Qed.

(** Every inner path is written that way. *)
Lemma inner_path_shape name :
exists segs,
  Forall (fun ks => plain_segment ks.2) segs
  /\ name = join "!" (map padded segs).
Proof.
destruct (padded_all (PyStr.split "!" name)) as (segs & Hsegs & Hall);
  [apply ElementFacts.split_no_sep|].
exists segs. split; [done|]. by rewrite Hsegs, join_split.
Qed.

End TraversalFacts.

(** * Further properties of the callbacks *)

(** Closed side conditions of the examples: equalities by evaluation,
    (non-)membership by decision. *)
Ltac settle := first [reflexivity | compute_done | by_computation].

(** X1.  A path that the attachment pattern matches is made of the
    prefix, [/attachment/], realm, id and archive name, the inner path and
    the revision when present, and at most a final line break; the groups
    are exactly these parts, so the path can be put together again from
    them. *)
Theorem X1_attachment_match_reassembles s g :
  re_match 6 re_attachment s = Some g ->
  exists raw j realm0 rid archive inner rev nl,
    s = zip_prefix raw j ++ u "/attachment/" ++ realm0 ++ u "/" ++ rid
        ++ u "/" ++ archive ++ opt_text inner ++ opt_text rev ++ nl
    /\ g = [raw_flag raw; Some realm0; Some rid; Some archive; inner; rev]
    /\ (nl = [] \/ nl = [newline])
    /\ attachment_groups_ok realm0 rid archive inner rev.
Proof. apply MatchInv.re_attachment_inv. Qed.

Lemma X1_witness :
  re_match 6 re_attachment (u "/zip/attachment/t/1/a@b!x")
  = Some [None; Some (u "t"); Some (u "1"); Some (u "a"); None;
          Some (u "@b!x")]
  /\ exists raw j realm0 rid archive inner rev nl,
       u "/zip/attachment/t/1/a@b!x"
       = zip_prefix raw j ++ u "/attachment/" ++ realm0 ++ u "/" ++ rid
         ++ u "/" ++ archive ++ opt_text inner ++ opt_text rev ++ nl
       /\ [None; Some (u "t"); Some (u "1"); Some (u "a"); None;
           Some (u "@b!x")]
          = [raw_flag raw; Some realm0; Some rid; Some archive; inner; rev]
       /\ (nl = [] \/ nl = [newline])
       /\ attachment_groups_ok realm0 rid archive inner rev.
Proof.
  split; [reflexivity|].
  apply (X1_attachment_match_reassembles (u "/zip/attachment/t/1/a@b!x")).
  reflexivity.
Defined.

(** X2.  The same for the repository pattern: a matched path is made of
    the prefix, one of the realms export, browser and file, the path, the
    inner path and the revision when present, and at most a final line
    break, and the groups are these parts. *)
Theorem X2_browser_match_reassembles s g :
  re_match 5 re_browser s = Some g ->
  exists raw j realm0 p inner rev nl,
    s = zip_prefix raw j ++ u "/" ++ realm0 ++ u "/" ++ p
        ++ opt_text inner ++ opt_text rev ++ nl
    /\ g = [raw_flag raw; Some realm0; Some p; inner; rev]
    /\ (nl = [] \/ nl = [newline])
    /\ browser_groups_ok realm0 p inner rev.
Proof. apply MatchInv.re_browser_inv. Qed.

Lemma X2_witness :
  re_match 5 re_browser (u "/raw-zip/zip/file/trunk/a.zip!/foo@3")
  = Some [Some (u "raw-"); Some (u "file"); Some (u "trunk/a.zip");
          Some (u "!/foo"); Some (u "@3")]
  /\ exists raw j realm0 p inner rev nl,
       u "/raw-zip/zip/file/trunk/a.zip!/foo@3"
       = zip_prefix raw j ++ u "/" ++ realm0 ++ u "/" ++ p
         ++ opt_text inner ++ opt_text rev ++ nl
       /\ [Some (u "raw-"); Some (u "file"); Some (u "trunk/a.zip");
           Some (u "!/foo"); Some (u "@3")]
          = [raw_flag raw; Some realm0; Some p; inner; rev]
       /\ (nl = [] \/ nl = [newline])
       /\ browser_groups_ok realm0 p inner rev.
Proof.
  split; [reflexivity|].
  apply (X2_browser_match_reassembles
           (u "/raw-zip/zip/file/trunk/a.zip!/foo@3")).
  reflexivity.
Defined.

(** X3.  No path matches both patterns: a path that the repository
    pattern matches is refused by the attachment pattern, so the order of
    the two tests in [match_request] decides nothing. *)
Theorem X3_patterns_disjoint s :
  is_Some (re_match 5 re_browser s) -> re_match 6 re_attachment s = None.
Proof. apply MatchInv.patterns_disjoint. Qed.

Lemma X3_witness :
  is_Some (re_match 5 re_browser (u "/zip/browser/attachment/a/b/c.zip"))
  /\ re_match 6 re_attachment (u "/zip/browser/attachment/a/b/c.zip") = None.
Proof.
  assert (is_Some (re_match 5 re_browser
                     (u "/zip/browser/attachment/a/b/c.zip"))) as H
    by (vm_compute; eauto).
  split; [done|]. by apply X3_patterns_disjoint.
Defined.

(** X4.  After a successful [match_request] the keys 'format' and 'path'
    are there: 'format' holds None or 'raw-', 'path' holds None or an
    inner path that starts with [!/] and goes on; and either 'attachment'
    holds an attachment resource with a parent, or 'browser' holds a
    resource of one of the three repository realms. *)
Theorem X4_match_request_stores req req' :
  match_request req = (PTrue, req') ->
  (args req' !! "format" = Some PNone \/
   args req' !! "format" = Some (PStr (u "raw-")))
  /\ (args req' !! "path" = Some PNone \/
      exists y, y <> [] /\ args req' !! "path" = Some (PStr (u "!/" ++ y)))
  /\ ((exists realm0 rid archive,
          args req' !! "attachment"
          = Some (PRes (child (Resource_ realm0 rid) (u "attachment")
                              archive None))
          /\ realm0 <> [] /\ archive <> [])
      \/ (exists realm0 p,
             args req' !! "browser" = Some (PRes (Resource_ realm0 p))
             /\ realm0 ∈ browser_realms /\ p <> [])).
Proof. apply MatchRequestFacts2.match_request_stores. Qed.

Lemma X4_witness :
  let req := request_for "/zip/attachment/ticket/1/a.zip!/foo@3" in
  (match_request req).1 = PTrue
  /\ (args (match_request req).2 !! "format" = Some PNone \/
      args (match_request req).2 !! "format" = Some (PStr (u "raw-")))
  /\ (args (match_request req).2 !! "path" = Some PNone \/
      exists y, y <> [] /\
                args (match_request req).2 !! "path"
                = Some (PStr (u "!/" ++ y))).
Proof.
  intros req. split; [reflexivity|].
  destruct (X4_match_request_stores req (match_request req).2) as (? & ? & _);
    [reflexivity|]. done.
Defined.

(** X5.  [match_request] writes nothing but the five keys 'format',
    'path', 'attachment', 'browser' and 'rev' of [req.args]: every other
    argument, the path, the headers and the response stay as they were,
    whether the path matches or not. *)
Theorem X5_match_request_frame req :
  let req' := (match_request req).2 in
  path_info req' = path_info req /\ in_headers req' = in_headers req /\
  sent req' = sent req /\ _response req' = _response req /\
  chrome req' = chrome req /\
  forall k, k ∉ ["format"; "path"; "attachment"; "browser"; "rev"]%string ->
            args req' !! k = args req !! k.
Proof. apply MatchRequestFacts2.match_request_frame. Qed.

Lemma X5_witness :
  let req := mkRequest (u "/zip/browser/trunk/a.zip!/x@7")
                       {["order" := PStr (u "name")]} ∅ [] None [] in
  args (match_request req).2 !! "order" = Some (PStr (u "name")).
Proof.
  intros req.
  destruct (X5_match_request_frame req) as (_ & _ & _ & _ & _ & H).
  rewrite H; [reflexivity|]. compute_done.
Defined.

(** X6.  After a successful [match_request], dropping the first two
    characters of 'path' (line 188) takes off exactly the [!/]: the inner
    name is empty when 'path' is None and is the non-empty rest of the
    inner path otherwise. *)
Theorem X6_inner_name req req' :
  match_request req = (PTrue, req') ->
  exists p name,
    args req' !! "path" = Some p /\ slice2 p = Ok name /\
    (p = PNone /\ name = [] \/ p = PStr (u "!/" ++ name) /\ name <> []).
Proof. apply MatchRequestFacts2.match_request_name. Qed.

Lemma X6_witness :
  let req := request_for "/zip/attachment/ticket/1/a.zip!/in.zip!/b.txt" in
  (match_request req).1 = PTrue
  /\ exists p name,
       args (match_request req).2 !! "path" = Some p /\ slice2 p = Ok name /\
       (p = PNone /\ name = [] \/ p = PStr (u "!/" ++ name) /\ name <> []).
Proof.
  intros req. split; [reflexivity|].
  apply (X6_inner_name req). reflexivity.
Defined.

(** X7.  Round trip between [get_resource_url] and [match_request].  For
    the member [name] of an attachment to which the host gives the URL
    [/attachment/<realm>/<id>/<archive>], [get_resource_url] hands [href]
    the prefix 'zip' (or 'raw-zip' for [format='raw']) and the path
    [<that URL>!/<name>].  Whenever [href] answers this call with
    [/<prefix><path>], the two put together and nothing else (nothing
    quoted, no slash taken away, no query string), [match_request]
    decodes the answer to the same attachment without its version, the
    inner path [!/name], and the 'raw-' flag exactly when [format='raw']
    was asked for. *)
Theorem X7_url_round_trip h (href : str -> str -> gmap string pyval -> str)
        req realm0 rid archive pv name v kwargs raw :
  let att := mkResource (u "attachment") (Some archive) pv
                        (Some (Resource_ realm0 rid)) in
  let member_path := attachment_url realm0 rid archive ++ u "!/" ++ name in
  realm0 <> [] -> "/"%char ∉ realm0 -> "!"%char ∉ rid ->
  archive <> [] -> "/"%char ∉ archive -> "!"%char ∉ archive ->
  name <> [] -> newline ∉ name ->
  trac_get_resource_url h (PRes (unversioned att)) (mkHref [])
  = Ok (attachment_url realm0 rid archive) ->
  unicode_unquote h (attachment_url realm0 rid archive)
  = attachment_url realm0 rid archive ->
  py_eq_str (default PNone (kwargs !! "format")) (u "raw") = raw ->
  href (url_prefix raw) member_path (url_kwargs raw kwargs)
  = u "/" ++ url_prefix raw ++ member_path ->
  get_resource_url h (child att (u "zip") name v) href kwargs
  = Ok (Some (path_info req)) ->
  match_request req
  = (PTrue,
     set_args req
       (<["attachment" := PRes (unversioned att)]>
          (<["path" := PStr (u "!/" ++ name)]>
             (<["format" := of_opt (raw_flag raw)]> (args req))))).
Proof.
  intros att member_path ? ? ? ? ? ? ? ? Hurl Hunq Hraw Hhref Hget.
  subst att member_path.
  rewrite (UrlFacts.get_resource_url_member h href realm0 rid archive pv name
             v kwargs raw Hurl Hunq Hraw) in Hget.
  assert (path_info req
          = href (url_prefix raw)
                 (attachment_url realm0 rid archive ++ u "!/" ++ name)
                 (url_kwargs raw kwargs)) as Hpath by congruence.
  rewrite Hhref in Hpath.
  apply UrlFacts.match_request_member; try done.
  rewrite Hpath. by destruct raw.
Qed.

Lemma X7_witness :
  let href := fun (prefix p : str) (kw : gmap string pyval) =>
                u "/" ++ prefix ++ p in
  let resource := child Demo.the_resource (u "zip") (u "dir/b.txt") None in
  let req := request_for "/raw-zip/attachment/ticket/1/a.zip!/dir/b.txt" in
  get_resource_url Demo.host resource href {["format" := PStr (u "raw")]}
  = Ok (Some (path_info req))
  /\ match_request req
     = (PTrue,
        set_args req
          (<["attachment" := PRes Demo.the_resource]>
             (<["path" := PStr (u "!/dir/b.txt")]>
                (<["format" := PStr (u "raw-")]> (args req))))).
Proof.
  intros href resource req. split; [reflexivity|].
  apply (X7_url_round_trip Demo.host href req (u "ticket") (u "1")
           (u "a.zip") None (u "dir/b.txt") None
           {["format" := PStr (u "raw")]} true);
    settle.
Defined.

(** X8.  A URL without an inner path is handed on.  For an attachment
    path [process_request], run after [match_request] on a request that
    is no XHR, sets 'path' to the archive name and answers with what
    [AttachmentModule] answers; for a repository path it sets 'path' to
    the repository path and answers with what [BrowserModule] answers. *)
Theorem X8_delegation h req n raw j :
  max_preview_size h = Ok n ->
  is_xhr req = false ->
  let req1 := (match_request req).2 in
  (forall realm0 rid archive,
      realm0 <> [] -> "/"%char ∉ realm0 -> "!"%char ∉ rid ->
      archive <> [] -> "/"%char ∉ archive -> "!"%char ∉ archive ->
      truthy (arg req "browser") = false ->
      path_info req
      = zip_prefix raw j ++ u "/attachment/" ++ realm0 ++ u "/" ++ rid
        ++ u "/" ++ archive ->
      process_request h req1
      = (Ok (Delegated AttachmentModule),
         set_args req1 (<["path" := PStr archive]> (args req1))))
  /\
  (forall realm0 p,
      realm0 ∈ browser_realms -> p <> [] -> "!"%char ∉ p ->
      truthy (arg req "attachment") = false ->
      path_info req = zip_prefix raw j ++ u "/" ++ realm0 ++ u "/" ++ p ->
      process_request h req1
      = (Ok (Delegated BrowserModule),
         set_args req1 (<["path" := PStr p]> (args req1)))).
Proof.
  intros Hn Hxhr req1. split.
  - intros realm0 rid archive ? ? ? ? ? ? Hbr Hpath.
    assert (req1 = set_args req
              (<["attachment" :=
                  PRes (child (Resource_ realm0 rid) (u "attachment")
                              archive None)]>
                 (<["path" := PNone]>
                    (<["format" := of_opt (raw_flag raw)]> (args req)))))
      as Hreq1.
    { unfold req1, match_request. rewrite Hpath.
      pose proof (MatchFacts.attachment_groups raw j realm0 rid archive None)
        as Hg.
      unfold inner_suffix in Hg. rewrite (app_nil_r archive) in Hg.
      rewrite Hg by done. by destruct raw. }
    rewrite Hreq1.
    unfold process_request, bind, lift, args_get, args_item, ask, args_set,
      modify, ret, arg.
    rewrite Hn. cbn [args set_args].
    repeat first [rewrite lookup_insert_eq | rewrite lookup_insert_ne by done].
    change (is_xhr (set_args req ?a)) with (is_xhr req).
    rewrite Hxhr. cbn. unfold arg in Hbr. by rewrite Hbr.
  - intros realm0 p ? ? ? Hatt Hpath.
    assert (req1 = set_args req
              (<["browser" := PRes (Resource_ realm0 p)]>
                 (<["path" := PNone]>
                    (<["format" := of_opt (raw_flag raw)]> (args req)))))
      as Hreq1.
    { unfold req1, match_request. rewrite Hpath.
      rewrite MatchFacts.attachment_not_browser by done.
      pose proof (MatchFacts.browser_groups raw j realm0 p None) as Hg.
      unfold browser_suffix in Hg. rewrite (app_nil_r p) in Hg.
      rewrite Hg by done. by destruct raw. }
    rewrite Hreq1.
    unfold process_request, bind, lift, args_get, args_item, ask, args_set,
      modify, ret, arg.
    rewrite Hn. cbn [args set_args].
    repeat first [rewrite lookup_insert_eq | rewrite lookup_insert_ne by done].
    change (is_xhr (set_args req ?a)) with (is_xhr req).
    rewrite Hxhr. unfold arg in Hatt. unfold py_or. by rewrite Hatt.
Qed.

Lemma X8_witness :
  process_request Demo.host
    (match_request (request_for "/zip/attachment/ticket/1/a.zip")).2
  = (Ok (Delegated AttachmentModule),
     set_args (match_request (request_for "/zip/attachment/ticket/1/a.zip")).2
       (<["path" := PStr (u "a.zip")]>
          (args (match_request
                   (request_for "/zip/attachment/ticket/1/a.zip")).2)))
  /\ process_request Demo.host
       (match_request (request_for "/zip/browser/trunk/a.zip")).2
     = (Ok (Delegated BrowserModule),
        set_args (match_request (request_for "/zip/browser/trunk/a.zip")).2
          (<["path" := PStr (u "trunk/a.zip")]>
             (args (match_request
                      (request_for "/zip/browser/trunk/a.zip")).2))).
Proof.
  split.
  - apply (proj1 (X8_delegation Demo.host
                    (request_for "/zip/attachment/ticket/1/a.zip")
                    262144%Z false 0%nat eq_refl eq_refl)
             (u "ticket") (u "1") (u "a.zip"));
      settle.
  - apply (proj2 (X8_delegation Demo.host
                    (request_for "/zip/browser/trunk/a.zip")
                    262144%Z false 0%nat eq_refl eq_refl)
             (u "browser") (u "trunk/a.zip"));
      settle.
Defined.

(** X9.  Whenever [process_request] returns, it either hands the request
    to another module or answers with the template 'attachment.html': the
    templates 'browser.html' and 'dir_entries.html' of the source are
    never returned. *)
Theorem X9_answers h req t req' :
  process_request h req = (Ok t, req') ->
  (exists m, t = Delegated m)
  \/ exists pv za, t = Template "attachment.html" (AttachmentPage pv za).
Proof.
  intros [(m & v & [= ->] & _)|(_ & _ & Ht)]%EffectFacts.process_request_outcome.
  - eauto.
  - right. by apply Ht.
Qed.

Lemma X9_witness :
  let req := Demo.request "/zip/attachment/ticket/1/a.zip!/readme.txt" [] in
  (exists t, (process_request Demo.host req).1 = Ok t)
  /\ ((exists m, (process_request Demo.host req).1 = Ok (Delegated m))
      \/ exists pv za,
           (process_request Demo.host req).1
           = Ok (Template "attachment.html" (AttachmentPage pv za))).
Proof.
  intros req.
  destruct (process_request Demo.host req) as [r req'] eqn:Hrun.
  assert (exists t, r = Ok t) as [t ->].
  { assert (r = (process_request Demo.host req).1) as -> by (by rewrite Hrun).
    vm_compute. eauto. }
  split; [eauto|].
  destruct (X9_answers Demo.host req t req' Hrun) as [[m ->]|(pv & za & ->)];
    eauto.
Defined.

(** X10.  What [process_request] leaves behind.  The path and the
    incoming headers are never changed; nothing is sent and no response
    body is set unless the run ends with [RequestDone]; and [req.args]
    changes only when the request is handed to another module, and then
    only at 'path'. *)
Theorem X10_effects h req r req' :
  process_request h req = (r, req') ->
  path_info req' = path_info req /\ in_headers req' = in_headers req /\
  (r <> Raise RequestDone ->
   sent req' = sent req /\ _response req' = _response req) /\
  ((forall m, r <> Ok (Delegated m)) -> args req' = args req) /\
  (forall k, k <> "path" -> args req' !! k = args req !! k).
Proof.
  intros [(m & v & -> & ->)|((Hp & Hh & Ha) & Hs & _)]
         %EffectFacts.process_request_outcome.
  - cbn. repeat split; try done.
    + intros H. by destruct (H m).
    + intros k Hk. by rewrite lookup_insert_ne.
  - repeat split; try done; try (by apply Hs).
    intros k _. by rewrite Ha.
Qed.

Lemma X10_witness :
  let run := process_request Demo.host Demo.missing_request in
  run.1 <> Raise RequestDone
  /\ sent run.2 = sent Demo.missing_request
  /\ _response run.2 = _response Demo.missing_request
  /\ args run.2 = args Demo.missing_request.
Proof.
  intros run.
  assert (run.1 <> Raise RequestDone) as Hne by (vm_compute; congruence).
  destruct (X10_effects Demo.host Demo.missing_request run.1 run.2)
    as (_ & _ & Hs & Ha & _); [apply surjective_pairing|].
  split; [done|]. destruct (Hs Hne) as [-> ->].
  split; [done|]. split; [done|]. apply Ha.
  intros m Hm. revert Hm. vm_compute. congruence.
Defined.

(** X11.  Only [KeyError] is turned into [ResourceNotFound].  When a
    member on the way is not an archive ([ZipFile] raises), or
    [ZipFile.open] raises anything but [KeyError], [process_request] lets
    that exception through and leaves the request as it was. *)
Theorem X11_zip_errors_pass h req res a name rev f0 :
  attachment_opened h req res a name rev f0 ->
  name <> [] ->
  forall pre seg post fp e,
    elements_of name = pre ++ seg :: post ->
    nested_entry h f0 pre = Some fp ->
    (ZipFile_ h fp = Raise e \/
     exists z, ZipFile_ h fp = Ok z /\ open z seg = Raise e /\
               forall k, e <> KeyError k) ->
    process_request h req = (Raise e, req).
Proof.
  intros Hopen Hname pre seg post fp e Hsplit Hpre Herr.
  rewrite (ProcessFacts.process_request_attachment h req res a name rev f0)
    by done.
  rewrite Hsplit. destruct Herr as [Hz|(z & Hz & He & Hk)].
  - by rewrite (ServeFacts.for_elements_not_a_zip _ _ _ _ _ _ fp e).
  - by rewrite (ServeFacts.for_elements_open_error _ _ _ _ _ _ fp z e).
Qed.

Lemma X11_witness :
  let req := Demo.request "/zip/attachment/ticket/1/a.zip!/readme.txt!/x" [] in
  attachment_opened Demo.host req Demo.the_resource Demo.the_attachment
                    (u "readme.txt!/x") None Demo.outer_zip
  /\ nested_entry Demo.host Demo.outer_zip [u "readme.txt"] = Some (u "hello")
  /\ ZipFile_ Demo.host (u "hello") = Raise (HostError "BadZipFile")
  /\ process_request Demo.host req = (Raise (HostError "BadZipFile"), req).
Proof.
  intros req.
  assert (attachment_opened Demo.host req Demo.the_resource
            Demo.the_attachment (u "readme.txt!/x") None Demo.outer_zip)
    as Hopen by (apply (demo_opened _ (u "readme.txt!/x")); by_computation).
  split; [done|]. split; [reflexivity|]. split; [reflexivity|].
  apply (X11_zip_errors_pass Demo.host req Demo.the_resource
           Demo.the_attachment (u "readme.txt!/x") None Demo.outer_zip Hopen
           ltac:(done) [u "readme.txt"] (u "x") [] (u "hello")
           (HostError "BadZipFile")); [reflexivity|reflexivity|].
  left. reflexivity.
Defined.

(** X12.  The page for a member of an attachment.  When 'format' is not
    'raw-' and the member is found, [process_request] adds the stylesheet
    'common/css/code.css' and an alternate link to the raw URL, sends
    nothing, and returns 'attachment.html' with the preview and an
    attachment that keeps the description, size, date and author of the
    archive but is named after the inner path and has the archive as its
    parent. *)
Theorem X12_attachment_page h req res a name rev f0 g z e zi data fmt url pv :
  attachment_opened h req res a name rev f0 ->
  name <> [] ->
  is_xhr req = false ->
  for_elements h name (elements_of name) f0 None = Ok (g, Some (z, e)) ->
  getinfo z e = Ok zi -> peek h g 512 = Ok data ->
  args req !! "format" = Some fmt -> py_eq_str fmt (u "raw-") = false ->
  trac_get_resource_url h (PRes res) (mkHref []) = Ok url ->
  let rawurl := req_href h req (u "raw-zip")
                  (unicode_unquote h url ++ u "!/" ++ name) rev in
  preview_data h (web_context req (Some (child res (u "zip") name rev))) g
               (file_size zi) (sniff h name data) name rawurl = Ok pv ->
  process_request h req
  = (Ok (Template "attachment.html"
           (AttachmentPage pv
              (mkZipAttachment (description a) (size a) (date a) (author a)
                 (ipnr a) (Some name) (realm res) (id res) res))),
     mkRequest (path_info req) (args req) (in_headers req) (sent req)
       (_response req)
       (chrome req
        ++ [add_stylesheet "common/css/code.css";
            add_link "alternate" rawurl (Translated "Original Format" [])
                     (sniff h name data)])).
Proof.
  intros Hopen Hname Hxhr Hloop Hzi Hdata Hfmt Hraw Hurl rawurl Hpv.
  rewrite (ProcessFacts.process_request_attachment h req res a name rev f0)
    by done.
  rewrite Hloop, Hxhr.
  by apply (ServeFacts.answer_attachment_page _ _ _ _ _ _ _ _ _ _ zi data fmt
              url).
Qed.

Lemma X12_witness :
  let req := Demo.request "/zip/attachment/ticket/1/a.zip!/inner.zip!/a.txt"
                          [] in
  let name := u "inner.zip!/a.txt" in
  let rawurl := u "/raw-zip/attachment/ticket/1/a.zip!/inner.zip!/a.txt" in
  attachment_opened Demo.host req Demo.the_resource Demo.the_attachment
                    name None Demo.outer_zip
  /\ args req !! "format" = Some PNone
  /\ process_request Demo.host req
     = (Ok (Template "attachment.html"
              (AttachmentPage (u "abc")
                 (mkZipAttachment (u "an archive") 11 0 (u "joe") None
                    (Some name) (u "attachment") (Some (u "a.zip"))
                    Demo.the_resource))),
        mkRequest (path_info req) (args req) (in_headers req) (sent req)
          (_response req)
          (chrome req
           ++ [add_stylesheet "common/css/code.css";
               add_link "alternate" rawurl (Translated "Original Format" [])
                        (Some (u "text/plain; charset=utf-8"))])).
Proof.
  intros req name rawurl.
  assert (attachment_opened Demo.host req Demo.the_resource
            Demo.the_attachment name None Demo.outer_zip)
    as Hopen by (apply (demo_opened _ name); settle).
  split; [done|]. split; [settle|].
  rewrite (X12_attachment_page Demo.host req Demo.the_resource
             Demo.the_attachment name None Demo.outer_zip
             (u "abc") (Demo.archive [Demo.member "a.txt" (u "abc")])
             (u "a.txt") (Demo.member "a.txt" (u "abc")).1 (u "abc")
             PNone (u "/attachment/ticket/1/a.zip") (u "abc") Hopen);
    settle.
Defined.

(** X13.  An XHR request is never answered.  Whatever the host and the
    arguments, [process_request] on a request whose header
    'X-Requested-With' is 'XMLHttpRequest' ends in an exception: the
    listing of lines 207-227 is never returned. *)
Theorem X13_xhr_raises h req :
  is_xhr req = true ->
  exists e req', process_request h req = (Raise e, req').
Proof. apply ListingFacts.xhr_never_returns. Qed.

Lemma X13_witness :
  let req := Demo.request "/zip/attachment/ticket/1/a.zip!/inner.zip"
                          Demo.xhr in
  is_xhr req = true
  /\ exists e req', process_request Demo.host req = (Raise e, req').
Proof.
  intros req. split; [reflexivity|].
  apply (X13_xhr_raises Demo.host req). reflexivity.
Defined.

(** X14.  A member of an archive in the repository is never served.  A
    request without a truthy 'attachment' that has an inner path (or is
    an XHR) always ends in an exception; and when the permission, the
    repository and the node are all found, that exception is the
    [AttributeError] of line 190, which reads [attachment.resource] while
    [attachment] is still what [req.args] held, and the request is left
    as it was. *)
Theorem X14_repository_member h req p :
  truthy (arg req "attachment") = false ->
  args req !! "path" = Some p ->
  truthy p = true \/ is_xhr req = true ->
  (exists e req', process_request h req = (Raise e, req'))
  /\
  (forall n name rev res reponame0 repos0 path0 node0,
      max_preview_size h = Ok n ->
      arg req "browser" = PRes res ->
      slice2 p = Ok name ->
      normalize_rev (arg req "rev") = Ok rev ->
      perm_require h req (PRes res) "FILE_VIEW" = Ok tt ->
      get_repository_by_path h (id res) = (reponame0, Some repos0, path0) ->
      get_existing_node h req repos0 path0 rev = Ok node0 ->
      process_request h req = (Raise (AttributeError "resource"), req)).
Proof.
  intros Ha Hp Hgo. split.
  - by apply (ListingFacts.repository_request_raises h req p).
  - intros n name rev res reponame0 repos0 path0 node0 Hn Hb Hname Hrev Hperm
           Hrepo Hnode.
    rewrite (ProcessFacts.process_request_proceeds h req n p rev) by done.
    rewrite Hb.
    assert (py_or (arg req "attachment") (PRes res) = PRes res) as ->
      by (unfold py_or; by rewrite Ha).
    unfold bind at 1, open_source. rewrite Ha. cbn [truthy].
    unfold bind, ask, lift, raise, ret. rewrite Hperm, Hrepo, Hnode.
    unfold serve_entry, bind, args_item, ask, lift, raise.
    by rewrite Hp, Hname.
Qed.

Lemma X14_witness :
  let req := Demo.request "/zip/browser/trunk/a.zip!/readme.txt" [] in
  truthy (arg req "attachment") = false
  /\ args req !! "path" = Some (PStr (u "!/readme.txt"))
  /\ get_existing_node Demo.host req (mkRepos (u "")) (u "trunk/a.zip") None
     = Ok Demo.the_node
  /\ process_request Demo.host req = (Raise (AttributeError "resource"), req).
Proof.
  intros req. split; [reflexivity|]. split; [reflexivity|].
  split; [reflexivity|].
  apply (proj2 (X14_repository_member Demo.host req
                  (PStr (u "!/readme.txt")) eq_refl eq_refl
                  (or_introl eq_refl))
           262144%Z (u "readme.txt") None
           (Resource_ (u "browser") (u "trunk/a.zip")) (u "")
           (mkRepos (u "")) (u "trunk/a.zip") Demo.the_node);
    settle.
Defined.

(** X15.  The elements of an inner path (line 193).  Whatever the inner
    path, there is at least one element, and no element contains [!] or
    begins with [/]: a member with such a name is never asked of an
    archive.  Conversely the path [!/s1!/s2...] built from segments of
    that kind is split into exactly these segments. *)
Theorem X15_elements :
  (forall name,
      elements_of name <> [] /\ Forall plain_segment (elements_of name))
  /\
  (forall segments,
      segments <> [] -> Forall plain_segment segments ->
      elements_of (drop 2 (inner_path segments)) = segments).
Proof.
  split.
  - intros name. split; [|apply ElementFacts.elements_plain].
    unfold elements_of.
    by destruct (ElementFacts.split_cons "!" name) as (e & l & ->).
  - apply ProcessFacts.elements_of_inner_path.
Qed.

Lemma X15_witness :
  elements_of (u "//a!b!/") = [u "a"; u "b"; []]
  /\ elements_of (drop 2 (inner_path [u "inner.zip"; u "dir/a.txt"]))
     = [u "inner.zip"; u "dir/a.txt"].
Proof.
  split; [reflexivity|].
  apply (proj2 X15_elements [u "inner.zip"; u "dir/a.txt"]); [done|].
  repeat constructor; compute_done.
Defined.

(** X16.  What [render] lists.  Without content ([None], an empty
    string, or a content object without input) it returns [None].  When
    it returns a list, the archive read is the input itself if that has
    [seek], and otherwise the first [max_preview_size] bytes of it; the
    list has one item per member of [infolist()], directories included,
    in that order, made of a link labelled with the member name to the
    URL of [resource.child('zip', name)] for the version of the
    resource, the raw link to its URL with [format='raw'], and the
    size. *)
Theorem X16_render_lists h url_of pretty_size context mimetype :
  Render.render h url_of pretty_size context mimetype CNone = Ok None
  /\ Render.render h url_of pretty_size context mimetype (CText []) = Ok None
  /\ Render.render h url_of pretty_size context mimetype (CObject None)
     = Ok None
  /\ forall f items,
       Render.render h url_of pretty_size context mimetype
                     (CObject (Some f)) = Ok (Some items) ->
       exists data z,
         (has_seek f = true /\ data = in_data f
          \/ has_seek f = false /\
             exists n, max_preview_size h = Ok n /\
                       data = Render.read (in_data f) n)
         /\ ZipFile_ h data = Ok z
         /\ map li_name items = map filename (infolist z)
         /\ Forall2
              (fun info item =>
                 let resource := child (rc_resource context) (u "zip")
                                       (filename info) None in
                 exists href raw_href,
                   url_of resource (rc_href context)
                     {["rev" := of_opt (version (rc_resource context))]}
                   = Ok href
                   /\ url_of resource (rc_href context)
                        {["format" := PStr (u "raw")]} = Ok raw_href
                   /\ item = mkListItem (Anchor (filename info) href)
                               (Anchor Render.zwsp raw_href)
                               (u " (" ++ pretty_size (file_size info)
                                ++ u ")"))
              (infolist z) items.
Proof.
  split; [done|]. split; [done|]. split; [done|].
  intros f items. unfold Render.render.
  destruct (if has_seek f then _ else _) as [data|] eqn:Hdata; [|done].
  destruct (ZipFile_ h data) as [z|] eqn:Hz; [|done].
  destruct (mapM _ (infolist z)) as [l|] eqn:Hl; [|done].
  intros [= <-]. exists data, z. split; [|split; [done|split]].
  - destruct (has_seek f).
    + left. by simplify_eq.
    + right. split; [done|].
      destruct (max_preview_size h) as [n|]; [|done].
      exists n. by simplify_eq.
  - apply (RenderFacts.mapM_names _ _ _ _ _) with (2 := Hl).
    intros info item.
    destruct (url_of _ _ _); [|done]. destruct (url_of _ _ _); [|done].
    by intros [= <-].
  - apply RenderFacts.mapM_Forall2 in Hl.
    eapply Forall2_impl; [exact Hl|].
    intros info item. cbn beta.
    destruct (url_of _ _ {["rev" := _]}) as [href|]; [|done].
    destruct (url_of _ _ {["format" := _]}) as [raw|]; [|done].
    intros [= <-]. eauto.
Qed.

Lemma X16_witness :
  let url_of := fun (r : Resource) (_ : Href) (kw : gmap string pyval) =>
                  Ok (u "/zip/" ++ default [] (id r)) in
  let context := mkRenderingContext Demo.the_resource (mkHref []) in
  let f := mkInput Demo.outer_zip false in
  exists items,
    Render.render Demo.host url_of (fun _ => u "1 KB") context
                  (u "application/zip") (CObject (Some f))
    = Ok (Some items)
    /\ exists data z,
         (has_seek f = true /\ data = in_data f
          \/ has_seek f = false /\
             exists n, max_preview_size Demo.host = Ok n /\
                       data = Render.read (in_data f) n)
         /\ ZipFile_ Demo.host data = Ok z
         /\ map li_name items = map filename (infolist z).
Proof.
  intros url_of context f. eexists. split; [reflexivity|].
  destruct (proj2 (proj2 (proj2
              (X16_render_lists Demo.host url_of (fun _ => u "1 KB") context
                 (u "application/zip"))))
              f _ eq_refl) as (data & z & Hdata & Hz & Hnames & _).
  by exists data, z.
Defined.

(** X17.  How a [zip:] or [raw-zip:] link is decoded.  With fewer than
    two colons the label is returned as it is.  [name:realm:id] links to
    the member [name] of [Resource(realm, id)];
    [name:realm:id:prealm:pid] to the member [name] of the child
    [(realm, id)] of [Resource(prealm, pid)], where [pid] may itself
    contain colons; with exactly three colons no resource is built and
    the URL of [None] is asked for.  The link text is the label, the
    fragment is appended to the URL, and the namespace plays no part. *)
Theorem X17_format_link h formatter ns target label link params fragment :
  split_link formatter target = (link, params, fragment) ->
  let url_for resource :=
    match trac_get_resource_url h resource (fmt_href formatter) with
    | Ok url => Ok (Anchor label (url ++ fragment))
    | Raise e => Raise e
    end in
  (forall a, ":"%char ∉ a -> link = a ->
             _format_link h formatter ns target label = Ok (Text label))
  /\
  (forall a b, ":"%char ∉ a -> ":"%char ∉ b -> link = a ++ u ":" ++ b ->
               _format_link h formatter ns target label = Ok (Text label))
  /\
  (forall name realm0 id0,
      ":"%char ∉ name -> ":"%char ∉ realm0 -> ":"%char ∉ id0 ->
      link = name ++ u ":" ++ realm0 ++ u ":" ++ id0 ->
      _format_link h formatter ns target label
      = url_for (PRes (child (Resource_ realm0 id0) (u "zip") name None)))
  /\
  (forall name realm0 id0 prealm pid,
      ":"%char ∉ name -> ":"%char ∉ realm0 -> ":"%char ∉ id0 ->
      ":"%char ∉ prealm ->
      link = name ++ u ":" ++ realm0 ++ u ":" ++ id0 ++ u ":" ++ prealm
             ++ u ":" ++ pid ->
      _format_link h formatter ns target label
      = url_for (PRes (child (child (Resource_ prealm pid) realm0 id0 None)
                             (u "zip") name None)))
  /\
  (forall name realm0 id0 x,
      ":"%char ∉ name -> ":"%char ∉ realm0 -> ":"%char ∉ id0 ->
      ":"%char ∉ x ->
      link = name ++ u ":" ++ realm0 ++ u ":" ++ id0 ++ u ":" ++ x ->
      _format_link h formatter ns target label = url_for PNone).
Proof.
  intros Hsplit url_for. repeat split.
  - intros a Ha ->. unfold _format_link.
    by rewrite Hsplit, LinkFacts.splitn_plain.
  - intros a b Ha Hb ->. unfold _format_link.
    by rewrite Hsplit, LinkFacts.splitn_two.
  - intros name realm0 id0 Hn Hr Hi ->.
    eapply (LinkFacts.format_link_with h formatter ns target label _ params
             fragment name realm0
             id0); [done|by apply LinkFacts.splitn_three|].
    by rewrite LinkFacts.splitn_plain.
  - intros name realm0 id0 prealm pid Hn Hr Hi Hp ->.
    eapply (LinkFacts.format_link_with h formatter ns target label _ params
             fragment name realm0
             (id0 ++ u ":" ++ prealm ++ u ":" ++ pid));
      [done|by apply LinkFacts.splitn_three|].
    by rewrite LinkFacts.splitn_three.
  - intros name realm0 id0 x Hn Hr Hi Hx ->.
    eapply (LinkFacts.format_link_with h formatter ns target label _ params
             fragment name realm0
             (id0 ++ u ":" ++ x)); [done|by apply LinkFacts.splitn_three|].
    by rewrite LinkFacts.splitn_two.
Qed.

Lemma X17_witness :
  let formatter := mkFormatter (fun t => (take 19 t, [], drop 19 t))
                               (mkHref []) in
  _format_link Demo.host formatter (u "zip") (u "readme.txt:ticket:1#top")
               (u "readme")
  = Ok (Anchor (u "readme") (u "/attachment/ticket/1/a.zip#top"))
  /\ _format_link Demo.host formatter (u "zip") (u "a.zip:ticket") (u "a")
     = Ok (Text (u "a")).
Proof.
  intros formatter. split.
  - rewrite (proj1 (proj2 (proj2
               (X17_format_link Demo.host formatter (u "zip")
                  (u "readme.txt:ticket:1#top") (u "readme")
                  (u "readme.txt:ticket:1") [] (u "#top") eq_refl)))
               (u "readme.txt") (u "ticket") (u "1")); settle.
  - apply (proj1 (proj2
             (X17_format_link Demo.host formatter (u "zip") (u "a.zip:ticket")
                (u "a") (u "a.zip:ticket") [] [] eq_refl))
             (u "a.zip") (u "ticket")); settle.
Defined.

(** X18.  The request filter and the handler together.
    [post_process_request] always hands back its three arguments; it
    leaves the request alone unless the template is 'browser.html' or
    'dir_entries.html', for which it adds the script
    'archiveviewer/js/add_expander_for_zip.js' and nothing else.  For a
    template that [process_request] itself returned it never adds the
    script. *)
Theorem X18_filter_after_handler {C} h :
  (forall t (d : template_data) (ct : C) req,
      let run := post_process_request t d ct req in
      run.1 = Ok (t, d, ct)
      /\ (t ∉ ["browser.html"; "dir_entries.html"]%string -> run.2 = req)
      /\ (t ∈ ["browser.html"; "dir_entries.html"]%string ->
          run.2 = mkRequest (path_info req) (args req) (in_headers req)
                    (sent req) (_response req)
                    (chrome req
                     ++ [add_script
                           "archiveviewer/js/add_expander_for_zip.js"])))
  /\
  (forall req t d (ct : C) req',
      process_request h req = (Ok (Template t d), req') ->
      post_process_request t d ct req' = (Ok (t, d, ct), req')).
Proof.
  split.
  - intros t d ct req. unfold post_process_request, bind, add_chrome, modify,
      ret.
    case_bool_decide; cbn; by repeat split.
  - intros req t d ct req'.
    intros [(m & v & [=] & _)|(_ & _ & Ht)]
           %EffectFacts.process_request_outcome.
    destruct (Ht _ eq_refl) as (pv & za & [= -> ->]). reflexivity.
Qed.

Lemma X18_witness :
  let run := process_request Demo.host
               (Demo.request "/zip/attachment/ticket/1/a.zip!/readme.txt"
                             []) in
  exists t d,
    run.1 = Ok (Template t d)
    /\ post_process_request t d (Some (u "text/html")) run.2
       = (Ok (t, d, Some (u "text/html")), run.2).
Proof.
  intros run.
  assert (exists t d, run.1 = Ok (Template t d)) as (t & d & Hrun)
    by (vm_compute; by eexists _, _).
  exists t, d. split; [done|].
  apply (proj2 (X18_filter_after_handler Demo.host)
           (Demo.request "/zip/attachment/ticket/1/a.zip!/readme.txt" [])).
  rewrite <- Hrun. apply surjective_pairing.
Defined.

(** X19.  The mimetype handed to the answer (lines 240-245).  There is
    none when the host knows none; an empty one stays empty; and a
    non-empty one always carries a charset: it is the host's mimetype
    itself when that already has [charset=], and otherwise the host's
    mimetype followed by [; charset=] and the charset the host detects. *)
Theorem X19_sniff_charset h name data :
  match get_mimetype h name data with
  | None => sniff h name data = None
  | Some m =>
      exists m',
        sniff h name data = Some m'
        /\ PyStr.startswith m' m = true
        /\ (m = [] -> m' = [])
        /\ (m <> [] -> PyStr.contains m' (u "charset=") = true)
        /\ (PyStr.contains m (u "charset=") = true -> m' = m)
        /\ (m <> [] -> PyStr.contains m (u "charset=") = false ->
            m' = m ++ u "; charset=" ++ get_charset h data m)
  end.
Proof.
  unfold sniff. destruct (get_mimetype h name data) as [m|]; [|done].
  destruct m as [|c m].
  - exists []. by repeat split.
  - change (truthy (PStr (c :: m))) with true. cbn [andb].
    destruct (PyStr.contains (c :: m) (u "charset=")) eqn:Hc; cbn [negb].
    + exists (c :: m). repeat split; try done.
      rewrite <- (app_nil_r (c :: m)) at 1. apply SniffFacts.startswith_app.
    + eexists. split; [done|]. repeat split; try done.
      * apply SniffFacts.startswith_app.
      * intros _.
        change (u "; charset=" ++ get_charset h data (c :: m))
          with (u "; " ++ u "charset=" ++ get_charset h data (c :: m)).
        rewrite (assoc_L (++) (c :: m)). apply SniffFacts.contains_app.
Qed.

Lemma X19_witness :
  sniff Demo.host (u "a.txt") (u "abc") = Some (u "text/plain; charset=utf-8")
  /\ PyStr.contains (u "text/plain; charset=utf-8") (u "charset=") = true.
Proof.
  pose proof (X19_sniff_charset Demo.host (u "a.txt") (u "abc")) as H.
  change (get_mimetype Demo.host (u "a.txt") (u "abc"))
    with (Some (u "text/plain")) in H.
  destruct H as (m' & Hs & _ & _ & Hc & _ & Hm).
  assert (m' = u "text/plain; charset=utf-8") as Hm'
    by exact (Hm ltac:(done) eq_refl).
  split; [by rewrite Hs, Hm'|].
  rewrite <- Hm'. by apply Hc.
Defined.

(** X20.  The permission is asked for first.  When a request with an
    inner path (or an XHR) names an attachment or a repository file and
    the host refuses 'ATTACHMENT_VIEW' respectively 'FILE_VIEW' on it,
    [process_request] ends with that refusal and the request unchanged,
    whatever the attachment, the repository and the archive are. *)
Theorem X20_permission_first h req n p rev e :
  max_preview_size h = Ok n ->
  args req !! "path" = Some p ->
  truthy p = true \/ is_xhr req = true ->
  normalize_rev (arg req "rev") = Ok rev ->
  let resource := py_or (arg req "attachment") (arg req "browser") in
  truthy resource = true ->
  perm_require h req resource
    (if truthy (arg req "attachment") then "ATTACHMENT_VIEW" else "FILE_VIEW")
  = Raise e ->
  process_request h req = (Raise e, req).
Proof.
  intros Hn Hp Hgo Hrev resource Hres Hperm.
  rewrite (ProcessFacts.process_request_proceeds h req n p rev) by done.
  fold resource. unfold bind at 1, open_source.
  destruct (truthy (arg req "attachment")) eqn:Ha.
  - unfold bind, ask, lift. by rewrite Hperm.
  - assert (truthy (arg req "browser") = true) as ->.
    { unfold resource, py_or in Hres. by rewrite Ha in Hres. }
    unfold bind, ask, lift. by rewrite Hperm.
Qed.

Lemma X20_witness :
  let req := Demo.request "/zip/attachment/ticket/1/a.zip!/readme.txt" [] in
  process_request closed_host req = (Raise (HostError "PermissionError"), req)
  /\ exists t, (process_request Demo.host req).1 = Ok t.
Proof.
  intros req. split.
  - apply (X20_permission_first closed_host req 262144%Z
             (PStr (u "!/readme.txt")) None (HostError "PermissionError"));
      settle.
  - vm_compute. by eexists.
Defined.

(** X21.  Nested archives of an attachment are walked one level per
    segment.  Every inner path is a row of segments set apart by [!],
    each of them some slashes and then a name without [!] that does not
    begin with a slash.  For an attachment request with such a non-empty
    inner path, when each name in turn is an entry of the archive that
    the entry before it is (the first one of the attachment itself), the
    rest of the handler runs on the entry [g] that the last name gives in
    the archive [z] reached through the names before it, and a raw
    request streams exactly [g]. *)
Theorem X21_nested_traversal h req res a name rev f0 :
  attachment_opened h req res a name rev f0 ->
  name <> [] ->
  (exists segs,
      Forall (fun ks => plain_segment ks.2) segs
      /\ name = join "!" (map padded segs))
  /\
  (forall segs g,
      Forall (fun ks => plain_segment ks.2) segs ->
      name = join "!" (map padded segs) ->
      nested_entry h f0 (map snd segs) = Some g ->
      exists pre e fp z,
        map snd segs = pre ++ [e] /\
        nested_entry h f0 pre = Some fp /\
        ZipFile_ h fp = Ok z /\ open z e = Ok g /\
        process_request h req
        = answer h (is_xhr req) (Some a) None (arg req "browser") (PRes res)
            rev name g (Some (z, e))
            (web_context req (Some (child res (u "zip") name rev))) req /\
        (forall zi data lm,
            is_xhr req = false ->
            getinfo z e = Ok zi -> peek h g 512 = Ok data ->
            args req !! "format" = Some (PStr (u "raw-")) ->
            http_date h (date_time zi) = Ok lm ->
            get_header req "If-Modified-Since" <> Some lm ->
            exists req',
              process_request h req = (Raise RequestDone, req') /\
              _response req' = Some (g, 4096%Z))).
Proof.
  intros Hopen Hname. split; [apply TraversalFacts.inner_path_shape|].
  intros segs g Hall Hjoin Hg.
  assert (segs <> []) as Hne by (intros ->; by apply Hname).
  assert (elements_of name = map snd segs) as Hel
    by (rewrite Hjoin; by apply TraversalFacts.elements_of_join).
  assert (map snd segs <> []) as Hne' by (by destruct segs).
  destruct (exists_last Hne') as (pre & e & Hsplit).
  rewrite Hsplit in Hg. rewrite ProcessFacts.nested_entry_app in Hg.
  destruct (nested_entry h f0 pre) as [fp|] eqn:Hpre; [|done].
  simpl in Hg.
  destruct (ZipFile_ h fp) as [z|] eqn:Hz; [|done].
  destruct (open z e) as [g'|] eqn:He; [|done].
  injection Hg as ->.
  assert (process_request h req
          = answer h (is_xhr req) (Some a) None (arg req "browser") (PRes res)
              rev name g (Some (z, e))
              (web_context req (Some (child res (u "zip") name rev))) req)
    as Hreq.
  { rewrite (ProcessFacts.process_request_attachment h req res a name rev f0)
      by done.
    rewrite Hel, Hsplit.
    by rewrite (ProcessFacts.for_elements_last _ _ _ _ _ fp z g). }
  exists pre, e, fp, z. repeat split; try done.
  intros zi data lm Hxhr Hzi Hdata Hformat Hlm Hims.
  rewrite Hreq, Hxhr.
  rewrite (ProcessFacts.answer_raw _ _ _ _ _ _ _ _ _ _ _ _ zi data) by done.
  rewrite (ProcessFacts.raw_response_replied _ _ _ _ _ lm) by done.
  rewrite bool_decide_false by done. eauto.
Qed.

Lemma X21_witness :
  attachment_opened Demo.host Demo.raw_request Demo.the_resource
                    Demo.the_attachment (u "inner.zip!/a.txt") None
                    Demo.outer_zip
  /\ u "inner.zip!/a.txt"
     = join "!" (map padded [(0%nat, u "inner.zip"); (1%nat, u "a.txt")])
  /\ nested_entry Demo.host Demo.outer_zip [u "inner.zip"; u "a.txt"]
     = Some (u "abc")
  /\ exists req',
       process_request Demo.host Demo.raw_request = (Raise RequestDone, req')
       /\ _response req' = Some (u "abc", 4096%Z).
Proof.
  assert (attachment_opened Demo.host Demo.raw_request Demo.the_resource
            Demo.the_attachment (u "inner.zip!/a.txt") None Demo.outer_zip)
    as Hopen by (apply (demo_opened _ (u "inner.zip!/a.txt")); settle).
  split; [done|]. split; [reflexivity|]. split; [reflexivity|].
  destruct (proj2 (X21_nested_traversal Demo.host Demo.raw_request
                     Demo.the_resource Demo.the_attachment
                     (u "inner.zip!/a.txt") None Demo.outer_zip Hopen
                     ltac:(done))
              [(0%nat, u "inner.zip"); (1%nat, u "a.txt")] (u "abc"))
    as (pre & e & fp & z & Hsplit & Hpre & Hz & He & _ & Hraw);
    [repeat constructor; compute_done|reflexivity|reflexivity|].
  assert (pre = [u "inner.zip"] /\ e = u "a.txt") as [-> ->].
  { change (map snd [(0%nat, u "inner.zip"); (1%nat, u "a.txt")])
      with ([u "inner.zip"] ++ [u "a.txt"]) in Hsplit.
    by apply app_inj_tail in Hsplit as [<- <-]. }
  assert (Some Demo.inner_zip = Some fp) as [= <-] by exact Hpre.
  assert (Ok (Demo.archive [Demo.member "a.txt" (u "abc")]) = Ok z)
    as [= <-] by exact Hz.
  apply (Hraw (Demo.member "a.txt" (u "abc")).1 (u "abc")
              (u "Mon, 01 Jul 2019 12:30:00 GMT")); settle.
Defined.

(** X22.  What [resource_exists] answers and what it lets through.  A
    [ResourceNotFound] from [Attachment(...)] gives False; when the
    attachment is built and has a path, the answer is whether that path
    exists; any other exception, from [Attachment(...)] or from the
    [path] of the attachment, is not caught. *)
Theorem X22_resource_exists h resource :
  let parent_arg := match parent resource with
                    | Some p => PRes p
                    | None => PNone
                    end in
  (forall msg title,
      Attachment_ h parent_arg = Raise (ResourceNotFound msg title) ->
      resource_exists h resource = Ok false)
  /\
  (forall a p,
      Attachment_ h parent_arg = Ok a -> path a = Ok p ->
      resource_exists h resource = Ok (path_exists h p))
  /\
  (forall e,
      (forall msg title, e <> ResourceNotFound msg title) ->
      Attachment_ h parent_arg = Raise e \/
      (exists a, Attachment_ h parent_arg = Ok a /\ path a = Raise e) ->
      resource_exists h resource = Raise e).
Proof.
  repeat split.
  - intros msg title H. unfold resource_exists. by rewrite H.
  - intros a p H Hp. unfold resource_exists. by rewrite H, Hp.
  - intros e He [H|(a & H & Hp)]; unfold resource_exists; rewrite H.
    + destruct e; try done. by destruct (He msg title).
    + rewrite Hp. destruct e; try done. by destruct (He msg title).
Qed.

Lemma X22_witness :
  resource_exists Demo.host
    (child (child (Resource_ (u "ticket") (u "1")) (u "attachment")
                  (u "b.zip") None) (u "zip") (u "x") None)
  = Ok false
  /\ resource_exists Demo.host
       (child Demo.the_resource (u "zip") (u "a.txt") None)
     = Ok true
  /\ resource_exists Demo.host (Resource_ (u "zip") (u "a.txt"))
     = Raise TypeError.
Proof.
  split; [|split].
  - by apply (proj1 (X22_resource_exists Demo.host _)
                (Plain (u "no such attachment")) None).
  - by apply (proj1 (proj2 (X22_resource_exists Demo.host _))
                Demo.the_attachment (u "/files/ticket/1/a.zip")).
  - apply (proj2 (proj2 (X22_resource_exists Demo.host
                           (Resource_ (u "zip") (u "a.txt"))))
             TypeError); [done|].
    right. by exists Demo.unparented_attachment.
Defined.
